(** * gxserial: the synchronous buffer and the serial transport

    A shallow embedding of the Go package [gxserial] (the synchronous
    buffer with its pattern search, the transport's Send / Receive /
    Close / trace dispatch and the Linux port's live reconfiguration),
    followed by the properties proved about it.

    Conventions.
    - Go [int], [time.Duration] and slice lengths are [Z]; [uint64] and
      [uint32] are [Z] with the wrap-around written out.
    - [[]byte] is [list byte]; [s[i:]] is [skipn], [s[:i]] is [firstn].
    - A method that holds [mu] for its whole body is one atomic function
      of the state.  What other goroutines and the clock do while a call
      is suspended is an explicit argument of that call. *)

From Stdlib Require Import ZArith List Lia Bool String Sorted.
From Stdlib Require Import Strings.Byte.
Import ListNotations.
Open Scope Z_scope.

(* ================================================================== *)
(** * Part I: definitions                                              *)
(* ================================================================== *)

(** [len(s)] of a Go slice. *)
Definition len {A : Type} (s : list A) : Z := Z.of_nat (List.length s).

(** ** The two functions of Go's [bytes] package that [Search] uses *)

(** [bytes.HasPrefix(s, prefix)]. *)
Fixpoint HasPrefix (s prefix : list byte) : bool :=
  match prefix, s with
  | [], _ => true
  | _ :: _, [] => false
  | p :: prefix', c :: s' => Byte.eqb c p && HasPrefix s' prefix'
  end.

(** [bytes.Index(s, sep)]: the index of the first instance of [sep] in
    [s], or [-1] if [sep] is not present in [s]. *)
Fixpoint Index (s sep : list byte) : Z :=
  if HasPrefix s sep then 0
  else match s with
       | [] => -1
       | _ :: s' => let i := Index s' sep in
                    if i <? 0 then -1 else 1 + i
       end.

(** ** synchronousMediaBase *)

(** [wait] is the wake channel.  [make(chan struct{})] yields a channel
    that no one else holds, so a channel is identified by its generation
    number; [close(old)] fires every generation below the current one. *)
Record synchronousMediaBase : Type := {
  buf : list byte;
  wait : nat
}.

Definition newGXSynchronousMediaBase : synchronousMediaBase :=
  {| buf := []; wait := 0%nat |}.

Definition Append (b : synchronousMediaBase) (p : list byte)
  : synchronousMediaBase :=
  if len p =? 0 then b
  else {| buf := buf b ++ p; wait := S (wait b) |}.

(** [Get] returns the bytes taken and the buffer left.  A [count] below
    [-1] or above [len(b.buf)] makes the slice expression [b.buf[:count]]
    panic or reach into spare capacity; that is [None]. *)
Definition Get (b : synchronousMediaBase) (count : Z)
  : option (list byte * synchronousMediaBase) :=
  if (count =? -1) || (count =? len (buf b)) then
    Some (buf b, {| buf := []; wait := wait b |})
  else if (0 <=? count) && (count <=? len (buf b)) then
    Some (firstn (Z.to_nat count) (buf b),
          {| buf := skipn (Z.to_nat count) (buf b); wait := wait b |})
  else None.

(** One iteration of either [for] loop of [Search], from taking the lock
    to the point where the call returns or suspends in [select]. *)
Inductive pass_result : Type :=
| Return (offset : Z)
| Select (ch : nat) (lastStart : Z).

Definition overlap_of (pattern : list byte) : Z :=
  let overlap := len pattern - 1 in
  if overlap <? 0 then 0 else overlap.

(** [minLen] is already clamped at 0 here.  With [maxWait > 0] the
    deadline is [time.Now().Add(maxWait)], which is not the zero time, so
    the guard [!deadline.IsZero()] holds exactly when [maxWait > 0]. *)
Definition Search_pass (pattern : list byte) (minLen maxWait : Z)
    (lastStart : Z) (b : synchronousMediaBase) : pass_result :=
  if len pattern =? 0 then
    if len (buf b) >=? minLen then Return 0
    else if maxWait <=? 0 then Return (-1)
    else Select (wait b) lastStart
  else
    let start := lastStart in
    let start := if start <? 0 then 0 else start in
    let start := if start >? len (buf b) then len (buf b) else start in
    if len (buf b) <? minLen then
      if maxWait <=? 0 then Return (-1)
      else Select (wait b) lastStart
    else
      let i := Index (skipn (Z.to_nat start) (buf b)) pattern in
      if i >=? 0 then
        let pos := start + i in
        Return (pos + len pattern)
      else
        let nextStart := len (buf b) - overlap_of pattern in
        let nextStart := if nextStart <? 0 then 0 else nextStart in
        if maxWait <=? 0 then Return (-1)
        else Select (wait b) nextStart.

(** What the reader goroutine does while a [Search] is in progress: it
    calls [Append(chunk)] at [at_ns] nanoseconds after [Search] was
    entered.  The reader only appends; [Get] is called by [Receive]
    alone, after its own [Search] has returned. *)
Record arrival : Type := {
  at_ns : Z;
  chunk : list byte
}.

(** The suspended call: blocked in [select] on [ch] and on a timer that
    fires [maxWait] nanoseconds after entry.  An [Append] of an empty
    slice does not replace the wake channel, so the call stays blocked.

    The loop returns the offset with the buffer as it is at the return,
    and the passes it made: for each pass the cursor [lastStart] it
    starts from and the buffer it finds, which are the arguments of its
    one call [bytes.Index(b.buf[start:], pattern)]. *)
Fixpoint Search_loop (pattern : list byte) (minLen maxWait : Z)
    (lastStart : Z) (ch : nat) (b : synchronousMediaBase)
    (env : list arrival)
  : (Z * synchronousMediaBase) * list (Z * synchronousMediaBase) :=
  match env with
  | [] => ((-1, b), [])
  | a :: env' =>
      if maxWait <=? at_ns a then ((-1, b), [])
      else
        let b' := Append b (chunk a) in
        if Nat.eqb (wait b') ch then
          Search_loop pattern minLen maxWait lastStart ch b' env'
        else
          match Search_pass pattern minLen maxWait lastStart b' with
          | Return z => ((z, b'), [(lastStart, b')])
          | Select ch' lastStart' =>
              let '(found, passes) :=
                Search_loop pattern minLen maxWait lastStart' ch' b' env' in
              (found, (lastStart, b') :: passes)
          end
  end.

(** What the suspended call returns, and the passes it makes. *)
Definition Search_select (pattern : list byte) (minLen maxWait : Z)
    (lastStart : Z) (ch : nat) (b : synchronousMediaBase)
    (env : list arrival) : Z * synchronousMediaBase :=
  fst (Search_loop pattern minLen maxWait lastStart ch b env).

Definition passes_select (pattern : list byte) (minLen maxWait : Z)
    (lastStart : Z) (ch : nat) (b : synchronousMediaBase)
    (env : list arrival) : list (Z * synchronousMediaBase) :=
  snd (Search_loop pattern minLen maxWait lastStart ch b env).

(** The whole call: the first pass, with the cursor at 0, and the loop. *)
Definition Search_scans (pattern : list byte) (minLen maxWait : Z)
    (b : synchronousMediaBase) (env : list arrival)
  : (Z * synchronousMediaBase) * list (Z * synchronousMediaBase) :=
  let minLen := if minLen <? 0 then 0 else minLen in
  match Search_pass pattern minLen maxWait 0 b with
  | Return z => ((z, b), [(0, b)])
  | Select ch lastStart =>
      let '(found, passes) :=
        Search_loop pattern minLen maxWait lastStart ch b env in
      (found, (0, b) :: passes)
  end.

(** [Search] returns the offset and the buffer as it is at the return. *)
Definition Search (pattern : list byte) (minLen maxWait : Z)
    (b : synchronousMediaBase) (env : list arrival)
  : Z * synchronousMediaBase :=
  fst (Search_scans pattern minLen maxWait b env).

(** The passes of the call, in order. *)
Definition Search_passes (pattern : list byte) (minLen maxWait : Z)
    (b : synchronousMediaBase) (env : list arrival)
  : list (Z * synchronousMediaBase) :=
  snd (Search_scans pattern minLen maxWait b env).





(** Every arrival of [env] happens before the deadline. *)
Definition in_time (maxWait : Z) (env : list arrival) : Prop :=
  Forall (fun a => at_ns a < maxWait) env.

(** The bytes appended by [env]. *)
Definition appended (env : list arrival) : list byte :=
  List.concat (map chunk env).

(** The arrivals a call with [maxWait] can see: those before the first
    one that is not earlier than the deadline. *)
Fixpoint arrived (maxWait : Z) (env : list arrival) : list arrival :=
  match env with
  | [] => []
  | a :: env' =>
      if maxWait <=? at_ns a then [] else a :: arrived maxWait env'
  end.

(** The buffer after the appends of [env]. *)
Definition Appends (b : synchronousMediaBase) (env : list arrival)
  : synchronousMediaBase :=
  fold_left (fun b a => Append b (chunk a)) env b.

(** The buffer each time the wake channel fires, in order. *)
Fixpoint wakeups (b : synchronousMediaBase) (env : list arrival)
  : list synchronousMediaBase :=
  match env with
  | [] => []
  | a :: env' =>
      if len (chunk a) =? 0 then wakeups b env'
      else Append b (chunk a) :: wakeups (Append b (chunk a)) env'
  end.

(** An index [i] found in [u[k:]], as an index into [u]. *)
Definition shift (k : nat) (i : Z) : Z :=
  if i <? 0 then -1 else Z.of_nat k + i.

(** The cursor invariant.

    No occurrence of the pattern starts before the cursor, neither in
    the buffer as it is nor after any further append. *)
Definition cursor_ok (p : list byte) (ls : Z) (s : list byte) : Prop :=
  0 <= ls <= Z.max 0 (len s - overlap_of p) /\
  forall (j : nat) (t : list byte),
    Z.of_nat j < ls -> HasPrefix (skipn j (s ++ t)) p = false.

(** ** The search as the specification words it

    No cursor: every pass looks at the whole buffer.  The call succeeds
    at the first moment the buffer holds [minLength] bytes and contains
    the pattern, with the offset just after the first occurrence. *)
Definition satisfied (pattern : list byte) (minLen : Z) (s : list byte) : bool :=
  (minLen <=? len s) && (0 <=? Index s pattern).

Fixpoint search_spec_wait (pattern : list byte) (minLen maxWait : Z)
    (s : list byte) (env : list arrival) : Z :=
  match env with
  | [] => -1
  | a :: env' =>
      if maxWait <=? at_ns a then -1
      else
        let s' := s ++ chunk a in
        if satisfied pattern minLen s' then Index s' pattern + len pattern
        else search_spec_wait pattern minLen maxWait s' env'
  end.

Definition search_spec (pattern : list byte) (minLen maxWait : Z)
    (s : list byte) (env : list arrival) : Z :=
  let minLen := Z.max 0 minLen in
  if satisfied pattern minLen s then Index s pattern + len pattern
  else if maxWait <=? 0 then -1
  else search_spec_wait pattern minLen maxWait s env.

(** ** Errors and results

    A Go [error] is a value of [error]; the [nil] error is [None] of
    [option error].  The constructors are the error values this package
    builds, plus the ones handed to it by the kernel and by gxcommon. *)
Inductive error : Type :=
| ErrCountOrEop                      (* "msg.count_or_eop" *)
| ErrNotOpen                         (* "serial port not open" *)
| ErrTcgetattr (e : error)           (* "tcgetattr failed: %w" *)
| ErrTcsetattr (e : error)           (* "tcsetattr failed: %w" *)
| ErrSetBaudRate (e : error)         (* "setBaudRate failed. %w" *)
| ErrUnsupportedBaud (value : Z)     (* "setBaudRate failed. unsupported baud: %d" *)
| ErrSetDataBits (e : error)         (* "setDataBits failed. %w" *)
| ErrInvalidDataBits (value : Z)     (* "setDataBits failed. invalid databits: %d" *)
| ErrSetParity (e : error)           (* "setParity failed. %w" *)
| ErrMarkSpaceParity                 (* "mark/space parity not supported on this system" *)
| ErrSetStopBits (e : error)         (* "setStopBits failed. %w" *)
| ErrInvalidStopBits (value : Z)     (* "setStopBits failed. invalid value: %d (use 0 or 1)" *)
| ErrOpenDataBits                    (* "invalid databits (must be 5..8)" *)
| ErrOpenStopBits                    (* "invalid stopbits (must be 1 or 2)" *)
| ErrOpenMarkParity                  (* "mark parity requested but CMSPAR not supported" *)
| ErrOpenSpaceParity                 (* "space parity requested but CMSPAR not supported" *)
| ErrOpenParity                      (* "invalid parity" *)
| ErrErrno (errno : Z)               (* an error of a system call *)
| ErrGxcommon (code : nat).          (* an error of a gxcommon converter *)

Inductive result (A : Type) : Type :=
| Ok (a : A)
| Err (e : error).
Arguments Ok {A} a.
Arguments Err {A} e.

(** ** What the package imports

    [gxcommon] (github.com/Gurux/gxcommon-go) is another module: its
    converters and the numeric values of its enumerations are taken as
    given.  [value] stands for the dynamic values a caller passes as
    [any]; the [nil] interface value is [None]. *)
Class Gxcommon : Type := {
  value : Type;
  replyType : Type;
  ToBytes : option value -> result (list byte);
  ToString : option value -> result string;
  BytesToAny2 : list byte -> replyType -> option value * option error;
  ParityNone : Z;
  ParityOdd : Z;
  ParityEven : Z;
  ParityMark : Z;
  ParitySpace : Z;
  StopBitsOne : Z;
  StopBitsTwo : Z;
  TraceTypesSent : Z;
  TraceTypesReceived : Z;
  TraceTypesError : Z;
  TraceTypesInfo : Z
}.

Inductive MediaState : Type :=
| MediaStateClosed
| MediaStateOpen
| MediaStateOpening
| MediaStateClosing.

(** [unix.Termios], the fields the package touches. *)
Record Termios : Type := {
  Iflag : Z;
  Oflag : Z;
  Cflag : Z;
  Lflag : Z;
  Ispeed : Z;
  Ospeed : Z
}.

(** The system calls of the Linux port, as the results they give. *)
Class Kernel : Type := {
  unix_Open : string -> result Z;
  IoctlGetTermios : Z -> result Termios;
  IoctlSetTermios : Z -> Termios -> option error;
  IoctlSetInt_TCFLSH : Z -> option error;
  os_Pipe : result (Z * Z);
  file_Close : Z -> option error;
  file_Write : Z -> list byte -> Z * option error
}.

(** Constants of golang.org/x/sys/unix on Linux. *)
Module unix.
Definition CLOCAL : Z := 0x800.
Definition CREAD : Z := 0x80.
Definition ICANON : Z := 0x2.
Definition ECHO : Z := 0x8.
Definition ECHOE : Z := 0x10.
Definition ECHOK : Z := 0x20.
Definition ECHONL : Z := 0x40.
Definition ISIG : Z := 0x1.
Definition IEXTEN : Z := 0x8000.
Definition OPOST : Z := 0x1.
Definition ONLCR : Z := 0x4.
Definition OCRNL : Z := 0x8.
Definition INLCR : Z := 0x40.
Definition IGNCR : Z := 0x80.
Definition ICRNL : Z := 0x100.
Definition IGNBRK : Z := 0x1.
Definition CSIZE : Z := 0x30.
Definition CS5 : Z := 0x0.
Definition CS6 : Z := 0x10.
Definition CS7 : Z := 0x20.
Definition CS8 : Z := 0x30.
Definition CSTOPB : Z := 0x40.
Definition INPCK : Z := 0x10.
Definition ISTRIP : Z := 0x20.
Definition PARENB : Z := 0x100.
Definition PARODD : Z := 0x200.
Definition IXON : Z := 0x400.
Definition IXOFF : Z := 0x1000.
Definition CRTSCTS : Z := 0x80000000.
Definition B0 : Z := 0x0.
Definition B50 : Z := 0x1.
Definition B75 : Z := 0x2.
Definition B110 : Z := 0x3.
Definition B134 : Z := 0x4.
Definition B150 : Z := 0x5.
Definition B200 : Z := 0x6.
Definition B300 : Z := 0x7.
Definition B600 : Z := 0x8.
Definition B1200 : Z := 0x9.
Definition B1800 : Z := 0xa.
Definition B2400 : Z := 0xb.
Definition B4800 : Z := 0xc.
Definition B9600 : Z := 0xd.
Definition B19200 : Z := 0xe.
Definition B38400 : Z := 0xf.
Definition B57600 : Z := 0x1001.
Definition B115200 : Z := 0x1002.
End unix.

(** [x |= m] and [x &^= m]. *)
Definition set_bits (x m : Z) : Z := Z.lor x m.
Definition clear_bits (x m : Z) : Z := Z.ldiff x m.

(** ** The Linux port *)

Record port : Type := {
  f : option Z;
  fd : Z;
  r : option Z;
  w : option Z
}.

Definition port_zero : port := {| f := None; fd := 0; r := None; w := None |}.

Definition toUnitBaudrate_table : list (Z * Z) :=
  [ (0, unix.B0); (50, unix.B50); (75, unix.B75); (110, unix.B110);
    (134, unix.B134); (150, unix.B150); (200, unix.B200); (300, unix.B300);
    (600, unix.B600); (1200, unix.B1200); (1800, unix.B1800);
    (2400, unix.B2400); (4800, unix.B4800); (9600, unix.B9600);
    (19200, unix.B19200); (38400, unix.B38400); (57600, unix.B57600);
    (115200, unix.B115200) ].

(** [m[k]] of a Go map: the zero value when the key is missing. *)
Fixpoint map_index (m : list (Z * Z)) (k : Z) : Z :=
  match m with
  | [] => 0
  | (k', v) :: m' => if k =? k' then v else map_index m' k
  end.

Definition toUnitBaudrate (baud : Z) : Z := map_index toUnitBaudrate_table baud.

Definition isOpen (p : port) : bool :=
  match f p with Some _ => true | None => false end.

Definition ensureOpen (p : port) : option error :=
  match f p with None => Some ErrNotOpen | Some _ => None end.

Definition with_Cflag (t : Termios) (c : Z) : Termios :=
  {| Iflag := Iflag t; Oflag := Oflag t; Cflag := c; Lflag := Lflag t;
     Ispeed := Ispeed t; Ospeed := Ospeed t |}.

Definition with_speed (t : Termios) (u : Z) : Termios :=
  {| Iflag := Iflag t; Oflag := Oflag t; Cflag := Cflag t; Lflag := Lflag t;
     Ispeed := u; Ospeed := u |}.

Section LinuxPort.
Context {X : Gxcommon} {K : Kernel}.

Definition port_close (p : port) : option error * port :=
  match f p with
  | Some file =>
      (file_Close file, {| f := None; fd := 0; r := r p; w := w p |})
  | None => (None, p)
  end.

Definition getTermios (p : port) : result Termios :=
  match ensureOpen p with
  | Some err => Err err
  | None =>
      match IoctlGetTermios (fd p) with
      | Err err => Err (ErrTcgetattr err)
      | Ok t => Ok t
      end
  end.

Definition setTermios (p : port) (t : Termios) : option error :=
  match ensureOpen p with
  | Some err => Some err
  | None =>
      match IoctlSetTermios (fd p) t with
      | Some err => Some (ErrTcsetattr err)
      | None => None
      end
  end.

Definition setBaudRate (p : port) (v : Z) : option error :=
  match getTermios p with
  | Err err => Some (ErrSetBaudRate err)
  | Ok t =>
      let u := toUnitBaudrate v in
      if u =? 0 then Some (ErrUnsupportedBaud v)
      else setTermios p (with_speed t u)
  end.

Definition setDataBits (p : port) (v : Z) : option error :=
  match getTermios p with
  | Err err => Some (ErrSetDataBits err)
  | Ok t =>
      let c := clear_bits (Cflag t) unix.CSIZE in
      if v =? 5 then setTermios p (with_Cflag t (set_bits c unix.CS5))
      else if v =? 6 then setTermios p (with_Cflag t (set_bits c unix.CS6))
      else if v =? 7 then setTermios p (with_Cflag t (set_bits c unix.CS7))
      else if v =? 8 then setTermios p (with_Cflag t (set_bits c unix.CS8))
      else Some (ErrInvalidDataBits v)
  end.

Definition setParity (p : port) (v : Z) : option error :=
  match getTermios p with
  | Err err => Some (ErrSetParity err)
  | Ok t =>
      let c := clear_bits (Cflag t) (Z.lor unix.PARENB unix.PARODD) in
      if v =? ParityNone then setTermios p (with_Cflag t c)
      else if v =? ParityEven then
        setTermios p (with_Cflag t (set_bits c unix.PARENB))
      else if v =? ParityOdd then
        setTermios p (with_Cflag t (set_bits c (Z.lor unix.PARENB unix.PARODD)))
      else if (v =? ParityMark) || (v =? ParitySpace) then
        Some ErrMarkSpaceParity
      else setTermios p (with_Cflag t c)
  end.

Definition setStopBits (p : port) (v : Z) : option error :=
  match getTermios p with
  | Err err => Some (ErrSetStopBits err)
  | Ok t =>
      let c := clear_bits (Cflag t) unix.CSTOPB in
      if v =? StopBitsOne then
        setTermios p (with_Cflag t (set_bits c unix.CSTOPB))
      else if negb (v =? 0) then Some (ErrInvalidStopBits v)
      else setTermios p (with_Cflag t c)
  end.

Definition port_write (p : port) (data : list byte) : Z * option error :=
  match ensureOpen p, f p with
  | None, Some file => file_Write file data
  | Some err, _ => (0, Some err)
  | None, None => (0, Some ErrNotOpen)
  end.
End LinuxPort.

(** ** GXSerial *)

(** A [chan struct{}] nobody sends on: a receive from it in a [select]
    is ready only once the channel is closed. *)
Inductive chan : Type :=
| chan_nil
| chan_open
| chan_closed.

(** The texts handed to the trace handler: the localized messages by
    their key and arguments, and the formatted TX line. *)
Inductive message : Type :=
| msg_closing_connection (port : string)
| msg_connection_closed (port : string)
| msg_connecting_to (port : string)
| msg_connected_to (port : string)
| msg_connect_failed (port : string) (e : error)
| msg_TX (text : string).

(** A call of a registered handler.  Handlers are the caller's code; what
    the package does is to call them, in this order, with these
    arguments. *)
Inductive callback : Type :=
| OnTrace (traceType : Z) (text : message)
| OnMediaStateChange (state : MediaState)
| OnError (e : error).

Section Transport.
Context {X : Gxcommon} {K : Kernel}.

(** The handler fields hold whether a handler is registered ([nil] is
    [false]); [wg] is the counter of the wait group. *)
Record GXSerial : Type := {
  Port : string;
  baudRate : Z;
  dataBits : Z;
  stopBits : Z;
  parity : Z;
  eop : option value;
  traceLevel : Z;
  wg : nat;
  stop : chan;
  synchronous : bool;
  bytesSent : Z;
  bytesReceived : Z;
  onState : bool;
  onReceive : bool;
  onTrace : bool;
  onErr : bool;
  receivedSize : Z;
  received : synchronousMediaBase;
  s : port
}.

Definition NewGXSerial (port : string) (baudRate dataBits parity stopBits : Z)
  : GXSerial :=
  {| Port := port; baudRate := baudRate; dataBits := dataBits;
     stopBits := stopBits; parity := parity; eop := None; traceLevel := 0;
     wg := 0%nat; stop := chan_open; synchronous := false;
     bytesSent := 0; bytesReceived := 0;
     onState := false; onReceive := false; onTrace := false; onErr := false;
     receivedSize := 0; received := newGXSynchronousMediaBase;
     s := port_zero |}.

(** Assignments to single fields. *)
Definition set_s (g : GXSerial) (p : port) : GXSerial :=
  {| Port := Port g; baudRate := baudRate g; dataBits := dataBits g;
     stopBits := stopBits g; parity := parity g; eop := eop g;
     traceLevel := traceLevel g; wg := wg g; stop := stop g;
     synchronous := synchronous g; bytesSent := bytesSent g;
     bytesReceived := bytesReceived g; onState := onState g;
     onReceive := onReceive g; onTrace := onTrace g; onErr := onErr g;
     receivedSize := receivedSize g; received := received g; s := p |}.

Definition set_received (g : GXSerial) (b : synchronousMediaBase) : GXSerial :=
  {| Port := Port g; baudRate := baudRate g; dataBits := dataBits g;
     stopBits := stopBits g; parity := parity g; eop := eop g;
     traceLevel := traceLevel g; wg := wg g; stop := stop g;
     synchronous := synchronous g; bytesSent := bytesSent g;
     bytesReceived := bytesReceived g; onState := onState g;
     onReceive := onReceive g; onTrace := onTrace g; onErr := onErr g;
     receivedSize := receivedSize g; received := b; s := s g |}.

Definition set_bytesSent (g : GXSerial) (n : Z) : GXSerial :=
  {| Port := Port g; baudRate := baudRate g; dataBits := dataBits g;
     stopBits := stopBits g; parity := parity g; eop := eop g;
     traceLevel := traceLevel g; wg := wg g; stop := stop g;
     synchronous := synchronous g; bytesSent := n;
     bytesReceived := bytesReceived g; onState := onState g;
     onReceive := onReceive g; onTrace := onTrace g; onErr := onErr g;
     receivedSize := receivedSize g; received := received g; s := s g |}.

Definition set_wg (g : GXSerial) (n : nat) : GXSerial :=
  {| Port := Port g; baudRate := baudRate g; dataBits := dataBits g;
     stopBits := stopBits g; parity := parity g; eop := eop g;
     traceLevel := traceLevel g; wg := n; stop := stop g;
     synchronous := synchronous g; bytesSent := bytesSent g;
     bytesReceived := bytesReceived g; onState := onState g;
     onReceive := onReceive g; onTrace := onTrace g; onErr := onErr g;
     receivedSize := receivedSize g; received := received g; s := s g |}.

Definition set_config (g : GXSerial) (baud data stopb par : Z) : GXSerial :=
  {| Port := Port g; baudRate := baud; dataBits := data;
     stopBits := stopb; parity := par; eop := eop g;
     traceLevel := traceLevel g; wg := wg g; stop := stop g;
     synchronous := synchronous g; bytesSent := bytesSent g;
     bytesReceived := bytesReceived g; onState := onState g;
     onReceive := onReceive g; onTrace := onTrace g; onErr := onErr g;
     receivedSize := receivedSize g; received := received g; s := s g |}.

Definition set_handlers (g : GXSerial) (state receive trace err : bool)
  : GXSerial :=
  {| Port := Port g; baudRate := baudRate g; dataBits := dataBits g;
     stopBits := stopBits g; parity := parity g; eop := eop g;
     traceLevel := traceLevel g; wg := wg g; stop := stop g;
     synchronous := synchronous g; bytesSent := bytesSent g;
     bytesReceived := bytesReceived g; onState := state;
     onReceive := receive; onTrace := trace; onErr := err;
     receivedSize := receivedSize g; received := received g; s := s g |}.

Definition set_traceLevel (g : GXSerial) (level : Z) : GXSerial :=
  {| Port := Port g; baudRate := baudRate g; dataBits := dataBits g;
     stopBits := stopBits g; parity := parity g; eop := eop g;
     traceLevel := level; wg := wg g; stop := stop g;
     synchronous := synchronous g; bytesSent := bytesSent g;
     bytesReceived := bytesReceived g; onState := onState g;
     onReceive := onReceive g; onTrace := onTrace g; onErr := onErr g;
     receivedSize := receivedSize g; received := received g; s := s g |}.

(** *** Live reconfiguration *)

Definition SetBaudRate (g : GXSerial) (v : Z) : option error * GXSerial :=
  let g := set_config g v (dataBits g) (stopBits g) (parity g) in
  if isOpen (s g) then (setBaudRate (s g) v, g) else (None, g).

Definition SetDataBits (g : GXSerial) (v : Z) : option error * GXSerial :=
  let g := set_config g (baudRate g) v (stopBits g) (parity g) in
  if isOpen (s g) then (setDataBits (s g) v, g) else (None, g).

Definition SetStopBits (g : GXSerial) (v : Z) : option error * GXSerial :=
  let g := set_config g (baudRate g) (dataBits g) v (parity g) in
  if isOpen (s g) then (setStopBits (s g) v, g) else (None, g).

Definition SetParity (g : GXSerial) (v : Z) : option error * GXSerial :=
  let g := set_config g (baudRate g) (dataBits g) (stopBits g) v in
  if isOpen (s g) then (setParity (s g) v, g) else (None, g).

Definition SetOnMediaStateChange (g : GXSerial) (registered : bool) : GXSerial :=
  set_handlers g registered (onReceive g) (onTrace g) (onErr g).

Definition SetOnTrace (g : GXSerial) (registered : bool) : GXSerial :=
  set_handlers g (onState g) (onReceive g) registered (onErr g).

Definition SetOnError (g : GXSerial) (registered : bool) : GXSerial :=
  set_handlers g (onState g) (onReceive g) (onTrace g) registered.

Definition SetTrace (g : GXSerial) (level : Z) : option error * GXSerial :=
  (None, set_traceLevel g level).

Definition GetBytesSent (g : GXSerial) : Z := bytesSent g.

(** *** Event dispatch

    The two branches on [lock] differ only in taking the read lock. *)
Definition errorf (g : GXSerial) (lock : bool) (err : error) : list callback :=
  let cb := if lock then onErr g else onErr g in
  if cb then [OnError err] else [].

Definition tracef (g : GXSerial) (lock : bool) (traceType : Z)
    (text : message) : list callback :=
  let '(trace, cb) :=
    if lock then (negb (traceLevel g <? traceType), onTrace g)
    else (negb (traceLevel g <? traceType), onTrace g) in
  if cb && trace then [OnTrace traceType text] else [].

Definition trace (g : GXSerial) (lock : bool) (traceType : Z)
    (text : message) : list callback :=
  let '(trace, cb) :=
    if lock then (negb (traceLevel g <? traceType), onTrace g)
    else (negb (traceLevel g <? traceType), onTrace g) in
  if cb && trace then [OnTrace traceType text] else [].

Definition statef (g : GXSerial) (lock : bool) (state : MediaState)
  : list callback :=
  let cb := if lock then onState g else onState g in
  if cb then [OnMediaStateChange state] else [].
End Transport.

(** [uint64] and [int64] arithmetic wraps around. *)
Definition wrap_uint64 (z : Z) : Z := z mod 2 ^ 64.
Definition wrap_int64 (z : Z) : Z := (z + 2 ^ 63) mod 2 ^ 64 - 2 ^ 63.

(** [time.Millisecond], in nanoseconds. *)
Definition Millisecond : Z := 1000000.

(** ** The reader goroutine, as far as [Close] waits for it *)

(** The texts the reader hands to the trace handler. *)
Inductive reader_message : Type :=
| msg_RX (text : string)
| msg_RX_failed (e : error)
| msg_connection_failed (e : error).

(** The handler calls of the reader: those of [errorf], the traces with
    the reader's texts, and the received-data handler with the data and
    the sender, which is the port name. *)
Inductive reader_callback : Type :=
| Called (c : callback)
| OnTraceText (traceType : Z) (text : reader_message)
| OnReceived (data : list byte) (senderInfo : string).

Section ReaderExit.
Context {X : Gxcommon}.

(** [tracef] and [trace] with one of the reader's texts. *)
Definition tracef_reader (g : GXSerial) (lock : bool) (traceType : Z)
    (text : reader_message) : list reader_callback :=
  let '(trace, cb) :=
    if lock then (negb (traceLevel g <? traceType), onTrace g)
    else (negb (traceLevel g <? traceType), onTrace g) in
  if cb && trace then [OnTraceText traceType text] else [].

(** [defer g.wg.Done()].  The reader runs after [g.wg.Add(1)], so the
    counter is positive when it exits. *)
Definition reader_exit (g : GXSerial) : GXSerial := set_wg g (Nat.pred (wg g)).

Definition set_bytesReceived (g : GXSerial) (n : Z) : GXSerial :=
  {| Port := Port g; baudRate := baudRate g; dataBits := dataBits g;
     stopBits := stopBits g; parity := parity g; eop := eop g;
     traceLevel := traceLevel g; wg := wg g; stop := stop g;
     synchronous := synchronous g; bytesSent := bytesSent g;
     bytesReceived := n; onState := onState g;
     onReceive := onReceive g; onTrace := onTrace g; onErr := onErr g;
     receivedSize := receivedSize g; received := received g; s := s g |}.

(** The reader while [Close] holds [g.mu], on the results of the calls
    of [g.s.read()] it completes from then on.  A read that fails makes
    it report the failure (without the lock) and exit through
    [g.wg.Done()].  A read that returns bytes is counted and takes it
    into [handleData], whose first step [tracef(true, ...)] asks for
    the read lock: the lock is [Close]'s until [Close] returns, so the
    reader stops there.  When the results end the reader is blocked in
    a read that never completes.  As for [reader], the third component
    tells whether the goroutine has exited. *)
Fixpoint reader_during_Close (g : GXSerial) (reads : list (result (list byte)))
  : GXSerial * list reader_callback * bool :=
  match reads with
  | [] => (g, [], false)
  | Err err :: _ =>
      let cbs :=
        match stop g with
        | chan_nil => []
        | _ =>
            tracef_reader g false TraceTypesError (msg_connection_failed err)
            ++ map Called (errorf g false err)
        end in
      (reader_exit g, cbs, true)
  | Ok ret :: reads' =>
      if negb (len ret =? 0) then
        (set_bytesReceived g (wrap_uint64 (bytesReceived g + len ret)), [], false)
      else
        match stop g with
        | chan_closed => (reader_exit g, [], true)
        | _ => reader_during_Close g reads'
        end
  end.

(** [g.wg.Wait()] in [Close]: it returns when the counter is zero.  The
    only goroutine that calls [Done] is the reader.  The second
    component tells whether the wait has ended. *)
Definition wg_Wait (g : GXSerial) (reads : list (result (list byte)))
  : GXSerial * bool :=
  match wg g with
  | O => (g, true)
  | S _ =>
      let '(g', _, exited) := reader_during_Close g reads in
      (g', exited && Nat.eqb (wg g') 0)
  end.
End ReaderExit.

(** How a call of [Close] ends: it returns its error, or it stays in
    [g.wg.Wait()] for ever, with [g.mu] locked. *)
Inductive Close_result : Type :=
| Returns (err : option error)
| Blocks.

Section Operations.
Context {X : Gxcommon} {K : Kernel}.

(** [gxcommon.ReceiveParameters], the fields [Receive] uses. *)
Record ReceiveParameters : Type := {
  EOP : option value;
  Count : Z;
  AllData : bool;
  WaitTime : Z;
  Reply : option value;
  ReplyType : replyType
}.

Definition set_Reply (args : ReceiveParameters) (v : option value)
  : ReceiveParameters :=
  {| EOP := EOP args; Count := Count args; AllData := AllData args;
     WaitTime := WaitTime args; Reply := v; ReplyType := ReplyType args |}.

(** *** openPort (Linux) *)

(** The error returns of [openPort] that first call [cfg.s.close()]. *)
Definition close_and_return (cfg : GXSerial) (err : error)
  : option error * GXSerial :=
  (Some err, set_s cfg (snd (port_close (s cfg)))).

(** The [switch cfg.dataBits] of [openPort], on [t.Cflag]. *)
Definition open_dataBits (c : Z) (v : Z) : option Z :=
  if v =? 5 then Some (set_bits c unix.CS5)
  else if v =? 6 then Some (set_bits c unix.CS6)
  else if v =? 7 then Some (set_bits c unix.CS7)
  else if v =? 8 then Some (set_bits c unix.CS8)
  else None.

(** The [switch cfg.stopBits] of [openPort]. *)
Definition open_stopBits (c : Z) (v : Z) : option Z :=
  if v =? 1 then Some (clear_bits c unix.CSTOPB)
  else if v =? 2 then Some (set_bits c unix.CSTOPB)
  else None.

Definition CMSPAR : Z := 0x40000000.
Definition hasCMSPAR : bool := true.

(** The [switch cfg.parity] of [openPort]. *)
Definition open_parity (c : Z) (v : Z) : result Z :=
  if v =? ParityNone then Ok c
  else if v =? ParityEven then
    let c := set_bits c unix.PARENB in
    let c := clear_bits c unix.PARODD in
    Ok (if hasCMSPAR then clear_bits c CMSPAR else c)
  else if v =? ParityOdd then
    let c := set_bits c (Z.lor unix.PARENB unix.PARODD) in
    Ok (if hasCMSPAR then clear_bits c CMSPAR else c)
  else if v =? ParityMark then
    if negb hasCMSPAR then Err ErrOpenMarkParity
    else Ok (set_bits c (Z.lor (Z.lor unix.PARENB CMSPAR) unix.PARODD))
  else if v =? ParitySpace then
    if negb hasCMSPAR then Err ErrOpenSpaceParity
    else Ok (clear_bits (set_bits c (Z.lor unix.PARENB CMSPAR)) unix.PARODD)
  else Err ErrOpenParity.

Definition openPort (cfg : GXSerial) : option error * GXSerial :=
  match unix_Open (Port cfg) with
  | Err err => (Some err, cfg)
  | Ok fd =>
    let cfg := set_s cfg {| f := Some fd; fd := fd; r := None; w := None |} in
    match IoctlGetTermios fd with
    | Err err => close_and_return cfg err
    | Ok t =>
      let cflag := set_bits (Cflag t) (Z.lor unix.CLOCAL unix.CREAD) in
      let lflag := clear_bits (Lflag t)
        (Z.lor (Z.lor (Z.lor (Z.lor (Z.lor (Z.lor unix.ICANON unix.ECHO)
           unix.ECHOE) unix.ECHOK) unix.ECHONL) unix.ISIG) unix.IEXTEN) in
      let oflag := clear_bits (Oflag t)
        (Z.lor (Z.lor unix.OPOST unix.ONLCR) unix.OCRNL) in
      let iflag := clear_bits (Iflag t)
        (Z.lor (Z.lor (Z.lor unix.INLCR unix.IGNCR) unix.ICRNL) unix.IGNBRK) in
      let speed := toUnitBaudrate (baudRate cfg) in
      let cflag := clear_bits cflag unix.CSIZE in
      match open_dataBits cflag (dataBits cfg) with
      | None => close_and_return cfg ErrOpenDataBits
      | Some cflag =>
        match open_stopBits cflag (stopBits cfg) with
        | None => close_and_return cfg ErrOpenStopBits
        | Some cflag =>
          let iflag := clear_bits iflag (Z.lor unix.INPCK unix.ISTRIP) in
          let cflag := clear_bits cflag (Z.lor unix.PARENB unix.PARODD) in
          let cflag := if hasCMSPAR then clear_bits cflag CMSPAR else cflag in
          match open_parity cflag (parity cfg) with
          | Err err => close_and_return cfg err
          | Ok cflag =>
            let iflag := clear_bits iflag (Z.lor unix.IXON unix.IXOFF) in
            let cflag := clear_bits cflag unix.CRTSCTS in
            let t := {| Iflag := iflag; Oflag := oflag; Cflag := cflag;
                        Lflag := lflag; Ispeed := speed; Ospeed := speed |} in
            match IoctlSetTermios fd t with
            | Some err => close_and_return cfg err
            | None =>
              match IoctlSetInt_TCFLSH fd with
              | Some err => (Some err, cfg)
              | None =>
                match os_Pipe with
                | Err err => close_and_return cfg err
                | Ok (pr, pw) =>
                  (None, set_s cfg {| f := Some fd; fd := fd;
                                      r := Some pr; w := Some pw |})
                end
              end
            end
          end
        end
      end
    end
  end.

(** *** Open, Close

    Each returns the error, the transport afterwards and the handler
    calls it made.  [go g.reader()] after [g.wg.Add(1)] leaves one more
    reader to wait for; [g.wg.Wait()] returns once the counter is
    zero. *)
Definition Open (g : GXSerial) : option error * GXSerial * list callback :=
  if isOpen (s g) then (None, g, [])
  else
    let cbs := statef g false MediaStateOpening
               ++ trace g false TraceTypesInfo (msg_connecting_to (Port g)) in
    match openPort g with
    | (Some err, g) =>
        (Some err, g,
         cbs ++ trace g false TraceTypesError (msg_connect_failed (Port g) err)
             ++ errorf g false err)
    | (None, g) =>
        let g := set_wg g (S (wg g)) in
        (None, g,
         cbs ++ trace g false TraceTypesInfo (msg_connected_to (Port g))
             ++ statef g false MediaStateOpen)
    end.

(** [reads] is what the reader goroutine gets from [g.s.read()] while
    the call holds [g.mu].  The result has the transport as it is at the
    return (or in the wait that never ends) and the handler calls
    [Close] itself makes; those the reader makes meanwhile are the
    calls of [reader_during_Close]. *)
Definition Close (g : GXSerial) (reads : list (result (list byte)))
  : Close_result * GXSerial * list callback :=
  let err : option error := None in
  let '(g, cbs) :=
    match stop g with
    | chan_closed =>
        (* already closed *)
        (g, [])
    | _ =>
        let cbs1 :=
          if isOpen (s g) then
            trace g false TraceTypesInfo (msg_closing_connection (Port g))
            ++ statef g false MediaStateClosing
          else [] in
        let g := set_s g (snd (port_close (s g))) in
        let cbs2 :=
          trace g false TraceTypesInfo (msg_connection_closed (Port g))
          ++ statef g false MediaStateClosed in
        (g, cbs1 ++ cbs2)
    end in
  let '(g, returned) := wg_Wait g reads in
  ((if returned then Returns err else Blocks), g, cbs).

(** *** Send, Receive *)

Definition Send (g : GXSerial) (data : option value) (receiver : string)
  : option error * GXSerial * list callback :=
  match ToBytes data with
  | Err err => (Some err, g, [])
  | Ok tmp =>
      let g := set_bytesSent g (wrap_uint64 (bytesSent g + len tmp)) in
      match ToString data with
      | Err err => (Some err, g, [])
      | Ok str =>
          let cbs := tracef g true TraceTypesSent (msg_TX str) in
          let '(_, ret) := port_write (s g) tmp in
          (ret, g, cbs)
      end
  end.

(** [env] is what the reader appends while the search waits.  The
    result is [None] when [Get] panics. *)
Definition Receive (g : GXSerial) (args : ReceiveParameters)
    (env : list arrival)
  : option (bool * option error * GXSerial * ReceiveParameters) :=
  if match EOP args with None => true | Some _ => false end
     && (Count args =? 0) && negb (AllData args) then
    Some (false, Some ErrCountOrEop, g, args)
  else
    match ToBytes (EOP args) with
    | Err err => Some (false, Some err, g, args)
    | Ok terminator =>
        let waitTime :=
          if WaitTime args <=? 0 then 0
          else wrap_int64 (WaitTime args * Millisecond) in
        let '(index, b) :=
          Search terminator (Count args) waitTime (received g) env in
        let g := set_received g b in
        if index =? -1 then Some (false, None, g, args)
        else
          let index := if AllData args then -1 else index in
          match Get b index with
          | None => None
          | Some (data, b) =>
              let g := set_received g b in
              let '(reply, err) := BytesToAny2 data (ReplyType args) in
              let args := set_Reply args reply in
              match err with
              | Some err => Some (false, Some err, g, args)
              | None => Some (true, None, g, args)
              end
          end
    end.

(** The wait [Receive] asks [Search] for. *)
Definition waitTime_of (args : ReceiveParameters) : Z :=
  if WaitTime args <=? 0 then 0 else wrap_int64 (WaitTime args * Millisecond).

Definition valid_request (args : ReceiveParameters) : Prop :=
  EOP args <> None \/ Count args <> 0 \/ AllData args = true.

End Operations.

(** ** Inputs for running the model

    To run the operations on concrete inputs the imported interfaces
    need an implementation.  In [bytes_gxcommon] the dynamic values are
    byte slices: a [nil] value converts to no bytes, a slice converts to
    itself, and any bytes decode; the enumeration values are sample
    values.  In [good_kernel] every system call succeeds; in
    [broken_kernel] every one fails with errno 5 (EIO). *)
Definition bytes_gxcommon : Gxcommon :=
  {| value := list byte;
     replyType := unit;
     ToBytes := fun v => match v with None => Ok [] | Some data => Ok data end;
     ToString := fun v =>
       match v with
       | None => Ok EmptyString
       | Some data => Ok (string_of_list_byte data)
       end;
     BytesToAny2 := fun data _ => (Some data, None);
     ParityNone := 0; ParityOdd := 1; ParityEven := 2;
     ParityMark := 3; ParitySpace := 4;
     StopBitsOne := 1; StopBitsTwo := 2;
     TraceTypesSent := 1; TraceTypesReceived := 2;
     TraceTypesError := 4; TraceTypesInfo := 16 |}.

Definition termios_zero : Termios :=
  {| Iflag := 0; Oflag := 0; Cflag := 0; Lflag := 0; Ispeed := 0; Ospeed := 0 |}.

Definition good_kernel : Kernel :=
  {| unix_Open := fun _ => Ok 3;
     IoctlGetTermios := fun _ => Ok termios_zero;
     IoctlSetTermios := fun _ _ => None;
     IoctlSetInt_TCFLSH := fun _ => None;
     os_Pipe := Ok (4, 5);
     file_Close := fun _ => None;
     file_Write := fun _ data => (len data, None) |}.

Definition broken_kernel : Kernel :=
  {| unix_Open := fun _ => Err (ErrErrno 5);
     IoctlGetTermios := fun _ => Err (ErrErrno 5);
     IoctlSetTermios := fun _ _ => Some (ErrErrno 5);
     IoctlSetInt_TCFLSH := fun _ => Some (ErrErrno 5);
     os_Pipe := Err (ErrErrno 5);
     file_Close := fun _ => Some (ErrErrno 5);
     file_Write := fun _ _ => (0, Some (ErrErrno 5)) |}.

Definition bytes_of (text : string) : list byte := list_byte_of_string text.

(** A transport as [NewGXSerial("/dev/ttyS0", 9600, 8, parity, stopBits)]
    makes it, with the state handler registered. *)
Definition serial0 : @GXSerial bytes_gxcommon :=
  @SetOnMediaStateChange bytes_gxcommon
    (@NewGXSerial bytes_gxcommon "/dev/ttyS0" 9600 8 0 1) true.

(** [serial0] in synchronous use, after the reader appended "ABCDE". *)
Definition serial_ABCDE : @GXSerial bytes_gxcommon :=
  @set_received bytes_gxcommon serial0
    (Append newGXSynchronousMediaBase (bytes_of "ABCDE")).

(** The requests used below. *)
Definition receive_args (eop : option (list byte)) (count : Z) (allData : bool)
    (waitTime : Z) : @ReceiveParameters bytes_gxcommon :=
  @Build_ReceiveParameters bytes_gxcommon eop count allData waitTime None tt.

(** ** Part I, continued: the rest of the package *)

(** Whether an [Append] of this arrival adds a byte. *)
Definition carries_bytes (a : arrival) : bool := negb (len (chunk a) =? 0).

(** The parities [openPort] knows. *)
Definition known_parity {X : Gxcommon} (v : Z) : Prop :=
  v = ParityNone \/ v = ParityEven \/ v = ParityOdd \/
  v = ParityMark \/ v = ParitySpace.

(** The baud rates of [toUnitBaudrate] whose code is not zero. *)
Definition supported_rates : list Z :=
  [50; 75; 110; 134; 150; 200; 300; 600; 1200; 1800; 2400; 4800; 9600;
   19200; 38400; 57600; 115200].

(** Two termios that differ at most in [Cflag]. *)
Definition same_but_Cflag (t t' : Termios) : Prop :=
  Iflag t' = Iflag t /\ Oflag t' = Oflag t /\ Lflag t' = Lflag t /\
  Ispeed t' = Ispeed t /\ Ospeed t' = Ospeed t.

(** *** What openPort hands to the kernel

    The termios [openPort] computes between [IoctlGetTermios] and
    [IoctlSetTermios], from the termios read and the configuration. *)
Section OpenTermios.
Context {X : Gxcommon}.

Definition open_termios (cfg : GXSerial) (t : Termios) : result Termios :=
  let cflag := set_bits (Cflag t) (Z.lor unix.CLOCAL unix.CREAD) in
  let lflag := clear_bits (Lflag t)
    (Z.lor (Z.lor (Z.lor (Z.lor (Z.lor (Z.lor unix.ICANON unix.ECHO)
       unix.ECHOE) unix.ECHOK) unix.ECHONL) unix.ISIG) unix.IEXTEN) in
  let oflag := clear_bits (Oflag t)
    (Z.lor (Z.lor unix.OPOST unix.ONLCR) unix.OCRNL) in
  let iflag := clear_bits (Iflag t)
    (Z.lor (Z.lor (Z.lor unix.INLCR unix.IGNCR) unix.ICRNL) unix.IGNBRK) in
  let speed := toUnitBaudrate (baudRate cfg) in
  let cflag := clear_bits cflag unix.CSIZE in
  match open_dataBits cflag (dataBits cfg) with
  | None => Err ErrOpenDataBits
  | Some cflag =>
    match open_stopBits cflag (stopBits cfg) with
    | None => Err ErrOpenStopBits
    | Some cflag =>
      let iflag := clear_bits iflag (Z.lor unix.INPCK unix.ISTRIP) in
      let cflag := clear_bits cflag (Z.lor unix.PARENB unix.PARODD) in
      let cflag := if hasCMSPAR then clear_bits cflag CMSPAR else cflag in
      match open_parity cflag (parity cfg) with
      | Err err => Err err
      | Ok cflag =>
        let iflag := clear_bits iflag (Z.lor unix.IXON unix.IXOFF) in
        let cflag := clear_bits cflag unix.CRTSCTS in
        Ok {| Iflag := iflag; Oflag := oflag; Cflag := cflag;
              Lflag := lflag; Ispeed := speed; Ospeed := speed |}
      end
    end
  end.

(** A run of [Send] calls, one for each value. *)
Fixpoint Sends {K : Kernel} (g : GXSerial) (datas : list (option value))
  : GXSerial :=
  match datas with
  | [] => g
  | data :: datas' => Sends (snd (fst (Send g data EmptyString))) datas'
  end.

(** The number of bytes [ToBytes] encodes a value into, 0 when it fails. *)
Definition encoded_len (data : option value) : Z :=
  match ToBytes data with
  | Ok tmp => len tmp
  | Err _ => 0
  end.
End OpenTermios.

(** The flags [openPort] clears for raw mode and for no flow control. *)
Definition raw_lflags : Z :=
  Z.lor (Z.lor (Z.lor (Z.lor (Z.lor (Z.lor unix.ICANON unix.ECHO)
    unix.ECHOE) unix.ECHOK) unix.ECHONL) unix.ISIG) unix.IEXTEN.
Definition raw_oflags : Z := Z.lor (Z.lor unix.OPOST unix.ONLCR) unix.OCRNL.
Definition raw_iflags : Z :=
  Z.lor (Z.lor (Z.lor (Z.lor (Z.lor (Z.lor (Z.lor unix.INLCR unix.IGNCR)
    unix.ICRNL) unix.IGNBRK) unix.INPCK) unix.ISTRIP) unix.IXON) unix.IXOFF.
Definition parity_flags : Z := Z.lor (Z.lor unix.PARENB unix.PARODD) CMSPAR.

(** The sum of a list of integers. *)
Fixpoint list_sum_Z (l : list Z) : Z :=
  match l with
  | [] => 0
  | z :: l' => z + list_sum_Z l'
  end.

(** *** The reader goroutine *)

(** A byte slice passed as [any], as [handleData] passes the received
    bytes to [gxcommon.ToString]. *)
Class GxcommonBytes (X : Gxcommon) : Type := {
  of_bytes : list byte -> value
}.

(** The data handed to the received-data handler, in order. *)
Definition received_data (cbs : list reader_callback) : list (list byte) :=
  flat_map (fun c => match c with OnReceived data _ => [data] | _ => [] end) cbs.

(** The errors handed to the error handler, in order. *)
Definition reported_errors (cbs : list reader_callback) : list error :=
  flat_map (fun c => match c with Called (OnError e) => [e] | _ => [] end) cbs.

Section Reader.
Context {X : Gxcommon} {B : GxcommonBytes X}.

Definition set_synchronous (g : GXSerial) (v : bool) : GXSerial :=
  {| Port := Port g; baudRate := baudRate g; dataBits := dataBits g;
     stopBits := stopBits g; parity := parity g; eop := eop g;
     traceLevel := traceLevel g; wg := wg g; stop := stop g;
     synchronous := v; bytesSent := bytesSent g;
     bytesReceived := bytesReceived g; onState := onState g;
     onReceive := onReceive g; onTrace := onTrace g; onErr := onErr g;
     receivedSize := receivedSize g; received := received g; s := s g |}.

Definition set_receivedSize (g : GXSerial) (n : Z) : GXSerial :=
  {| Port := Port g; baudRate := baudRate g; dataBits := dataBits g;
     stopBits := stopBits g; parity := parity g; eop := eop g;
     traceLevel := traceLevel g; wg := wg g; stop := stop g;
     synchronous := synchronous g; bytesSent := bytesSent g;
     bytesReceived := bytesReceived g; onState := onState g;
     onReceive := onReceive g; onTrace := onTrace g; onErr := onErr g;
     receivedSize := n; received := received g; s := s g |}.

Definition SetOnReceived (g : GXSerial) (registered : bool) : GXSerial :=
  set_handlers g (onState g) registered (onTrace g) (onErr g).

(** [GetSynchronous] switches the mode on and returns the function that
    switches it off. *)
Definition GetSynchronous (g : GXSerial) : GXSerial * (GXSerial -> GXSerial) :=
  (set_synchronous g true, fun g => set_synchronous g false).

Definition IsSynchronous (g : GXSerial) : bool := synchronous g.

Definition GetBytesReceived (g : GXSerial) : Z := bytesReceived g.

Definition ResetByteCounters (g : GXSerial) : GXSerial :=
  set_bytesReceived (set_bytesSent g 0) 0.

Definition receivef (g : GXSerial) (lock : bool) (data : list byte)
  : list reader_callback :=
  let cb := if lock then onReceive g else onReceive g in
  if cb then [OnReceived data (Port g)] else [].

Definition appendData (g : GXSerial) (data : list byte) : GXSerial :=
  if len data =? 0 then g
  else
    let g := set_received g (Append (received g) data) in
    set_receivedSize g (wrap_int64 (receivedSize g + len data)).

Definition handleData (g : GXSerial) (data : list byte)
  : GXSerial * list reader_callback :=
  let cbs :=
    match ToString (Some (of_bytes data)) with
    | Err err =>
        tracef_reader g true TraceTypesError (msg_RX_failed err)
        ++ map Called (errorf g true err)
    | Ok str => tracef_reader g true TraceTypesReceived (msg_RX str)
    end in
  if synchronous g then (appendData g data, cbs)
  else (g, cbs ++ receivef g true data).

(** The calls [handleData] makes before it routes the data. *)
Definition handleData_traces (g : GXSerial) (data : list byte)
  : list reader_callback :=
  match ToString (Some (of_bytes data)) with
  | Err err =>
      tracef_reader g true TraceTypesError (msg_RX_failed err)
      ++ map Called (errorf g true err)
  | Ok str => tracef_reader g true TraceTypesReceived (msg_RX str)
  end.

(** The reader, on the results of its calls of [g.s.read()].  The third
    component tells whether the goroutine has exited; when the list ends
    it is blocked in the next read. *)
Fixpoint reader (g : GXSerial) (reads : list (result (list byte)))
  : GXSerial * list reader_callback * bool :=
  match reads with
  | [] => (g, [], false)
  | Err err :: _ =>
      let cbs :=
        match stop g with
        | chan_nil => []
        | _ =>
            tracef_reader g false TraceTypesError (msg_connection_failed err)
            ++ map Called (errorf g false err)
        end in
      (reader_exit g, cbs, true)
  | Ok ret :: reads' =>
      let '(g, cbs) :=
        if negb (len ret =? 0) then
          handleData
            (set_bytesReceived g (wrap_uint64 (bytesReceived g + len ret))) ret
        else (g, []) in
      match stop g with
      | chan_closed => (reader_exit g, cbs, true)
      | _ =>
          let '(g', cbs', exited) := reader g reads' in
          (g', cbs ++ cbs', exited)
      end
  end.
End Reader.

(** In [bytes_gxcommon] a byte slice is a value as it is. *)
Definition bytes_values : GxcommonBytes bytes_gxcommon :=
  @Build_GxcommonBytes bytes_gxcommon (fun data : list byte => data).

(** A device that opens and takes its settings, and refuses the flush. *)
Definition flush_fails_kernel : Kernel :=
  {| unix_Open := fun _ => Ok 3;
     IoctlGetTermios := fun _ => Ok termios_zero;
     IoctlSetTermios := fun _ _ => None;
     IoctlSetInt_TCFLSH := fun _ => Some (ErrErrno 25);
     os_Pipe := Ok (4, 5);
     file_Close := fun _ => None;
     file_Write := fun _ data => (len data, None) |}.

(** *** Reading the stop bits back on Linux *)

(** The error of [getStopBits]: "getStopBits failed. %w". *)
Inductive getStopBits_error : Type :=
| ErrGetStopBits (e : error).

Definition getStopBits {K : Kernel} (p : port) : Z * option getStopBits_error :=
  match getTermios p with
  | Err err => (0, Some (ErrGetStopBits err))
  | Ok t =>
      if negb (Z.land (Cflag t) unix.CSTOPB =? 0) then (1, None)
      else (0, None)
  end.

(** *** The stop bits of the Darwin port (darwinHandler.go)

    The port, [ensureOpen], [getTermios] and [setTermios] of the Darwin
    file read as those of the Linux file, with the requests TIOCGETA
    and TIOCSETA in the place of TCGETS and TCSETS; [Kernel] stands for
    the Darwin system calls here.  The stop-bit functions differ. *)
Module darwin.

(** golang.org/x/sys/unix on Darwin. *)
Definition CSTOPB : Z := 0x400.

Inductive stopBits_error : Type :=
| ErrSetStopBitsFailed (e : error)   (* "setStopBits failed. %w" *)
| ErrSetStopBitsInvalid (value : Z)  (* "setStopBits failed. invalid value: %d (use StopBitsOne or StopBitsTwo)" *)
| ErrGetStopBitsFailed (e : error)   (* "getStopBits failed. %w" *)
| ErrSetTermios (e : error).         (* the error of setTermios, as it is *)

Definition returned (e : option error) : option stopBits_error :=
  match e with
  | Some err => Some (ErrSetTermios err)
  | None => None
  end.

Section DarwinPort.
Context {X : Gxcommon} {K : Kernel}.

Definition getStopBits (p : port) : Z * option stopBits_error :=
  match getTermios p with
  | Err err => (0, Some (ErrGetStopBitsFailed err))
  | Ok t =>
      if negb (Z.land (Cflag t) CSTOPB =? 0) then (2, None)
      else (1, None)
  end.

Definition setStopBits (p : port) (v : Z) : option stopBits_error :=
  match getTermios p with
  | Err err => Some (ErrSetStopBitsFailed err)
  | Ok t =>
      let c := clear_bits (Cflag t) CSTOPB in
      if v =? StopBitsTwo then
        returned (setTermios p (with_Cflag t (set_bits c CSTOPB)))
      else if negb (v =? StopBitsOne) then Some (ErrSetStopBitsInvalid v)
      else returned (setTermios p (with_Cflag t c))
  end.
End DarwinPort.
End darwin.

(** *** The settings of the Windows port (windowsHandler.go) *)
Module windows.

(** [windows.DCB], the fields the package touches.  [Flags] and
    [BaudRate] are uint32, the other fields are bytes. *)
Record DCB : Type := {
  BaudRate : Z;
  Flags : Z;
  ByteSize : Z;
  Parity : Z;
  StopBits : Z;
  XonChar : Z;
  XoffChar : Z
}.

(** [windows.InvalidHandle], [^Handle(0)] on a 64-bit system. *)
Definition InvalidHandle : Z := 2 ^ 64 - 1.

Record port : Type := {
  h : Z;
  ovRead_HEvent : Z;
  ovWrite_HEvent : Z;
  closing : Z
}.

Inductive error : Type :=
| ErrPortNotOpen                 (* "serial port is not open" *)
| ErrGetCommState (errno : Z)    (* "GetCommState failed: %w" *)
| ErrSetCommState (errno : Z)    (* "SetCommState failed: %w" *)
| ErrInvalidArgument.            (* gxcommon.ErrInvalidArgument *)

(** The two system calls of the settings, as the results they give. *)
Class Kernel32 : Type := {
  GetCommState : Z -> DCB + Z;
  SetCommState : Z -> DCB -> option Z
}.

Definition dcbFBinary : Z := Z.shiftl 1 0.
Definition dcbFParity : Z := Z.shiftl 1 1.
Definition dcbFErrorChar : Z := Z.shiftl 1 10.
Definition dcbFNull : Z := Z.shiftl 1 11.
Definition dcbFAbortOnError : Z := Z.shiftl 1 14.
Definition dcbFDtrControlMask : Z := Z.shiftl 0x3 4.
Definition dcbFRtsControlMask : Z := Z.shiftl 0x3 12.

Definition xon : Z := 0x11.
Definition xoff : Z := 0x13.

Definition rtsControlDisable : Z := 0.
Definition dtrControlDisable : Z := 0.

(** [byte(x)] and [uint32(x)] of an int. *)
Definition to_byte (x : Z) : Z := x mod 2 ^ 8.
Definition to_uint32 (x : Z) : Z := x mod 2 ^ 32.

Definition with_Flags (d : DCB) (v : Z) : DCB :=
  {| BaudRate := BaudRate d; Flags := v; ByteSize := ByteSize d;
     Parity := Parity d; StopBits := StopBits d; XonChar := XonChar d;
     XoffChar := XoffChar d |}.

Definition with_BaudRate (d : DCB) (v : Z) : DCB :=
  {| BaudRate := v; Flags := Flags d; ByteSize := ByteSize d;
     Parity := Parity d; StopBits := StopBits d; XonChar := XonChar d;
     XoffChar := XoffChar d |}.

Definition with_ByteSize (d : DCB) (v : Z) : DCB :=
  {| BaudRate := BaudRate d; Flags := Flags d; ByteSize := v;
     Parity := Parity d; StopBits := StopBits d; XonChar := XonChar d;
     XoffChar := XoffChar d |}.

Definition with_Parity (d : DCB) (v : Z) : DCB :=
  {| BaudRate := BaudRate d; Flags := Flags d; ByteSize := ByteSize d;
     Parity := v; StopBits := StopBits d; XonChar := XonChar d;
     XoffChar := XoffChar d |}.

Definition with_StopBits (d : DCB) (v : Z) : DCB :=
  {| BaudRate := BaudRate d; Flags := Flags d; ByteSize := ByteSize d;
     Parity := Parity d; StopBits := v; XonChar := XonChar d;
     XoffChar := XoffChar d |}.

Definition with_XonXoff (d : DCB) (von voff : Z) : DCB :=
  {| BaudRate := BaudRate d; Flags := Flags d; ByteSize := ByteSize d;
     Parity := Parity d; StopBits := StopBits d; XonChar := von;
     XoffChar := voff |}.

(** The body the five one-bit helpers share. *)
Definition set_flag (d : DCB) (mask : Z) (on : bool) : DCB :=
  with_Flags d (if on then set_bits (Flags d) mask
                else clear_bits (Flags d) mask).

Definition setBinary (d : DCB) (on : bool) : DCB := set_flag d dcbFBinary on.
Definition setParityCheck (d : DCB) (on : bool) : DCB := set_flag d dcbFParity on.
Definition setNull (d : DCB) (on : bool) : DCB := set_flag d dcbFNull on.
Definition setErrorChar (d : DCB) (on : bool) : DCB := set_flag d dcbFErrorChar on.
Definition setAbortOnError (d : DCB) (on : bool) : DCB :=
  set_flag d dcbFAbortOnError on.

Definition setRtsControl (d : DCB) (val : Z) : DCB :=
  with_Flags d (set_bits (clear_bits (Flags d) dcbFRtsControlMask)
                         (Z.shiftl (Z.land val 0x3) 12)).

Definition setDtrControl (d : DCB) (val : Z) : DCB :=
  with_Flags d (set_bits (clear_bits (Flags d) dcbFDtrControlMask)
                         (Z.shiftl (Z.land val 0x3) 4)).

Definition isOpen (p : port) : bool :=
  negb (h p =? 0) && negb (h p =? InvalidHandle).

Section WindowsPort.
Context {X : Gxcommon} {K : Kernel32}.

Definition getCommState (p : port) : DCB + error :=
  if negb (isOpen p) then inr ErrPortNotOpen
  else match GetCommState (h p) with
       | inr err => inr (ErrGetCommState err)
       | inl d => inl d
       end.

Definition setCommState (p : port) (d : DCB) : option error :=
  if negb (isOpen p) then Some ErrPortNotOpen
  else match SetCommState (h p) d with
       | Some err => Some (ErrSetCommState err)
       | None => None
       end.

(** [updateSettings] reads the four line settings of [cfg]. *)
Definition updateSettings (p : port) (cfg : GXSerial) : option error :=
  match getCommState p with
  | inr err => Some err
  | inl d =>
      let d := with_BaudRate d (to_uint32 (baudRate cfg)) in
      let d := with_ByteSize d (to_byte (dataBits cfg)) in
      let d := with_Parity d (to_byte (parity cfg)) in
      let after_stopBits :=
        if stopBits cfg =? StopBitsOne then Some (with_StopBits d 0)
        else if stopBits cfg =? StopBitsTwo then Some (with_StopBits d 2)
        else None in
      match after_stopBits with
      | None => Some ErrInvalidArgument
      | Some d =>
          let d := setParityCheck d (negb (Parity d =? 0)) in
          let d := setBinary d true in
          let d := setNull d false in
          let d := setErrorChar d false in
          let d := setAbortOnError d false in
          let d := with_XonXoff d xon xoff in
          let d := setRtsControl d rtsControlDisable in
          let d := setDtrControl d dtrControlDisable in
          setCommState p d
      end
  end.

Definition setBaudRate (p : port) (v : Z) : option error :=
  match getCommState p with
  | inr err => Some err
  | inl d => setCommState p (with_BaudRate d (to_uint32 v))
  end.

Definition setDataBits (p : port) (v : Z) : option error :=
  match getCommState p with
  | inr err => Some err
  | inl d => setCommState p (with_ByteSize d (to_byte v))
  end.

Definition setStopBits (p : port) (v : Z) : option error :=
  match getCommState p with
  | inr err => Some err
  | inl d =>
      if v =? StopBitsOne then setCommState p (with_StopBits d 0)
      else if v =? StopBitsTwo then setCommState p (with_StopBits d 2)
      else Some ErrInvalidArgument
  end.

Definition setParity (p : port) (v : Z) : option error :=
  match getCommState p with
  | inr err => Some err
  | inl d => setCommState p (with_Parity d (to_byte v))
  end.
End WindowsPort.

(** The flag bits [updateSettings] decides. *)
Definition settings_flags : Z :=
  Z.lor (Z.lor (Z.lor (Z.lor (Z.lor (Z.lor dcbFBinary dcbFParity)
    dcbFNull) dcbFErrorChar) dcbFAbortOnError) dcbFRtsControlMask)
    dcbFDtrControlMask.

(** Two DCBs that differ at most in the fields a setter may write. *)
Definition same_flags_and_chars (d d' : DCB) : Prop :=
  Flags d' = Flags d /\ XonChar d' = XonChar d /\ XoffChar d' = XoffChar d.

Definition dcb_zero : DCB :=
  {| BaudRate := 0; Flags := 0; ByteSize := 0; Parity := 0; StopBits := 0;
     XonChar := 0; XoffChar := 0 |}.

(** A device that answers every call. *)
Definition good_kernel32 : Kernel32 :=
  {| GetCommState := fun _ => inl dcb_zero;
     SetCommState := fun _ _ => None |}.
End windows.

(* ================================================================== *)
(** * Part II: properties                                              *)
(* ================================================================== *)

(** ** The equations of [Search]

    [Search] and [Search_passes] are the two components of one run of
    the loop; these are the equations each of them satisfies. *)

Lemma Search_select_nil (p : list byte) (minLen maxWait ls : Z) (ch : nat)
    (b : synchronousMediaBase) :
  Search_select p minLen maxWait ls ch b [] = (-1, b).
Proof. reflexivity. Qed.

Lemma Search_select_cons (p : list byte) (minLen maxWait ls : Z) (ch : nat)
    (b : synchronousMediaBase) (a : arrival) (env : list arrival) :
  Search_select p minLen maxWait ls ch b (a :: env)
  = if maxWait <=? at_ns a then (-1, b)
    else if Nat.eqb (wait (Append b (chunk a))) ch then
      Search_select p minLen maxWait ls ch (Append b (chunk a)) env
    else
      match Search_pass p minLen maxWait ls (Append b (chunk a)) with
      | Return z => (z, Append b (chunk a))
      | Select ch' ls' =>
          Search_select p minLen maxWait ls' ch' (Append b (chunk a)) env
      end.
Proof.
  unfold Search_select. cbn [Search_loop].
  destruct (maxWait <=? at_ns a); [reflexivity|].
  destruct (Nat.eqb (wait (Append b (chunk a))) ch); [reflexivity|].
  destruct (Search_pass p minLen maxWait ls (Append b (chunk a)))
    as [z|ch' ls']; [reflexivity|].
  destruct (Search_loop p minLen maxWait ls' ch' (Append b (chunk a)) env);
    reflexivity.
Qed.

Lemma passes_select_nil (p : list byte) (minLen maxWait ls : Z) (ch : nat)
    (b : synchronousMediaBase) :
  passes_select p minLen maxWait ls ch b [] = [].
Proof. reflexivity. Qed.

Lemma passes_select_cons (p : list byte) (minLen maxWait ls : Z) (ch : nat)
    (b : synchronousMediaBase) (a : arrival) (env : list arrival) :
  passes_select p minLen maxWait ls ch b (a :: env)
  = if maxWait <=? at_ns a then []
    else if Nat.eqb (wait (Append b (chunk a))) ch then
      passes_select p minLen maxWait ls ch (Append b (chunk a)) env
    else
      (ls, Append b (chunk a)) ::
      match Search_pass p minLen maxWait ls (Append b (chunk a)) with
      | Return _ => []
      | Select ch' ls' =>
          passes_select p minLen maxWait ls' ch' (Append b (chunk a)) env
      end.
Proof.
  unfold passes_select. cbn [Search_loop].
  destruct (maxWait <=? at_ns a); [reflexivity|].
  destruct (Nat.eqb (wait (Append b (chunk a))) ch); [reflexivity|].
  destruct (Search_pass p minLen maxWait ls (Append b (chunk a)))
    as [z|ch' ls']; [reflexivity|].
  destruct (Search_loop p minLen maxWait ls' ch' (Append b (chunk a)) env);
    reflexivity.
Qed.

Lemma Search_eq (p : list byte) (minLen maxWait : Z)
    (b : synchronousMediaBase) (env : list arrival) :
  Search p minLen maxWait b env
  = match Search_pass p (if minLen <? 0 then 0 else minLen) maxWait 0 b with
    | Return z => (z, b)
    | Select ch ls =>
        Search_select p (if minLen <? 0 then 0 else minLen) maxWait ls ch b env
    end.
Proof.
  unfold Search, Search_scans, Search_select. cbv zeta.
  destruct (Search_pass p (if minLen <? 0 then 0 else minLen) maxWait 0 b)
    as [z|ch ls]; [reflexivity|].
  destruct (Search_loop p (if minLen <? 0 then 0 else minLen) maxWait ls ch b env);
    reflexivity.
Qed.

Lemma Search_passes_eq (p : list byte) (minLen maxWait : Z)
    (b : synchronousMediaBase) (env : list arrival) :
  Search_passes p minLen maxWait b env
  = (0, b) ::
    match Search_pass p (if minLen <? 0 then 0 else minLen) maxWait 0 b with
    | Return _ => []
    | Select ch ls =>
        passes_select p (if minLen <? 0 then 0 else minLen) maxWait ls ch b env
    end.
Proof.
  unfold Search_passes, Search_scans, passes_select. cbv zeta.
  destruct (Search_pass p (if minLen <? 0 then 0 else minLen) maxWait 0 b)
    as [z|ch ls]; [reflexivity|].
  destruct (Search_loop p (if minLen <? 0 then 0 else minLen) maxWait ls ch b env);
    reflexivity.
Qed.

Ltac Search_equations :=
  rewrite ?Search_select_nil, ?Search_select_cons,
          ?passes_select_nil, ?passes_select_cons.

(** ** Facts about [len], [HasPrefix] and [Index] *)

Lemma len_nonneg {A : Type} (s : list A) : 0 <= len s.
Proof. unfold len; lia. Qed.

Lemma len_app {A : Type} (s t : list A) : len (s ++ t) = len s + len t.
Proof. unfold len; rewrite length_app; lia. Qed.

Lemma len_nil_iff {A : Type} (s : list A) : len s = 0 <-> s = [].
Proof.
  unfold len; destruct s; simpl; split; intros H;
    try reflexivity; try discriminate; lia.
Qed.

Lemma HasPrefix_nil (s : list byte) : HasPrefix s [] = true.
Proof. destruct s; reflexivity. Qed.

Lemma HasPrefix_iff (s p : list byte) :
  HasPrefix s p = true <-> exists t, s = p ++ t.
Proof.
  revert s; induction p as [|x p IH]; intros s.
  - rewrite HasPrefix_nil; split; [exists s; reflexivity | reflexivity].
  - destruct s as [|c s]; simpl.
    + split; [discriminate | intros [t Ht]; discriminate].
    + rewrite andb_true_iff, IH; split.
      * intros [Hc [t ->]]; apply byte_dec_bl in Hc; subst; eauto.
      * intros [t Ht]; injection Ht as -> ->; split; [apply byte_dec_lb|]; eauto.
Qed.

Lemma HasPrefix_short (s p : list byte) :
  len s < len p -> HasPrefix s p = false.
Proof.
  intros Hlt; destruct (HasPrefix s p) eqn:E; [|reflexivity].
  apply HasPrefix_iff in E as [t ->]; rewrite len_app in Hlt.
  pose proof (len_nonneg t); lia.
Qed.

(** A prefix test that fits inside [s] does not see what follows [s]. *)
Lemma HasPrefix_app (s t p : list byte) :
  len p <= len s -> HasPrefix (s ++ t) p = HasPrefix s p.
Proof.
  revert s; induction p as [|x p IH]; intros s Hle.
  - now rewrite !HasPrefix_nil.
  - destruct s as [|c s]; [unfold len in Hle; simpl in Hle; lia|].
    simpl; rewrite IH; [reflexivity|].
    unfold len in *; simpl in Hle; lia.
Qed.

Lemma Index_lower (s p : list byte) : -1 <= Index s p.
Proof.
  induction s as [|c s IH]; cbn [Index].
  - destruct (HasPrefix [] p); lia.
  - destruct (HasPrefix (c :: s) p); [lia|].
    destruct (Index s p <? 0) eqn:E; [lia|apply Z.ltb_ge in E; lia].
Qed.

Lemma Index_neg (s p : list byte) : Index s p < 0 -> Index s p = -1.
Proof. pose proof (Index_lower s p); lia. Qed.

Lemma Index_nil_pattern (s : list byte) : Index s [] = 0.
Proof. destruct s; reflexivity. Qed.

Lemma Index_skipn (p : list byte) (k : nat) : forall u : list byte,
  (k <= List.length u)%nat ->
  (forall j, (j < k)%nat -> HasPrefix (skipn j u) p = false) ->
  Index u p = shift k (Index (skipn k u) p).
Proof.
  induction k as [|k IH]; intros u Hk Hno.
  - simpl; unfold shift.
    destruct (Index u p <? 0) eqn:E; [apply Z.ltb_lt, Index_neg in E|]; lia.
  - destruct u as [|c u]; [simpl in Hk; lia|].
    pose proof (Hno 0%nat ltac:(lia)) as H0; simpl skipn in H0.
    cbn [Index skipn]; rewrite H0.
    rewrite (IH u); [|simpl in Hk; lia|intros j Hj; apply (Hno (S j)); lia].
    unfold shift; destruct (Index (skipn k u) p <? 0) eqn:E; [reflexivity|].
    apply Z.ltb_ge in E.
    destruct (Z.of_nat k + Index (skipn k u) p <? 0) eqn:E'; [apply Z.ltb_lt in E'|]; lia.
Qed.

(** [Index] finds an occurrence, and it is the first one. *)
Lemma Index_found (p : list byte) : forall s : list byte,
  0 <= Index s p ->
  HasPrefix (skipn (Z.to_nat (Index s p)) s) p = true.
Proof.
  intros s; induction s as [|c s IH]; cbn [Index]; intros H.
  - destruct (HasPrefix [] p) eqn:E; [exact E|lia].
  - destruct (HasPrefix (c :: s) p) eqn:E; [exact E|].
    destruct (Index s p <? 0) eqn:E'; [lia|]. apply Z.ltb_ge in E'.
    replace (Z.to_nat (1 + Index s p)) with (S (Z.to_nat (Index s p))) by lia.
    simpl; auto.
Qed.

Lemma Index_absent (p : list byte) : forall (s : list byte) (j : nat),
  Index s p = -1 -> HasPrefix (skipn j s) p = false.
Proof.
  intros s; induction s as [|c s IH]; cbn [Index]; intros j H.
  - rewrite skipn_nil. destruct (HasPrefix [] p); [discriminate|reflexivity].
  - destruct (HasPrefix (c :: s) p) eqn:E; [discriminate|].
    destruct j as [|j]; [exact E|]; simpl.
    apply IH. destruct (Index s p <? 0) eqn:E'.
    + apply Z.ltb_lt, Index_neg in E'; exact E'.
    + apply Z.ltb_ge in E'; lia.
Qed.

Lemma Index_first (p : list byte) : forall (s : list byte) (j : nat),
  (Z.of_nat j < Index s p) -> HasPrefix (skipn j s) p = false.
Proof.
  intros s; induction s as [|c s IH]; cbn [Index]; intros j H.
  - destruct (HasPrefix [] p); lia.
  - destruct (HasPrefix (c :: s) p) eqn:E; [lia|].
    destruct (Index s p <? 0) eqn:E'; [lia|].
    destruct j as [|j]; [exact E|]; simpl; apply IH; lia.
Qed.

Lemma Index_le_len (p s : list byte) : Index s p <= len s.
Proof.
  induction s as [|c s IH]; cbn [Index].
  - destruct (HasPrefix [] p); unfold len; simpl; lia.
  - destruct (HasPrefix (c :: s) p); [apply len_nonneg|].
    destruct (Index s p <? 0); unfold len in *; simpl List.length; lia.
Qed.

Lemma Index_upper (p s : list byte) :
  0 <= Index s p -> Index s p + len p <= len s.
Proof.
  intros H; pose proof (Index_found p s H) as Hf.
  pose proof (Index_le_len p s) as Hle.
  apply HasPrefix_iff in Hf as [t Ht].
  assert (Hl : len (skipn (Z.to_nat (Index s p)) s) = len p + len t)
    by (rewrite Ht; apply len_app).
  unfold len in *; rewrite length_skipn in Hl; lia.
Qed.

(** The first occurrence, characterised. *)
Lemma Index_unique (p s : list byte) (i : nat) :
  HasPrefix (skipn i s) p = true ->
  (forall j, (j < i)%nat -> HasPrefix (skipn j s) p = false) ->
  Index s p = Z.of_nat i.
Proof.
  intros Hi Hno.
  destruct (Z_lt_le_dec (Index s p) 0) as [Hn|Hp].
  - apply Index_neg in Hn. rewrite (Index_absent p s i Hn) in Hi; discriminate.
  - destruct (Z.lt_trichotomy (Index s p) (Z.of_nat i)) as [Hlt|[Heq|Hgt]]; [|exact Heq|].
    + pose proof (Index_found p s Hp) as Hf.
      rewrite (Hno (Z.to_nat (Index s p))) in Hf; [discriminate|lia].
    + rewrite (Index_first p s i Hgt) in Hi; discriminate.
Qed.

(** ** The cursor invariant *)

Lemma overlap_of_nonneg (p : list byte) : 0 <= overlap_of p.
Proof. unfold overlap_of; destruct (len p - 1 <? 0) eqn:E; [|apply Z.ltb_ge in E]; lia. Qed.

Lemma overlap_of_cons (p : list byte) : p <> [] -> overlap_of p = len p - 1.
Proof.
  intros Hp; unfold overlap_of.
  destruct (len p - 1 <? 0) eqn:E; [|reflexivity].
  apply Z.ltb_lt in E. pose proof (len_nonneg p).
  assert (len p = 0) by lia. apply len_nil_iff in H0; contradiction.
Qed.

Lemma cursor_ok_0 (p s : list byte) : cursor_ok p 0 s.
Proof. split; [lia|intros j t Hj; lia]. Qed.

Lemma cursor_ok_app (p : list byte) (ls : Z) (s c : list byte) :
  cursor_ok p ls s -> cursor_ok p ls (s ++ c).
Proof.
  intros [Hr Hno]; split.
  - rewrite len_app; pose proof (len_nonneg c); lia.
  - intros j t Hj; rewrite <- app_assoc; apply Hno, Hj.
Qed.

Lemma cursor_ok_le_len (p : list byte) (ls : Z) (s : list byte) :
  cursor_ok p ls s -> 0 <= ls <= len s.
Proof.
  intros [Hr _]; pose proof (overlap_of_nonneg p); pose proof (len_nonneg s); lia.
Qed.

(** After a pass that found nothing the cursor may move to
    [len(b.buf) - overlap]: an occurrence that starts earlier would lie
    inside the bytes just scanned. *)
Lemma cursor_ok_next (p s : list byte) :
  p <> [] -> Index s p = -1 ->
  cursor_ok p (if len s - overlap_of p <? 0 then 0 else len s - overlap_of p) s.
Proof.
  intros Hp Hidx; pose proof (overlap_of_cons p Hp) as Ho.
  destruct (len s - overlap_of p <? 0) eqn:E; [apply cursor_ok_0|].
  apply Z.ltb_ge in E; split; [lia|].
  intros j t Hj.
  rewrite skipn_app.
  replace (j - List.length s)%nat with 0%nat by (unfold len in *; lia).
  simpl skipn. rewrite HasPrefix_app.
  - apply Index_absent, Hidx.
  - unfold len in *; rewrite length_skipn; lia.
Qed.

Lemma cursor_ok_Index (p : list byte) (ls : Z) (s : list byte) :
  cursor_ok p ls s ->
  Index s p = shift (Z.to_nat ls) (Index (skipn (Z.to_nat ls) s) p).
Proof.
  intros H; pose proof (cursor_ok_le_len _ _ _ H) as Hr; destruct H as [_ Hno].
  apply Index_skipn.
  - unfold len in Hr; lia.
  - intros j Hj. specialize (Hno j [] ltac:(lia)).
    now rewrite app_nil_r in Hno.
Qed.

Lemma satisfied_nil_pattern (minLen : Z) (s : list byte) :
  satisfied [] minLen s = (minLen <=? len s).
Proof. unfold satisfied; rewrite Index_nil_pattern; simpl; apply andb_true_r. Qed.

(** One pass, in terms of the whole buffer. *)
Lemma Search_pass_spec (p : list byte) (minLen maxWait ls : Z)
    (b : synchronousMediaBase) :
  cursor_ok p ls (buf b) ->
  exists ls', cursor_ok p ls' (buf b) /\ ls <= ls' /\
    Search_pass p minLen maxWait ls b =
      if satisfied p minLen (buf b) then Return (Index (buf b) p + len p)
      else if maxWait <=? 0 then Return (-1)
      else Select (wait b) ls'.
Proof.
  intros Hc. pose proof (cursor_ok_le_len _ _ _ Hc) as Hr.
  unfold Search_pass. destruct (len p =? 0) eqn:Ep.
  - apply Z.eqb_eq, len_nil_iff in Ep; subst p.
    exists ls; split; [exact Hc|split; [lia|]].
    rewrite satisfied_nil_pattern.
    replace (len (buf b) >=? minLen) with (minLen <=? len (buf b))
      by (rewrite Z.geb_leb; reflexivity).
    rewrite Index_nil_pattern.
    destruct (minLen <=? len (buf b)); reflexivity.
  - assert (Hp : p <> []) by (intros ->; discriminate Ep).
    replace (ls <? 0) with false by (symmetry; apply Z.ltb_ge; lia).
    replace (ls >? len (buf b)) with false
      by (symmetry; rewrite Z.gtb_ltb; apply Z.ltb_ge; lia).
    unfold satisfied. destruct (len (buf b) <? minLen) eqn:Em.
    + apply Z.ltb_lt in Em.
      replace (minLen <=? len (buf b)) with false by (symmetry; apply Z.leb_gt; lia).
      exists ls; split; [exact Hc|split; [lia|reflexivity]].
    + apply Z.ltb_ge in Em.
      replace (minLen <=? len (buf b)) with true by (symmetry; apply Z.leb_le; lia).
      rewrite (cursor_ok_Index p ls (buf b) Hc).
      set (i := Index (skipn (Z.to_nat ls) (buf b)) p).
      pose proof (cursor_ok_Index p ls (buf b) Hc) as Hi; fold i in Hi.
      unfold shift in *. rewrite Z.geb_leb.
      destruct (i <? 0) eqn:Ei.
      * apply Z.ltb_lt in Ei.
        replace (0 <=? i) with false by (symmetry; apply Z.leb_gt; lia).
        simpl. eexists; split; [apply cursor_ok_next; [exact Hp|exact Hi]|].
        split; [|reflexivity].
        destruct Hc as [Hb _].
        destruct (len (buf b) - overlap_of p <? 0) eqn:E;
          [apply Z.ltb_lt in E|apply Z.ltb_ge in E]; lia.
      * apply Z.ltb_ge in Ei.
        replace (0 <=? i) with true by (symmetry; apply Z.leb_le; lia).
        replace (0 <=? Z.of_nat (Z.to_nat ls) + i) with true
          by (symmetry; apply Z.leb_le; lia).
        simpl. exists ls; split; [exact Hc|split; [lia|]].
        f_equal; lia.
Qed.

Lemma Append_nil (b : synchronousMediaBase) : Append b [] = b.
Proof. reflexivity. Qed.

Lemma Append_buf (b : synchronousMediaBase) (c : list byte) :
  buf (Append b c) = buf b ++ c.
Proof.
  unfold Append; destruct (len c =? 0) eqn:E; [|reflexivity].
  apply Z.eqb_eq, len_nil_iff in E; subst; now rewrite app_nil_r.
Qed.

Lemma Append_wait (b : synchronousMediaBase) (c : list byte) :
  wait (Append b c) = if len c =? 0 then wait b else S (wait b).
Proof. unfold Append; destruct (len c =? 0); reflexivity. Qed.

(** The suspended call computes what the cursor-free search computes. *)
Lemma Search_select_refines (p : list byte) (minLen maxWait : Z) :
  0 < maxWait ->
  forall (env : list arrival) (ls : Z) (b : synchronousMediaBase),
    cursor_ok p ls (buf b) ->
    satisfied p minLen (buf b) = false ->
    fst (Search_select p minLen maxWait ls (wait b) b env)
    = search_spec_wait p minLen maxWait (buf b) env.
Proof.
  intros Hw; induction env as [|a env IH]; intros ls b Hc Hs; [reflexivity|].
  cbn [search_spec_wait]; Search_equations; cbn [search_spec_wait].
  destruct (maxWait <=? at_ns a); [reflexivity|].
  rewrite Append_wait. destruct (len (chunk a) =? 0) eqn:Ec.
  - apply Z.eqb_eq, len_nil_iff in Ec. rewrite Nat.eqb_refl, Ec, Append_nil, app_nil_r, Hs.
    apply IH; assumption.
  - replace (S (wait b) =? wait b)%nat with false
      by (symmetry; apply Nat.eqb_neq; lia).
    pose proof (cursor_ok_app p ls (buf b) (chunk a) Hc) as Hc'.
    rewrite <- Append_buf in Hc'.
    destruct (Search_pass_spec p minLen maxWait ls _ Hc') as (ls' & Hc'' & _ & ->).
    rewrite Append_buf in *.
    destruct (satisfied p minLen (buf b ++ chunk a)) eqn:Hs'; [reflexivity|].
    replace (maxWait <=? 0) with false by (symmetry; apply Z.leb_gt; lia).
    rewrite <- (Append_buf b (chunk a)).
    apply IH; rewrite Append_buf; assumption.
Qed.

(** The search with its cursor refines the search without one. *)
Lemma Search_refines (p : list byte) (minLen maxWait : Z)
    (b : synchronousMediaBase) (env : list arrival) :
  fst (Search p minLen maxWait b env) = search_spec p minLen maxWait (buf b) env.
Proof.
  rewrite Search_eq; unfold search_spec.
  replace (if minLen <? 0 then 0 else minLen) with (Z.max 0 minLen)
    by (destruct (minLen <? 0) eqn:E; [apply Z.ltb_lt in E|apply Z.ltb_ge in E]; lia).
  destruct (Search_pass_spec p (Z.max 0 minLen) maxWait 0 b (cursor_ok_0 p (buf b)))
    as (ls' & Hc & _ & ->).
  destruct (satisfied p (Z.max 0 minLen) (buf b)) eqn:Hs; [reflexivity|].
  destruct (maxWait <=? 0) eqn:Ew; [reflexivity|].
  apply Search_select_refines; [apply Z.leb_gt in Ew; lia|assumption..].
Qed.

(** ** Occurrences and appends *)


(** The first occurrence stays the first one when the buffer grows. *)
Lemma Index_app_stable (p s t : list byte) :
  0 <= Index s p -> Index (s ++ t) p = Index s p.
Proof.
  intros H.
  pose proof (Index_upper p s H) as Hu. pose proof (len_nonneg p) as Hp.
  transitivity (Z.of_nat (Z.to_nat (Index s p))); [|lia].
  apply Index_unique.
  - rewrite skipn_app.
    replace (Z.to_nat (Index s p) - List.length s)%nat with 0%nat
      by (unfold len in *; lia).
    simpl skipn. rewrite HasPrefix_app; [apply Index_found, H|].
    unfold len in *; rewrite length_skipn; lia.
  - intros j Hj. rewrite skipn_app.
    replace (j - List.length s)%nat with 0%nat by (unfold len in *; lia).
    simpl skipn. rewrite HasPrefix_app; [apply Index_first; lia|].
    unfold len in *; rewrite length_skipn; lia.
Qed.


Lemma appended_cons (a : arrival) (env : list arrival) :
  appended (a :: env) = chunk a ++ appended env.
Proof. reflexivity. Qed.

Lemma appended_app (env1 env2 : list arrival) :
  appended (env1 ++ env2) = appended env1 ++ appended env2.
Proof. unfold appended; now rewrite map_app, concat_app. Qed.



(** ** The passes of one call *)







Lemma last_cons_default {A : Type} (l : list A) : forall x d : A,
  last (x :: l) d = last l x.
Proof.
  induction l as [|y l IH]; intros x d; [reflexivity|].
  change (last (x :: y :: l) d) with (last (y :: l) d).
  rewrite !IH; reflexivity.
Qed.

(** [Search_passes] lists the passes of [Search]: the call returns what
    its last pass returns, or [-1] from the [select] after it. *)
Lemma Search_select_last (p : list byte) (minLen maxWait : Z) :
  forall (env : list arrival) (ls : Z) (ch : nat) (b : synchronousMediaBase)
         (d : Z * synchronousMediaBase),
    Search_pass p minLen maxWait (fst d) (snd d) = Select ch ls ->
    fst (Search_select p minLen maxWait ls ch b env)
    = match Search_pass p minLen maxWait
              (fst (last (passes_select p minLen maxWait ls ch b env) d))
              (snd (last (passes_select p minLen maxWait ls ch b env) d)) with
      | Return z => z
      | Select _ _ => -1
      end.
Proof.
  induction env as [|a env IH]; intros ls ch b d Hd;
    Search_equations.
  - simpl; rewrite Hd; reflexivity.
  - destruct (maxWait <=? at_ns a); [simpl; rewrite Hd; reflexivity|].
    destruct (Nat.eqb (wait (Append b (chunk a))) ch); [apply IH, Hd|].
    destruct (Search_pass p minLen maxWait ls (Append b (chunk a))) as [z|ch' ls'] eqn:E.
    + simpl; rewrite E; reflexivity.
    + rewrite (IH ls' ch' (Append b (chunk a)) (ls, Append b (chunk a)) E).
      now rewrite last_cons_default.
Qed.

Lemma Search_passes_last (p : list byte) (minLen maxWait : Z)
    (b : synchronousMediaBase) (env : list arrival) :
  let m := if minLen <? 0 then 0 else minLen in
  let d := last (Search_passes p minLen maxWait b env) (0, b) in
  fst (Search p minLen maxWait b env)
  = match Search_pass p m maxWait (fst d) (snd d) with
    | Return z => z
    | Select _ _ => -1
    end.
Proof.
  cbv zeta. rewrite Search_eq, Search_passes_eq.
  destruct (Search_pass p (if minLen <? 0 then 0 else minLen) maxWait 0 b)
    as [z|ch ls] eqn:E.
  - simpl; rewrite E; reflexivity.
  - rewrite (Search_select_last p _ maxWait env ls ch b (0, b) E).
    now rewrite last_cons_default.
Qed.


(** ** The empty pattern *)

Lemma Appends_buf (env : list arrival) : forall b : synchronousMediaBase,
  buf (Appends b env) = buf b ++ appended env.
Proof.
  induction env as [|a env IH]; intros b; cbn [Appends fold_left].
  - unfold appended; simpl; now rewrite app_nil_r.
  - fold (Appends (Append b (chunk a)) env).
    rewrite IH, Append_buf, appended_cons, app_assoc; reflexivity.
Qed.

Lemma Appends_cons (b : synchronousMediaBase) (a : arrival) (env : list arrival) :
  Appends b (a :: env) = Appends (Append b (chunk a)) env.
Proof. reflexivity. Qed.

Lemma Search_pass_empty (minLen maxWait ls : Z) (b : synchronousMediaBase) :
  Search_pass [] minLen maxWait ls b =
    if minLen <=? len (buf b) then Return 0
    else if maxWait <=? 0 then Return (-1)
    else Select (wait b) ls.
Proof. unfold Search_pass; cbn [len List.length Z.of_nat Z.eqb]. now rewrite Z.geb_leb. Qed.

(** Enough bytes at the call: offset 0 at once. *)
Lemma Search_empty_enough (N maxWait : Z) (b : synchronousMediaBase)
    (env : list arrival) :
  N <= len (buf b) -> Search [] N maxWait b env = (0, b).
Proof.
  intros Hge. rewrite Search_eq. rewrite Search_pass_empty.
  pose proof (len_nonneg (buf b)).
  replace ((if N <? 0 then 0 else N) <=? len (buf b)) with true; [reflexivity|].
  symmetry; apply Z.leb_le. destruct (N <? 0); lia.
Qed.

Lemma Search_select_empty_found (N maxWait : Z) (a : arrival) (env2 : list arrival) :
  0 < maxWait ->
  forall (env1 : list arrival) (b : synchronousMediaBase) (ls : Z),
    in_time maxWait (env1 ++ [a]) ->
    len (buf b ++ appended env1) < N ->
    N <= len (buf b ++ appended env1 ++ chunk a) ->
    Search_select [] N maxWait ls (wait b) b (env1 ++ a :: env2)
    = (0, Appends b (env1 ++ [a])).
Proof.
  intros Hw; induction env1 as [|a1 env1 IH]; intros b ls Ht Hlt Hge;
    cbn [app]; Search_equations; cbn [app]; apply Forall_cons_iff in Ht as [Ha Ht].
  - replace (maxWait <=? at_ns a) with false by (symmetry; apply Z.leb_gt; lia).
    cbn [appended map List.concat app] in *. rewrite app_nil_r in Hlt.
    rewrite Append_wait. destruct (len (chunk a) =? 0) eqn:Ec.
    + apply Z.eqb_eq in Ec. rewrite len_app in Hge; lia.
    + replace (S (wait b) =? wait b)%nat with false
        by (symmetry; apply Nat.eqb_neq; lia).
      rewrite Search_pass_empty, Append_buf.
      replace (N <=? len (buf b ++ chunk a)) with true
        by (symmetry; apply Z.leb_le; lia).
      reflexivity.
  - replace (maxWait <=? at_ns a1) with false by (symmetry; apply Z.leb_gt; lia).
    rewrite appended_cons in Hlt, Hge.
    assert (Hlt' : len (buf (Append b (chunk a1)) ++ appended env1) < N)
      by (rewrite Append_buf, <- app_assoc; exact Hlt).
    assert (Hge' : N <= len (buf (Append b (chunk a1)) ++ appended env1 ++ chunk a))
      by (rewrite Append_buf, <- !app_assoc; rewrite <- app_assoc in Hge; exact Hge).
    clear Hlt Hge. rewrite Appends_cons.
    rewrite Append_wait. destruct (len (chunk a1) =? 0) eqn:Ec.
    + apply Z.eqb_eq, len_nil_iff in Ec. rewrite Ec in *. rewrite Append_nil in *.
      rewrite Nat.eqb_refl. apply IH; assumption.
    + replace (S (wait b) =? wait b)%nat with false
        by (symmetry; apply Nat.eqb_neq; lia).
      rewrite Search_pass_empty.
      assert (Hshort : len (buf (Append b (chunk a1))) < N).
      { rewrite len_app in Hlt'. pose proof (len_nonneg (appended env1)); lia. }
      replace (N <=? len (buf (Append b (chunk a1)))) with false
        by (symmetry; apply Z.leb_gt; lia).
      replace (maxWait <=? 0) with false by (symmetry; apply Z.leb_gt; lia).
      apply IH; assumption.
Qed.

Lemma Search_select_empty_timeout (N maxWait : Z) :
  0 < maxWait ->
  forall (env : list arrival) (b : synchronousMediaBase) (ls : Z),
    len (buf b ++ appended (arrived maxWait env)) < N ->
    Search_select [] N maxWait ls (wait b) b env
    = (-1, Appends b (arrived maxWait env)) /\
    map snd (passes_select [] N maxWait ls (wait b) b env)
    = wakeups b (arrived maxWait env).
Proof.
  intros Hw; induction env as [|a env IH]; intros b ls Hlt;
    cbn [arrived]; Search_equations; cbn [arrived]; [split; reflexivity|].
  cbn [arrived] in Hlt.
  destruct (maxWait <=? at_ns a) eqn:Ea; [split; reflexivity|].
  rewrite appended_cons, app_assoc in Hlt.
  rewrite <- (Append_buf b (chunk a)) in Hlt.
  rewrite Appends_cons. cbn [wakeups].
  rewrite Append_wait. destruct (len (chunk a) =? 0) eqn:Ec.
  - apply Z.eqb_eq, len_nil_iff in Ec. rewrite Ec in *. rewrite Append_nil in *.
    rewrite Nat.eqb_refl. apply IH; assumption.
  - replace (S (wait b) =? wait b)%nat with false
      by (symmetry; apply Nat.eqb_neq; lia).
    rewrite Search_pass_empty.
    assert (Hshort : len (buf (Append b (chunk a))) < N).
    { rewrite len_app in Hlt. pose proof (len_nonneg (appended (arrived maxWait env))); lia. }
    replace (N <=? len (buf (Append b (chunk a)))) with false
      by (symmetry; apply Z.leb_gt; lia).
    replace (maxWait <=? 0) with false by (symmetry; apply Z.leb_gt; lia).
    cbn [map snd]. destruct (IH (Append b (chunk a)) ls Hlt) as [-> ->].
    split; reflexivity.
Qed.

(** C6. [Search] with the empty pattern and [minLen = N >= 0]:
    - when the buffer already holds [N] bytes it returns offset 0 at
      once, whatever happens afterwards;
    - otherwise, with [maxWait > 0], it returns offset 0 at the first
      append before the deadline that brings the buffer to [N] bytes;
    - and when the appends before the deadline leave the buffer below
      [N] bytes it returns [-1], having looked at the buffer once at the
      call and once each time the wake channel fired. *)
Theorem Search_empty_pattern (N maxWait : Z) (b : synchronousMediaBase) :
  0 <= N ->
  (forall env, N <= len (buf b) -> Search [] N maxWait b env = (0, b)) /\
  (forall env1 a env2,
      0 < maxWait ->
      in_time maxWait (env1 ++ [a]) ->
      len (buf b ++ appended env1) < N ->
      N <= len (buf b ++ appended env1 ++ chunk a) ->
      Search [] N maxWait b (env1 ++ a :: env2) = (0, Appends b (env1 ++ [a]))) /\
  (forall env,
      0 < maxWait ->
      len (buf b ++ appended (arrived maxWait env)) < N ->
      Search [] N maxWait b env = (-1, Appends b (arrived maxWait env)) /\
      map snd (Search_passes [] N maxWait b env)
      = b :: wakeups b (arrived maxWait env)).
Proof.
  intros HN.
  assert (Hclamp : (if N <? 0 then 0 else N) = N)
    by (destruct (N <? 0) eqn:E; [apply Z.ltb_lt in E; lia|reflexivity]).
  split; [|split].
  - intros env Hge. apply Search_empty_enough, Hge.
  - intros env1 a env2 Hw Ht Hlt Hge. rewrite Search_eq.
    rewrite Hclamp, Search_pass_empty.
    assert (len (buf b) < N)
      by (rewrite len_app in Hlt; pose proof (len_nonneg (appended env1)); lia).
    replace (N <=? len (buf b)) with false by (symmetry; apply Z.leb_gt; lia).
    replace (maxWait <=? 0) with false by (symmetry; apply Z.leb_gt; lia).
    apply Search_select_empty_found; assumption.
  - intros env Hw Hlt.
    assert (Hb : len (buf b) < N).
    { rewrite len_app in Hlt.
      pose proof (len_nonneg (appended (arrived maxWait env))); lia. }
    rewrite Search_eq, Search_passes_eq. rewrite Hclamp, Search_pass_empty.
    replace (N <=? len (buf b)) with false by (symmetry; apply Z.leb_gt; lia).
    replace (maxWait <=? 0) with false by (symmetry; apply Z.leb_gt; lia).
    destruct (Search_select_empty_timeout N maxWait Hw env b 0 Hlt) as [-> E].
    split; [reflexivity|]. cbn [map snd]. now rewrite E.
Qed.

(** C7. With [maxWait <= 0] the first pass of [Search] returns: the
    call never reaches [select], so it waits neither on the wake channel
    nor on a timer and what the reader appends later has no effect.  It
    returns [-1] unless the buffer already holds [minLen] bytes and
    contains the pattern, in which case it returns the offset just after
    the first occurrence (0 for the empty pattern). *)
Theorem Search_no_wait (pattern : list byte) (minLen maxWait : Z)
    (b : synchronousMediaBase) (env : list arrival) :
  maxWait <= 0 ->
  let offset := if satisfied pattern (Z.max 0 minLen) (buf b)
                then Index (buf b) pattern + len pattern else -1 in
  Search_pass pattern (if minLen <? 0 then 0 else minLen) maxWait 0 b
    = Return offset /\
  Search pattern minLen maxWait b env = (offset, b) /\
  Search_passes pattern minLen maxWait b env = [(0, b)].
Proof.
  intros Hw offset.
  assert (Hclamp : (if minLen <? 0 then 0 else minLen) = Z.max 0 minLen)
    by (destruct (minLen <? 0) eqn:E; [apply Z.ltb_lt in E|apply Z.ltb_ge in E]; lia).
  assert (Hp : Search_pass pattern (Z.max 0 minLen) maxWait 0 b = Return offset).
  { destruct (Search_pass_spec pattern (Z.max 0 minLen) maxWait 0 b
                (cursor_ok_0 pattern (buf b))) as (ls' & _ & _ & ->).
    unfold offset.
    replace (maxWait <=? 0) with true by (symmetry; apply Z.leb_le; lia).
    destruct (satisfied pattern (Z.max 0 minLen) (buf b)); reflexivity. }
  rewrite Search_eq, Search_passes_eq. rewrite Hclamp, Hp. repeat split.
Qed.

Example Search_split_run :
  Search (bytes_of "abcd") 0 1000
    {| buf := bytes_of "xxab"; wait := 1%nat |}
    [ {| at_ns := 10; chunk := bytes_of "cdyy" |} ]
  = (6, {| buf := bytes_of "xxabcdyy"; wait := 2%nat |}).
Proof. reflexivity. Qed.

(** ** The transport *)

Section TransportFacts.
Context {X : Gxcommon} {K : Kernel}.

Lemma tracef_trace (g : GXSerial) (lock : bool) (traceType : Z) (text : message) :
  tracef g lock traceType text = trace g lock traceType text.
Proof. reflexivity. Qed.

Lemma trace_cases (g : GXSerial) (lock : bool) (traceType : Z) (text : message) :
  trace g lock traceType text =
    if onTrace g && (traceType <=? traceLevel g)
    then [OnTrace traceType text] else [].
Proof.
  unfold trace. rewrite Z.leb_antisym. destruct lock; reflexivity.
Qed.

(** The comparison the code makes.  [trace] and [tracef] call the trace
    handler exactly when one is registered and the numeric value of the
    event's [TraceTypes] is at most the numeric value of the configured
    [TraceLevel]; otherwise they call nothing. *)
Theorem trace_dispatch (g : GXSerial) (lock : bool) (traceType : Z)
    (text : message) :
  (trace g lock traceType text = [OnTrace traceType text]
   <-> onTrace g = true /\ traceType <= traceLevel g) /\
  (trace g lock traceType text = []
   <-> ~ (onTrace g = true /\ traceType <= traceLevel g)) /\
  tracef g lock traceType text = trace g lock traceType text.
Proof.
  split; [|split; [|reflexivity]]; rewrite trace_cases.
  - destruct (onTrace g); cbn [andb].
    + destruct (traceType <=? traceLevel g) eqn:E.
      * apply Z.leb_le in E.
        split; [intros _; split; [reflexivity|exact E]|reflexivity].
      * apply Z.leb_gt in E. split; [discriminate|intros [_ H]; lia].
    + split; [discriminate|intros [H _]; discriminate].
  - destruct (onTrace g); cbn [andb].
    + destruct (traceType <=? traceLevel g) eqn:E.
      * apply Z.leb_le in E.
        split; [discriminate|intros H; exfalso; apply H; split; [reflexivity|exact E]].
      * apply Z.leb_gt in E. split; [intros _ [_ H]; lia|reflexivity].
    + split; [intros _ [H _]; discriminate|reflexivity].
Qed.

(** C5 on the code.  gxcommon numbers the trace levels 0 to 4 (off,
    error, warning, info, verbose) and gives the trace types the flag
    values 1 (sent), 2 (received), 4 (error) and 16 (info).  The filter
    compares a level with a flag as integers.  So, with a handler
    registered: an info event is dispatched at no level; an error event
    is dispatched at level 4 only, not at the levels 1 to 3 that lie
    at or above the error level; and at every level from 1 on the sent
    data, which is no error, is dispatched. *)
Theorem trace_filter_drops_errors (g : GXSerial) (lock : bool)
    (text : message) (level : Z) :
  TraceTypesSent = 1 -> TraceTypesError = 4 -> TraceTypesInfo = 16 ->
  onTrace g = true ->
  0 <= level <= 4 ->
  let g' := snd (SetTrace g level) in
  trace g' lock TraceTypesInfo text = [] /\
  tracef g' lock TraceTypesInfo text = [] /\
  (trace g' lock TraceTypesError text = [OnTrace TraceTypesError text]
   <-> level = 4) /\
  (1 <= level < 4 ->
   trace g' lock TraceTypesError text = [] /\
   tracef g' lock TraceTypesError text = [] /\
   trace g' lock TraceTypesSent text = [OnTrace TraceTypesSent text]).
Proof.
  intros Hsent Herr Hinfo Hcb Hl g'.
  assert (Hc : forall traceType : Z,
             trace g' lock traceType text
             = if traceType <=? level then [OnTrace traceType text] else []).
  { intros traceType. rewrite trace_cases. unfold g', SetTrace.
    cbn [snd onTrace traceLevel set_traceLevel]. rewrite Hcb. reflexivity. }
  change (tracef g' lock TraceTypesInfo text)
    with (trace g' lock TraceTypesInfo text).
  change (tracef g' lock TraceTypesError text)
    with (trace g' lock TraceTypesError text).
  rewrite !Hc, Hsent, Herr, Hinfo.
  split; [|split; [|split]].
  - replace (16 <=? level) with false; [reflexivity|].
    symmetry. apply Z.leb_gt. lia.
  - replace (16 <=? level) with false; [reflexivity|].
    symmetry. apply Z.leb_gt. lia.
  - destruct (4 <=? level) eqn:E;
      [apply Z.leb_le in E|apply Z.leb_gt in E].
    + split; [intros _; lia|reflexivity].
    + split; [discriminate|intros ->; lia].
  - intros Hlev.
    replace (4 <=? level) with false by (symmetry; apply Z.leb_gt; lia).
    replace (1 <=? level) with true by (symmetry; apply Z.leb_le; lia).
    repeat split.
Qed.

(** *** Send *)

(** C10.  Once [ToBytes] has produced [tmp], [Send] leaves the counter
    of sent bytes at its old value plus [len(tmp)] (in [uint64]
    arithmetic), whatever [ToString] and the write return: when
    [ToString] fails [Send] returns that error, when the write fails it
    returns the write's error, and in both cases the counter has
    already advanced. *)
Theorem Send_counts_before_write (g : GXSerial) (data : option value)
    (receiver : string) (tmp : list byte) :
  ToBytes data = Ok tmp ->
  GetBytesSent (snd (fst (Send g data receiver)))
    = wrap_uint64 (GetBytesSent g + len tmp) /\
  (0 <= GetBytesSent g -> GetBytesSent g + len tmp < 2 ^ 64 ->
   GetBytesSent (snd (fst (Send g data receiver))) = GetBytesSent g + len tmp) /\
  (forall err, ToString data = Err err ->
     fst (fst (Send g data receiver)) = Some err) /\
  (forall str n err, ToString data = Ok str ->
     port_write (s g) tmp = (n, Some err) ->
     fst (fst (Send g data receiver)) = Some err).
Proof.
  intros Hb.
  assert (Hc : GetBytesSent (snd (fst (Send g data receiver)))
               = wrap_uint64 (GetBytesSent g + len tmp)).
  { unfold Send; rewrite Hb. destruct (ToString data); [|reflexivity].
    cbn [s set_bytesSent]. destruct (port_write (s g) tmp); reflexivity. }
  split; [exact Hc|split; [|split]].
  - intros H0 H1. rewrite Hc. unfold wrap_uint64.
    pose proof (len_nonneg tmp). apply Z.mod_small; lia.
  - intros err He. unfold Send; rewrite Hb, He; reflexivity.
  - intros str n err Hs Hw. unfold Send; rewrite Hb, Hs.
    cbn [s set_bytesSent]. rewrite Hw; reflexivity.
Qed.

(** *** Receive *)

Lemma set_received_same (g : GXSerial) : set_received g (received g) = g.
Proof. destruct g; reflexivity. Qed.

Lemma set_received_twice (g : GXSerial) (b b' : synchronousMediaBase) :
  set_received (set_received g b) b' = set_received g b'.
Proof. reflexivity. Qed.

(** C8, as the code has it.  A request with no terminator, a byte count
    of zero and no all-data flag is refused with the validation error,
    before the buffer is looked at: transport and request are returned
    as they were. *)
Theorem Receive_validation (g : GXSerial) (args : ReceiveParameters)
    (env : list arrival) :
  EOP args = None -> Count args = 0 -> AllData args = false ->
  Receive g args env = Some (false, Some ErrCountOrEop, g, args).
Proof.
  intros He Hc Ha. unfold Receive. rewrite He, Hc, Ha. reflexivity.
Qed.

Lemma valid_request_guard (args : ReceiveParameters) :
  valid_request args ->
  match EOP args with None => true | Some _ => false end
    && (Count args =? 0) && negb (AllData args) = false.
Proof.
  intros [H|[H|H]].
  - destruct (EOP args); [reflexivity|contradiction].
  - apply Z.eqb_neq in H; rewrite H. now rewrite andb_false_r.
  - rewrite H. now rewrite andb_false_r.
Qed.

(** C9.  For a request that passes the validation and whose terminator
    converts, when the search returns [-1] (no match by the time the
    wait is over) [Receive] returns [matched = false] and the nil
    error.  Nothing is taken from the buffer, which holds what the
    reader appended meanwhile. *)
Theorem Receive_timeout_no_error (g : GXSerial) (args : ReceiveParameters)
    (env : list arrival) (terminator : list byte) :
  valid_request args ->
  ToBytes (EOP args) = Ok terminator ->
  fst (Search terminator (Count args) (waitTime_of args) (received g) env) = -1 ->
  Receive g args env
  = Some (false, None,
          set_received g
            (snd (Search terminator (Count args) (waitTime_of args) (received g) env)),
          args).
Proof.
  intros Hv Ht Hs. unfold Receive. rewrite (valid_request_guard args Hv), Ht.
  fold (waitTime_of args).
  destruct (Search terminator (Count args) (waitTime_of args) (received g) env)
    as [index b].
  cbn [fst snd] in *. subst index. reflexivity.
Qed.

(** What [Get] does with the offsets [Receive] passes to it. *)
Lemma Get_all (b : synchronousMediaBase) :
  Get b (-1) = Some (buf b, {| buf := []; wait := wait b |}).
Proof. reflexivity. Qed.

Lemma Get_zero (b : synchronousMediaBase) :
  buf b <> [] -> Get b 0 = Some ([], b).
Proof.
  intros Hne. unfold Get.
  assert (len (buf b) <> 0) by (intros E; apply len_nil_iff in E; contradiction).
  pose proof (len_nonneg (buf b)).
  replace (0 =? len (buf b)) with false by (symmetry; apply Z.eqb_neq; lia).
  replace (0 <=? len (buf b)) with true by (symmetry; apply Z.leb_le; lia).
  cbn. destruct b; reflexivity.
Qed.

(** A request by byte count alone, on a buffer that already holds the
    [Count] bytes: the search with the empty terminator returns offset 0,
    [Get(0)] takes no byte, the reply is decoded from no bytes and the
    buffer keeps everything. *)
Lemma Receive_count_only (g : GXSerial) (args : ReceiveParameters)
    (env : list arrival) :
  EOP args = None -> ToBytes None = Ok [] ->
  0 < Count args -> AllData args = false ->
  Count args <= len (buf (received g)) ->
  Receive g args env =
    let '(reply, err) := BytesToAny2 [] (ReplyType args) in
    Some (match err with Some _ => false | None => true end, err, g,
          set_Reply args reply).
Proof.
  intros He Hb Hc Ha Hl. unfold Receive.
  rewrite valid_request_guard by (right; left; lia).
  rewrite He, Hb. fold (waitTime_of args).
  rewrite (Search_empty_enough (Count args) (waitTime_of args) (received g) env Hl).
  change (0 =? -1) with false. cbv iota. rewrite Ha.
  rewrite Get_zero.
  - rewrite set_received_twice, set_received_same.
    destruct (BytesToAny2 [] (ReplyType args)) as [reply [err|]]; reflexivity.
  - intros E. rewrite E in Hl. unfold len in Hl; simpl in Hl; lia.
Qed.

(** With the all-data flag a matched [Receive] empties the buffer and
    decodes everything that was in it. *)
Lemma Receive_all_data (g : GXSerial) (args : ReceiveParameters)
    (env : list arrival) (terminator : list byte) :
  AllData args = true ->
  ToBytes (EOP args) = Ok terminator ->
  let found := Search terminator (Count args) (waitTime_of args) (received g) env in
  fst found <> -1 ->
  Receive g args env =
    let '(reply, err) := BytesToAny2 (buf (snd found)) (ReplyType args) in
    Some (match err with Some _ => false | None => true end, err,
          set_received g {| buf := []; wait := wait (snd found) |},
          set_Reply args reply).
Proof.
  intros Ha Ht found Hf. unfold Receive.
  rewrite valid_request_guard by (right; right; exact Ha).
  rewrite Ht. fold (waitTime_of args). fold found.
  destruct found as [index b]. cbn [fst snd] in *.
  apply Z.eqb_neq in Hf; rewrite Hf, Ha, Get_all.
  destruct (BytesToAny2 (buf b) (ReplyType args)) as [reply [err|]]; reflexivity.
Qed.

(** With a terminator (and no all-data flag) a matched [Receive] takes
    the bytes up to the end of the terminator and leaves the rest. *)
Lemma Receive_terminator (g : GXSerial) (args : ReceiveParameters)
    (terminator : list byte) :
  valid_request args ->
  AllData args = false -> terminator <> [] ->
  ToBytes (EOP args) = Ok terminator ->
  Count args <= len (buf (received g)) ->
  0 <= Index (buf (received g)) terminator ->
  let n := Z.to_nat (Index (buf (received g)) terminator + len terminator) in
  Receive g args [] =
    let '(reply, err) :=
      BytesToAny2 (firstn n (buf (received g))) (ReplyType args) in
    Some (match err with Some _ => false | None => true end, err,
          set_received g {| buf := skipn n (buf (received g));
                            wait := wait (received g) |},
          set_Reply args reply).
Proof.
  intros Hv Ha Hne Ht Hc Hi n. unfold Receive.
  rewrite (valid_request_guard args Hv), Ht. fold (waitTime_of args).
  pose proof (Search_refines terminator (Count args) (waitTime_of args)
                (received g) []) as Hr.
  assert (Hsnd : snd (Search terminator (Count args) (waitTime_of args) (received g) [])
                 = received g).
  { rewrite Search_eq.
    destruct (Search_pass terminator _ (waitTime_of args) 0 (received g));
      reflexivity. }
  destruct (Search terminator (Count args) (waitTime_of args) (received g) [])
    as [index b].
  cbn [fst snd] in *. subst b.
  unfold search_spec, satisfied in Hr.
  pose proof (len_nonneg (buf (received g))).
  replace (Z.max 0 (Count args) <=? len (buf (received g))) with true in Hr
    by (symmetry; apply Z.leb_le; lia).
  replace (0 <=? Index (buf (received g)) terminator) with true in Hr
    by (symmetry; apply Z.leb_le; lia).
  cbn [andb] in Hr. subst index.
  pose proof (len_nonneg terminator).
  pose proof (Index_upper terminator (buf (received g)) Hi) as Hu.
  assert (len terminator <> 0) by (intros E; apply len_nil_iff in E; contradiction).
  replace (Index (buf (received g)) terminator + len terminator =? -1) with false
    by (symmetry; apply Z.eqb_neq; lia).
  rewrite Ha. unfold Get.
  replace (Index (buf (received g)) terminator + len terminator =? -1) with false
    by (symmetry; apply Z.eqb_neq; lia).
  fold n. cbn [orb].
  destruct (Index (buf (received g)) terminator + len terminator
            =? len (buf (received g))) eqn:Eall.
  - apply Z.eqb_eq in Eall.
    assert (Hn : n = List.length (buf (received g))) by (unfold n, len in *; lia).
    rewrite Hn, firstn_all, skipn_all.
    destruct (BytesToAny2 (buf (received g)) (ReplyType args)) as [reply [err|]];
      reflexivity.
  - replace (0 <=? Index (buf (received g)) terminator + len terminator) with true
      by (symmetry; apply Z.leb_le; lia).
    replace (Index (buf (received g)) terminator + len terminator
             <=? len (buf (received g))) with true
      by (symmetry; apply Z.leb_le; lia).
    cbn [andb].
    destruct (BytesToAny2 (firstn n (buf (received g))) (ReplyType args))
      as [reply [err|]]; reflexivity.
Qed.
(** *** Close *)

Lemma port_close_closed (p : port) : isOpen (snd (port_close p)) = false.
Proof. unfold port_close, isOpen. destruct (f p) eqn:E; cbn; [reflexivity|now rewrite E]. Qed.

(** The reader changes nothing but the counter of the wait group and,
    when it is stopped with bytes in hand, the counter of received
    bytes. *)
Lemma reader_during_Close_frame (reads : list (result (list byte))) :
  forall g : GXSerial,
    let run := reader_during_Close g reads in
    exists rx : Z,
      fst (fst run)
      = set_bytesReceived
          (set_wg g (if snd run then Nat.pred (wg g) else wg g)) rx.
Proof.
  assert (Hid : forall g : GXSerial,
             g = set_bytesReceived (set_wg g (wg g)) (bytesReceived g))
    by (intros g; destruct g; reflexivity).
  induction reads as [|[ret|err] reads IH]; intros g;
    cbn [reader_during_Close].
  - exists (bytesReceived g). cbn [fst snd]. apply Hid.
  - destruct (negb (len ret =? 0)).
    + eexists. cbn [fst snd]. reflexivity.
    + destruct (stop g); [apply IH|apply IH|].
      exists (bytesReceived g). reflexivity.
  - exists (bytesReceived g). reflexivity.
Qed.

(** [g.wg.Wait()] returns with the counter at zero. *)
Lemma wg_Wait_frame (g : GXSerial) (reads : list (result (list byte))) :
  exists (n : nat) (rx : Z),
    fst (wg_Wait g reads) = set_bytesReceived (set_wg g n) rx /\
    (snd (wg_Wait g reads) = true -> n = 0%nat).
Proof.
  unfold wg_Wait. destruct (wg g) as [|n] eqn:Ew.
  - exists 0%nat, (bytesReceived g). cbn [fst snd]. split; [|reflexivity].
    destruct g; cbn in *; subst; reflexivity.
  - destruct (reader_during_Close_frame reads g) as [rx Hf]. cbv zeta in Hf.
    destruct (reader_during_Close g reads) as [[g1 cbs] exited].
    cbn [fst snd] in *. subst g1. cbn [wg set_wg set_bytesReceived].
    eexists _, rx. split; [reflexivity|].
    destruct exited; cbn [andb]; [|discriminate].
    intros H. apply Nat.eqb_eq in H. exact H.
Qed.

(** The transport [Close] leaves differs from the one it was called on
    in the port, which is closed unless the stop channel is, and in the
    two counters the reader moves. *)
Lemma Close_frame (g : GXSerial) (reads : list (result (list byte))) :
  let closed :=
    match stop g with
    | chan_closed => g
    | _ => set_s g (snd (port_close (s g)))
    end in
  exists (n : nat) (rx : Z),
    snd (fst (Close g reads)) = set_bytesReceived (set_wg closed n) rx /\
    (forall err, fst (fst (Close g reads)) = Returns err ->
                 err = None /\ n = 0%nat).
Proof.
  cbv zeta. unfold Close.
  destruct (stop g) eqn:Es.
  all: match goal with
       | |- context [wg_Wait ?h ?rs] =>
           destruct (wg_Wait_frame h rs) as (n & rx & Hf & Hr);
           destruct (wg_Wait h rs) as [g' returned];
           cbn [fst snd] in *; subst g'; exists n, rx;
           split; [reflexivity|];
           intros err H; destruct returned; [|discriminate];
           injection H as <-; split; [reflexivity|apply Hr; reflexivity]
       end.
Qed.

(** Nothing in [Close] closes the [stop] channel. *)
Lemma Close_stop (g : GXSerial) (reads : list (result (list byte))) :
  stop (snd (fst (Close g reads))) = stop g.
Proof.
  destruct (Close_frame g reads) as (n & rx & H & _); rewrite H;
    destruct (stop g) eqn:E; cbn; assumption.
Qed.

Lemma Close_handlers (g : GXSerial) (reads : list (result (list byte))) :
  onState (snd (fst (Close g reads))) = onState g /\
  onTrace (snd (fst (Close g reads))) = onTrace g /\
  traceLevel (snd (fst (Close g reads))) = traceLevel g /\
  Port (snd (fst (Close g reads))) = Port g.
Proof.
  destruct (Close_frame g reads) as (n & rx & H & _); rewrite H;
    destruct (stop g); cbn; repeat split.
Qed.

(** When [Close] returns, [g.wg.Wait()] has returned: no reader is
    left, and the error is the nil error. *)
Lemma Close_waits_for_reader (g : GXSerial) (reads : list (result (list byte)))
    (err : option error) :
  fst (fst (Close g reads)) = Returns err ->
  err = None /\ wg (snd (fst (Close g reads))) = 0%nat.
Proof.
  intros Hr. destruct (Close_frame g reads) as (n & rx & H & Hn).
  destruct (Hn err Hr) as [-> ->]. split; [reflexivity|].
  rewrite H. reflexivity.
Qed.

(** With no reader to wait for, [Close] returns at once. *)
Lemma Close_returns_nil (g : GXSerial) (reads : list (result (list byte))) :
  wg g = 0%nat -> fst (fst (Close g reads)) = Returns None.
Proof.
  intros Hw. unfold Close.
  destruct (stop g); unfold wg_Wait; cbn [wg set_s]; rewrite Hw; reflexivity.
Qed.

Lemma Close_closes (g : GXSerial) (reads : list (result (list byte))) :
  stop g <> chan_closed -> isOpen (s (snd (fst (Close g reads)))) = false.
Proof.
  intros Hs.
  destruct (Close_frame g reads) as (n & rx & H & _); rewrite H;
    destruct (stop g); try contradiction; cbn; apply port_close_closed.
Qed.

(** The handler calls of [Close] are made before it waits: they do not
    depend on the reader. *)
Lemma Close_calls (g : GXSerial) (reads : list (result (list byte))) :
  snd (Close g reads)
  = match stop g with
    | chan_closed => []
    | _ =>
        (if isOpen (s g) then
           trace g false TraceTypesInfo (msg_closing_connection (Port g))
           ++ statef g false MediaStateClosing
         else [])
        ++ trace g false TraceTypesInfo (msg_connection_closed (Port g))
        ++ statef g false MediaStateClosed
    end.
Proof.
  unfold Close.
  destruct (stop g).
  all: match goal with
       | |- context [wg_Wait ?h ?rs] => destruct (wg_Wait h rs) as [? []]
       end; reflexivity.
Qed.

(** On a transport whose [stop] channel is not closed (the constructor
    makes it and nothing closes it), [Close] always runs the [default]
    branch: every call, the first or a later one, calls the trace
    handler with "connection closed" and the state handler with
    [MediaStateClosed], whatever the reader does. *)
Lemma Close_calls_handlers_again (g : GXSerial)
    (reads reads' : list (result (list byte))) :
  stop g <> chan_closed ->
  snd (Close (snd (fst (Close g reads))) reads')
  = trace g false TraceTypesInfo (msg_connection_closed (Port g))
    ++ statef g false MediaStateClosed.
Proof.
  intros Hs.
  pose proof (Close_stop g reads) as Hstop.
  pose proof (Close_closes g reads Hs) as Hopen.
  destruct (Close_handlers g reads) as (Ho & Ht & Hl & Hp).
  set (g1 := snd (fst (Close g reads))) in *.
  rewrite Close_calls, Hstop.
  destruct (stop g) eqn:E; try contradiction; rewrite Hopen; cbn [app];
    unfold trace, statef; rewrite Ho, Ht, Hl, Hp; reflexivity.
Qed.

(** *** Live reconfiguration *)

Lemma map_index_missing (m : list (Z * Z)) (k : Z) :
  ~ In k (map fst m) -> map_index m k = 0.
Proof.
  induction m as [|[k' v] m IH]; intros Hn; cbn [map_index]; [reflexivity|].
  destruct (k =? k') eqn:E.
  - apply Z.eqb_eq in E; subst. exfalso; apply Hn; left; reflexivity.
  - apply IH. intros Hin; apply Hn; right; exact Hin.
Qed.

Lemma toUnitBaudrate_unsupported (v : Z) :
  v = 0 \/ ~ In v (map fst toUnitBaudrate_table) -> toUnitBaudrate v = 0.
Proof.
  intros [->|Hn]; [reflexivity|]. apply map_index_missing, Hn.
Qed.

Lemma setDataBits_invalid (p : port) (v : Z) :
  ~ (5 <= v <= 8) -> exists err, setDataBits p v = Some err.
Proof.
  intros Hv. unfold setDataBits. destruct (getTermios p) as [t|err]; [|eauto].
  replace (v =? 5) with false by (symmetry; apply Z.eqb_neq; lia).
  replace (v =? 6) with false by (symmetry; apply Z.eqb_neq; lia).
  replace (v =? 7) with false by (symmetry; apply Z.eqb_neq; lia).
  replace (v =? 8) with false by (symmetry; apply Z.eqb_neq; lia).
  eauto.
Qed.

Lemma setBaudRate_unsupported (p : port) (v : Z) :
  toUnitBaudrate v = 0 -> exists err, setBaudRate p v = Some err.
Proof.
  intros Hv. unfold setBaudRate. destruct (getTermios p) as [t|err]; [|eauto].
  rewrite Hv. cbn. eauto.
Qed.

Lemma open_dataBits_invalid (c v : Z) :
  ~ (5 <= v <= 8) -> open_dataBits c v = None.
Proof.
  intros Hv. unfold open_dataBits.
  replace (v =? 5) with false by (symmetry; apply Z.eqb_neq; lia).
  replace (v =? 6) with false by (symmetry; apply Z.eqb_neq; lia).
  replace (v =? 7) with false by (symmetry; apply Z.eqb_neq; lia).
  replace (v =? 8) with false by (symmetry; apply Z.eqb_neq; lia).
  reflexivity.
Qed.

Lemma openPort_invalid_dataBits (cfg : GXSerial) :
  ~ (5 <= dataBits cfg <= 8) -> exists err, fst (openPort cfg) = Some err.
Proof.
  intros Hv. unfold openPort.
  destruct (unix_Open (Port cfg)) as [fd0|err]; [|cbn; eauto].
  destruct (IoctlGetTermios fd0) as [t|err]; [|cbn; eauto].
  cbn [dataBits set_s]. rewrite (open_dataBits_invalid _ _ Hv). cbn; eauto.
Qed.

(** C4, as the code has it.  While the port is open, [SetDataBits]
    returns an error for every value outside 5..8, which are the values
    [openPort] refuses as well, and [SetBaudRate] returns an error for
    every rate that is 0 or missing from the baud table.  While the port
    is closed each of the four setters stores the value and returns the
    nil error without looking at it. *)
Theorem setters_validate_when_open (g : GXSerial) (v : Z) :
  (isOpen (s g) = true ->
   (~ (5 <= v <= 8) -> exists err, fst (SetDataBits g v) = Some err) /\
   (v = 0 \/ ~ In v (map fst toUnitBaudrate_table) ->
    exists err, fst (SetBaudRate g v) = Some err)) /\
  (~ (5 <= v <= 8) ->
   exists err,
     fst (openPort (set_config g (baudRate g) v (stopBits g) (parity g)))
     = Some err) /\
  (isOpen (s g) = false ->
   SetBaudRate g v = (None, set_config g v (dataBits g) (stopBits g) (parity g)) /\
   SetDataBits g v = (None, set_config g (baudRate g) v (stopBits g) (parity g)) /\
   SetStopBits g v = (None, set_config g (baudRate g) (dataBits g) v (parity g)) /\
   SetParity g v = (None, set_config g (baudRate g) (dataBits g) (stopBits g) v)).
Proof.
  split; [|split].
  - intros Ho; split; intros Hv.
    + unfold SetDataBits; cbn [s set_config]; rewrite Ho; cbn [fst].
      apply setDataBits_invalid, Hv.
    + unfold SetBaudRate; cbn [s set_config]; rewrite Ho; cbn [fst].
      apply setBaudRate_unsupported, toUnitBaudrate_unsupported, Hv.
  - intros Hv. apply openPort_invalid_dataBits; exact Hv.
  - intros Hc.
    unfold SetBaudRate, SetDataBits, SetStopBits, SetParity;
      cbn [s set_config]; rewrite Hc; repeat split.
Qed.
End TransportFacts.

(** ** Runs on concrete inputs *)


(** Three bytes are asked for; the third arrives 7 ns into the call. *)
Lemma Search_empty_pattern_witness :
  0 <= 3 /\
  Search [] 3 1000 {| buf := bytes_of "A"; wait := 1%nat |}
    [ {| at_ns := 5; chunk := bytes_of "B" |};
      {| at_ns := 7; chunk := bytes_of "C" |};
      {| at_ns := 9; chunk := bytes_of "D" |} ]
  = (0, {| buf := bytes_of "ABC"; wait := 3%nat |}).
Proof.
  split; [lia|].
  destruct (Search_empty_pattern 3 1000 {| buf := bytes_of "A"; wait := 1%nat |})
    as (_ & H & _); [lia|].
  apply (H [ {| at_ns := 5; chunk := bytes_of "B" |} ]
           {| at_ns := 7; chunk := bytes_of "C" |}
           [ {| at_ns := 9; chunk := bytes_of "D" |} ]).
  - lia.
  - repeat constructor; cbn; lia.
  - cbn; lia.
  - cbn; lia.
Defined.

(** No wait and no match: [-1] at once, the later append is not seen. *)
Lemma Search_no_wait_witness :
  0 <= 0 /\
  Search (bytes_of "cd") 0 0 {| buf := bytes_of "xxab"; wait := 1%nat |}
    [ {| at_ns := 0; chunk := bytes_of "cd" |} ]
  = (-1, {| buf := bytes_of "xxab"; wait := 1%nat |}).
Proof.
  split; [lia|].
  apply (Search_no_wait (bytes_of "cd") 0 0
           {| buf := bytes_of "xxab"; wait := 1%nat |}
           [ {| at_ns := 0; chunk := bytes_of "cd" |} ]).
  lia.
Defined.

(** C2 on the code.  The buffer holds "ABCDE" and the request asks for
    3 bytes, with no terminator and without the all-data flag.
    [Receive] reports a match, but the reply is decoded from no bytes
    and all five bytes are still in the buffer. *)
Theorem Receive_count_takes_nothing :
  Receive serial_ABCDE (receive_args None 3 false 0) []
  = Some (true, None, serial_ABCDE,
          set_Reply (receive_args None 3 false 0) (Some [])) /\
  buf (received serial_ABCDE) = bytes_of "ABCDE".
Proof. split; reflexivity. Qed.

(** C3 on the code.  A transport with a state handler is opened and
    closed.  The reader's read fails once the port is closed, so the
    reader exits and the first [Close] returns; it has called the
    handler with Closing and Closed.  The second [Close], on the
    transport the first one left and with no reader running, returns
    the nil error and calls the handler with Closed again. *)
Theorem Close_twice_calls_state_handler :
  let g1 := snd (fst (Open (K := good_kernel) serial0)) in
  let first := Close (K := good_kernel) g1 [Err ErrNotOpen] in
  let second := Close (K := good_kernel) (snd (fst first)) [] in
  isOpen (s g1) = true /\
  fst (fst first) = Returns None /\
  snd first = [OnMediaStateChange MediaStateClosing;
               OnMediaStateChange MediaStateClosed] /\
  isOpen (s (snd (fst first))) = false /\
  fst (fst second) = Returns None /\
  snd second = [OnMediaStateChange MediaStateClosed].
Proof. repeat split. Qed.

(** C4 as stated fails: on a closed port [SetDataBits(9)] stores 9 and
    returns the nil error. *)
Lemma SetDataBits_closed_accepts_9 :
  ~ (5 <= 9 <= 8) /\
  isOpen (s serial0) = false /\
  fst (SetDataBits (K := good_kernel) serial0 9) = None /\
  dataBits (snd (SetDataBits (K := good_kernel) serial0 9)) = 9.
Proof. split; [lia|repeat split]. Qed.

Lemma setters_validate_when_open_witness :
  let g := snd (fst (Open (K := good_kernel) serial0)) in
  isOpen (s g) = true /\ ~ (5 <= 9 <= 8) /\
  exists err, fst (SetDataBits (K := good_kernel) g 9) = Some err.
Proof.
  intros g. split; [reflexivity|split; [lia|]].
  destruct (setters_validate_when_open (K := good_kernel) g 9) as [H _].
  destruct (H eq_refl) as [Hd _]. apply Hd. lia.
Defined.

(** The trace level is the error level, 1.  The error trace of a failed
    [Open] is dropped; the TX trace of a [Send] is delivered. *)
Lemma trace_filter_drops_errors_witness :
  let g := snd (SetTrace (SetOnTrace serial0 true) 1) in
  (@TraceTypesSent bytes_gxcommon) = 1 /\
  (@TraceTypesError bytes_gxcommon) = 4 /\
  (@TraceTypesInfo bytes_gxcommon) = 16 /\
  onTrace (SetOnTrace serial0 true) = true /\ 0 <= 1 <= 4 /\
  trace g false 4 (msg_connect_failed "/dev/ttyS0" (ErrErrno 5)) = [] /\
  trace g true 1 (msg_TX "PING") = [OnTrace 1 (msg_TX "PING")] /\
  trace g false 16 (msg_connecting_to "/dev/ttyS0") = [].
Proof.
  intros g. repeat (split; [reflexivity|]).
  split; [lia|].
  destruct (trace_filter_drops_errors (SetOnTrace serial0 true) false
              (msg_connect_failed "/dev/ttyS0" (ErrErrno 5)) 1
              eq_refl eq_refl eq_refl eq_refl) as (_ & _ & _ & Hmid); [lia|].
  destruct (trace_filter_drops_errors (SetOnTrace serial0 true) true
              (msg_TX "PING") 1 eq_refl eq_refl eq_refl eq_refl)
    as (_ & _ & _ & Hsent); [lia|].
  destruct (trace_filter_drops_errors (SetOnTrace serial0 true) false
              (msg_connecting_to "/dev/ttyS0") 1
              eq_refl eq_refl eq_refl eq_refl) as (Hinfo & _); [lia|].
  split; [apply Hmid; lia|]. split; [apply Hsent; lia|exact Hinfo].
Defined.

(** C8 as stated fails: a request with no terminator, a negative byte
    count and no all-data flag is not refused. *)
Lemma Receive_negative_count_not_refused :
  let args := receive_args None (-1) false 0 in
  EOP args = None /\ ~ 0 < Count args /\ AllData args = false /\
  Receive serial_ABCDE args []
  = Some (true, None, serial_ABCDE, set_Reply args (Some [])).
Proof. cbn. repeat split; lia. Qed.

Lemma Receive_validation_witness :
  let args := receive_args None 0 false 50 in
  Receive serial_ABCDE args [] = Some (false, Some ErrCountOrEop, serial_ABCDE, args).
Proof.
  intros args.
  apply (Receive_validation serial_ABCDE args []); reflexivity.
Defined.

(** The terminator is a line feed, the buffer holds "ABCDE", the wait is
    50 ms and nothing arrives: no match, no error. *)
Lemma Receive_timeout_no_error_witness :
  let args := receive_args (Some [x0a]) 0 false 50 in
  Receive serial_ABCDE args [] = Some (false, None, serial_ABCDE, args).
Proof.
  intros args.
  apply (Receive_timeout_no_error serial_ABCDE args [] [x0a]).
  - left; discriminate.
  - reflexivity.
  - reflexivity.
Defined.

(** The port is open and the kernel refuses the write: [Send] returns
    the error, and the counter has moved by the four bytes. *)
Lemma Send_counts_before_write_witness :
  let g := snd (fst (Open (K := good_kernel) serial0)) in
  let sent := Send (K := broken_kernel) g (Some (bytes_of "PING")) EmptyString in
  GetBytesSent g = 0 /\
  fst (fst sent) = Some (ErrErrno 5) /\
  GetBytesSent (snd (fst sent)) = 4.
Proof.
  intros g sent. split; [reflexivity|split; [reflexivity|]].
  destruct (Send_counts_before_write (K := broken_kernel) g
              (Some (bytes_of "PING")) EmptyString (bytes_of "PING") eq_refl)
    as [_ [H _]].
  apply H; cbn; lia.
Defined.

(* ================================================================== *)
(** * Part III: further properties of the code                         *)
(* ================================================================== *)

(** ** The synchronous buffer *)

(** X1.  [Get] is defined exactly for [count = -1] and for counts from 0
    to the buffer length.  It then returns the first [count] bytes (all of
    them for [-1]), and a [Get(-1)] right after it returns the rest: the
    two results, in order, are the buffer as it was, and nothing is
    left. *)
Theorem Get_then_Get_all (b : synchronousMediaBase) (count : Z) :
  (Get b count = None <-> count < -1 \/ len (buf b) < count) /\
  (count = -1 \/ 0 <= count <= len (buf b) ->
   exists d1 b1 d2 b2,
     Get b count = Some (d1, b1) /\
     Get b1 (-1) = Some (d2, b2) /\
     len d1 = (if count =? -1 then len (buf b) else count) /\
     d1 ++ d2 = buf b /\
     buf b2 = [] /\ wait b2 = wait b).
Proof.
  pose proof (len_nonneg (buf b)) as Hl. unfold Get. split.
  - destruct (count =? -1) eqn:E1; [apply Z.eqb_eq in E1|apply Z.eqb_neq in E1];
      cbn [orb]; [split; [discriminate|lia]|].
    destruct (count =? len (buf b)) eqn:E2;
      [apply Z.eqb_eq in E2|apply Z.eqb_neq in E2]; [split; [discriminate|lia]|].
    destruct (0 <=? count) eqn:E3; [apply Z.leb_le in E3|apply Z.leb_gt in E3];
      cbn [andb]; [|split; [lia|reflexivity]].
    destruct (count <=? len (buf b)) eqn:E4;
      [apply Z.leb_le in E4|apply Z.leb_gt in E4];
      [split; [discriminate|lia]|split; [lia|reflexivity]].
  - intros Hc.
    destruct (count =? -1) eqn:E1; [apply Z.eqb_eq in E1|apply Z.eqb_neq in E1];
      cbn [orb].
    { exists (buf b), {| buf := []; wait := wait b |}, [], {| buf := []; wait := wait b |}.
      cbn. rewrite app_nil_r. repeat split. }
    destruct (count =? len (buf b)) eqn:E2;
      [apply Z.eqb_eq in E2|apply Z.eqb_neq in E2].
    { exists (buf b), {| buf := []; wait := wait b |}, [], {| buf := []; wait := wait b |}.
      cbn. rewrite app_nil_r. repeat split. lia. }
    replace (0 <=? count) with true by (symmetry; apply Z.leb_le; lia).
    replace (count <=? len (buf b)) with true by (symmetry; apply Z.leb_le; lia).
    cbn [andb].
    exists (firstn (Z.to_nat count) (buf b)),
      {| buf := skipn (Z.to_nat count) (buf b); wait := wait b |},
      (skipn (Z.to_nat count) (buf b)), {| buf := []; wait := wait b |}.
    cbn. rewrite firstn_skipn. repeat split.
    unfold len in *. rewrite length_firstn. lia.
Qed.

Lemma Get_then_Get_all_witness :
  let b := {| buf := bytes_of "PING"; wait := 1%nat |} in
  Get b 3 = Some (bytes_of "PIN", {| buf := bytes_of "G"; wait := 1%nat |}) /\
  exists d1 b1 d2 b2,
    Get b 3 = Some (d1, b1) /\ Get b1 (-1) = Some (d2, b2) /\ d1 ++ d2 = buf b.
Proof.
  intros b. split; [reflexivity|].
  destruct (Get_then_Get_all b 3) as [_ H].
  destruct H as (d1 & b1 & d2 & b2 & H1 & H2 & _ & H3 & _); [right; cbn; lia|].
  exists d1, b1, d2, b2. repeat split; assumption.
Defined.

Lemma Appends_app (env1 env2 : list arrival) (b : synchronousMediaBase) :
  Appends b (env1 ++ env2) = Appends (Appends b env1) env2.
Proof. unfold Appends. apply fold_left_app. Qed.

(** X2.  After any sequence of [Append] calls the buffer is the old
    buffer followed by the appended slices in order, and the wake channel
    has been replaced once for every slice that was not empty: an empty
    append wakes nobody, any other append wakes every searcher blocked
    before it. *)
Theorem Appends_wake_count (env : list arrival) (b : synchronousMediaBase) :
  buf (Appends b env) = buf b ++ appended env /\
  wait (Appends b env)
  = (wait b + List.length (filter carries_bytes env))%nat /\
  (wait (Appends b env) = wait b <-> appended env = []).
Proof.
  split; [apply Appends_buf|].
  assert (Hw : forall (l : list arrival) (c : synchronousMediaBase),
             wait (Appends c l)
             = (wait c + List.length (filter carries_bytes l))%nat).
  { induction l as [|a l IH]; intros c; [cbn; lia|].
    rewrite Appends_cons, IH, Append_wait. cbn [filter].
    change (carries_bytes a) with (negb (len (chunk a) =? 0)).
    destruct (len (chunk a) =? 0); cbn [negb List.length]; lia. }
  split; [apply Hw|]. rewrite Hw.
  induction env as [|a env IH]; [cbn; split; [reflexivity|lia]|].
  rewrite appended_cons. cbn [filter].
  change (carries_bytes a) with (negb (len (chunk a) =? 0)).
  destruct (len (chunk a) =? 0) eqn:E; cbn [negb List.length].
  - apply Z.eqb_eq, len_nil_iff in E. rewrite E. cbn [app]. exact IH.
  - split; [lia|]. intros H. apply app_eq_nil in H as [H _].
    rewrite H in E. discriminate.
Qed.

(** What a suspended call returns, in terms of the buffer it returns with. *)
Lemma Search_select_returns (p : list byte) (minLen maxWait : Z) :
  forall (env : list arrival) (ls : Z) (b : synchronousMediaBase),
    cursor_ok p ls (buf b) ->
    let found := Search_select p minLen maxWait ls (wait b) b env in
    (exists k, snd found = Appends b (firstn k (arrived maxWait env))) /\
    (fst found = -1 \/
     satisfied p minLen (buf (snd found)) = true /\
     fst found = Index (buf (snd found)) p + len p).
Proof.
  induction env as [|a env IH]; intros ls b Hc; cbn [arrived]; Search_equations; cbn [arrived].
  - split; [exists 0%nat; reflexivity|left; reflexivity].
  - destruct (maxWait <=? at_ns a) eqn:Ea.
    { split; [exists 0%nat; reflexivity|left; reflexivity]. }
    rewrite Append_wait. destruct (len (chunk a) =? 0) eqn:Ec.
    + pose proof Ec as Ec'. apply Z.eqb_eq, len_nil_iff in Ec'.
      rewrite Nat.eqb_refl, Ec', Append_nil.
      destruct (IH ls b Hc) as [[k Hk] Hr]. split; [|exact Hr].
      exists (S k). cbn [firstn]. rewrite Appends_cons, Ec', Append_nil. exact Hk.
    + replace (S (wait b) =? wait b)%nat with false
        by (symmetry; apply Nat.eqb_neq; lia).
      pose proof (cursor_ok_app p ls (buf b) (chunk a) Hc) as Hc'.
      rewrite <- Append_buf in Hc'.
      destruct (Search_pass_spec p minLen maxWait ls _ Hc') as (ls' & Hc'' & _ & ->).
      destruct (satisfied p minLen (buf (Append b (chunk a)))) eqn:Hs.
      { cbn [fst snd]. split; [exists 1%nat; reflexivity|right; split; [exact Hs|reflexivity]]. }
      destruct (maxWait <=? 0).
      { cbn [fst snd]. split; [exists 1%nat; reflexivity|left; reflexivity]. }
      destruct (IH ls' (Append b (chunk a)) Hc'') as [[k Hk] Hr].
      split; [|exact Hr]. exists (S k). cbn [firstn]. rewrite Appends_cons. exact Hk.
Qed.

Lemma Search_returns (p : list byte) (minLen maxWait : Z)
    (b : synchronousMediaBase) (env : list arrival) :
  let found := Search p minLen maxWait b env in
  (exists k, snd found = Appends b (firstn k (arrived maxWait env))) /\
  (fst found = -1 \/
   satisfied p (Z.max 0 minLen) (buf (snd found)) = true /\
   fst found = Index (buf (snd found)) p + len p).
Proof.
  rewrite Search_eq.
  replace (if minLen <? 0 then 0 else minLen) with (Z.max 0 minLen)
    by (destruct (minLen <? 0) eqn:E; [apply Z.ltb_lt in E|apply Z.ltb_ge in E]; lia).
  destruct (Search_pass_spec p (Z.max 0 minLen) maxWait 0 b (cursor_ok_0 p (buf b)))
    as (ls' & Hc & _ & ->).
  destruct (satisfied p (Z.max 0 minLen) (buf b)) eqn:Hs.
  { cbn [fst snd]. split; [exists 0%nat; reflexivity|right; split; [exact Hs|reflexivity]]. }
  destruct (maxWait <=? 0).
  { cbn [fst snd]. split; [exists 0%nat; reflexivity|left; reflexivity]. }
  apply Search_select_returns, Hc.
Qed.

Lemma satisfied_offset (p : list byte) (minLen : Z) (u : list byte) :
  satisfied p minLen u = true ->
  minLen <= len u /\ 0 <= Index u p /\
  len p <= Index u p + len p <= len u.
Proof.
  unfold satisfied. intros H. apply andb_true_iff in H as [H1 H2].
  apply Z.leb_le in H1, H2. pose proof (Index_upper p u H2). lia.
Qed.

(** X3.  Whatever the pattern, the minimum length, the wait and the
    arrivals: [Search] returns with the buffer it was given extended by
    the first few arrivals that came before the deadline, never with
    less.  Its result is [-1], or the buffer it returns with holds at
    least [minLen] bytes (0 for a negative [minLen]) and the result is
    the offset just after the first occurrence of the pattern in that
    buffer, an offset between [len(pattern)] and the buffer length. *)
Theorem Search_sound (pattern : list byte) (minLen maxWait : Z)
    (b : synchronousMediaBase) (env : list arrival) :
  let found := Search pattern minLen maxWait b env in
  (exists k, snd found = Appends b (firstn k (arrived maxWait env)) /\
             buf (snd found) = buf b ++ appended (firstn k (arrived maxWait env))) /\
  (fst found = -1 \/
   Z.max 0 minLen <= len (buf (snd found)) /\
   fst found = Index (buf (snd found)) pattern + len pattern /\
   0 <= Index (buf (snd found)) pattern /\
   len pattern <= fst found <= len (buf (snd found))).
Proof.
  intros found. destruct (Search_returns pattern minLen maxWait b env) as [[k Hk] Hr].
  fold found in Hk, Hr. split.
  - exists k. split; [exact Hk|]. rewrite Hk. apply Appends_buf.
  - destruct Hr as [Hr|[Hs Hz]]; [left; exact Hr|right].
    apply satisfied_offset in Hs. rewrite Hz. lia.
Qed.

(** X4.  The offset [Search] returns does not depend on how the bytes
    were cut into appends or on when the call woke up: when it is not
    [-1] it is the offset just after the first occurrence of the pattern
    in everything that arrives before the deadline. *)
Theorem Search_result_first_occurrence (pattern : list byte)
    (minLen maxWait : Z) (b : synchronousMediaBase) (env : list arrival) :
  fst (Search pattern minLen maxWait b env) <> -1 ->
  fst (Search pattern minLen maxWait b env)
  = Index (buf b ++ appended (arrived maxWait env)) pattern + len pattern.
Proof.
  intros Hz. destruct (Search_returns pattern minLen maxWait b env) as [[k Hk] Hr].
  destruct Hr as [Hr|[Hs Hr]]; [contradiction|].
  apply satisfied_offset in Hs. destruct Hs as (_ & Hi & _).
  rewrite Hr, Hk, Appends_buf in *.
  rewrite <- (firstn_skipn k (arrived maxWait env)) at 2.
  rewrite appended_app, app_assoc.
  now rewrite (Index_app_stable pattern _ (appended (skipn k (arrived maxWait env))) Hi).
Qed.

Lemma Search_result_first_occurrence_witness :
  fst (Search (bytes_of "cd") 6 1000 {| buf := bytes_of "abcd"; wait := 1%nat |}
         [ {| at_ns := 3; chunk := bytes_of "ab" |};
           {| at_ns := 4; chunk := bytes_of "cd" |};
           {| at_ns := 2000; chunk := bytes_of "cdcd" |} ]) = 4.
Proof.
  rewrite Search_result_first_occurrence; [reflexivity|].
  vm_compute. discriminate.
Defined.

Lemma satisfied_result_nonneg (p : list byte) (minLen : Z) (u : list byte) :
  satisfied p minLen u = true -> Index u p + len p <> -1.
Proof.
  intros H. apply satisfied_offset in H. pose proof (len_nonneg p). lia.
Qed.

Lemma search_spec_wait_timeout (p : list byte) (minLen maxWait : Z) :
  forall (env : list arrival) (u : list byte),
    satisfied p minLen u = false ->
    (search_spec_wait p minLen maxWait u env = -1 <->
     forall k, satisfied p minLen (u ++ appended (firstn k (arrived maxWait env))) = false).
Proof.
  induction env as [|a env IH]; intros u Hu; cbn [search_spec_wait arrived].
  - split; [|reflexivity]. intros _ k. rewrite firstn_nil.
    cbn. now rewrite app_nil_r.
  - destruct (maxWait <=? at_ns a).
    { split; [|reflexivity]. intros _ k. rewrite firstn_nil.
      cbn. now rewrite app_nil_r. }
    destruct (satisfied p minLen (u ++ chunk a)) eqn:Hs.
    + split.
      * intros H. apply satisfied_result_nonneg in Hs. contradiction.
      * intros H. specialize (H 1%nat). cbn [firstn] in H.
        rewrite appended_cons in H. cbn in H. rewrite app_nil_r in H. congruence.
    + rewrite (IH (u ++ chunk a) Hs). split; intros H k.
      * destruct k as [|k]; [cbn; now rewrite app_nil_r|].
        cbn [firstn]. rewrite appended_cons, app_assoc. apply H.
      * specialize (H (S k)). cbn [firstn] in H.
        now rewrite appended_cons, app_assoc in H.
Qed.

(** X5.  With [maxWait > 0], [Search] returns [-1] exactly when the
    buffer neither satisfies the request at the call nor after any of
    the arrivals that come before the deadline; to satisfy it the buffer
    must hold [minLen] bytes and contain the pattern.  So the call never
    gives up while a match is in the buffer, and never reports one that
    is not. *)
Theorem Search_timeout_iff (pattern : list byte) (minLen maxWait : Z)
    (b : synchronousMediaBase) (env : list arrival) :
  0 < maxWait ->
  (fst (Search pattern minLen maxWait b env) = -1 <->
   forall k, satisfied pattern (Z.max 0 minLen)
               (buf b ++ appended (firstn k (arrived maxWait env))) = false).
Proof.
  intros Hw. rewrite Search_refines. unfold search_spec.
  replace (maxWait <=? 0) with false by (symmetry; apply Z.leb_gt; lia).
  destruct (satisfied pattern (Z.max 0 minLen) (buf b)) eqn:Hs.
  - split.
    + intros H. apply satisfied_result_nonneg in Hs. contradiction.
    + intros H. specialize (H 0%nat). cbn in H. rewrite app_nil_r in H. congruence.
  - apply search_spec_wait_timeout, Hs.
Qed.

Lemma Search_timeout_iff_witness :
  0 < 1000 /\
  fst (Search (bytes_of "cd") 0 1000 {| buf := bytes_of "ab"; wait := 1%nat |}
         [ {| at_ns := 3; chunk := bytes_of "c" |};
           {| at_ns := 1000; chunk := bytes_of "d" |} ]) = -1.
Proof.
  split; [lia|].
  apply (Search_timeout_iff (bytes_of "cd") 0 1000
           {| buf := bytes_of "ab"; wait := 1%nat |}); [lia|].
  intros [|[|k]]; reflexivity.
Defined.

(** X6.  [Search] keeps a cursor and looks only at the bytes behind it.
    For every pattern, minimum length, wait, buffer and arrivals it
    returns what a search without a cursor returns, one that scans the
    whole buffer again at every wake-up. *)
Theorem Search_equals_rescanning_search (pattern : list byte)
    (minLen maxWait : Z) (b : synchronousMediaBase) (env : list arrival) :
  fst (Search pattern minLen maxWait b env)
  = search_spec pattern minLen maxWait (buf b) env.
Proof.
  rewrite Search_eq; unfold search_spec.
  assert (Hm : (if minLen <? 0 then 0 else minLen) = Z.max 0 minLen).
  { destruct (minLen <? 0) eqn:E; [apply Z.ltb_lt in E|apply Z.ltb_ge in E]; lia. }
  rewrite Hm.
  destruct (Search_pass_spec pattern (Z.max 0 minLen) maxWait 0 b
              (cursor_ok_0 pattern (buf b))) as (ls & Hc & _ & Hp).
  rewrite Hp.
  destruct (satisfied pattern (Z.max 0 minLen) (buf b)) eqn:Hs; [reflexivity|].
  destruct (maxWait <=? 0) eqn:Ew; [reflexivity|].
  apply Z.leb_gt in Ew.
  exact (Search_select_refines pattern (Z.max 0 minLen) maxWait Ew env ls b Hc Hs).
Qed.

(** ** Receive *)

Section ReceiveFacts.
Context {X : Gxcommon}.

Lemma Get_in_range (b : synchronousMediaBase) (count : Z) :
  0 <= count <= len (buf b) ->
  Get b count
  = Some (firstn (Z.to_nat count) (buf b),
          {| buf := skipn (Z.to_nat count) (buf b); wait := wait b |}).
Proof.
  intros Hc. unfold Get.
  replace (count =? -1) with false by (symmetry; apply Z.eqb_neq; lia).
  cbn [orb]. destruct (count =? len (buf b)) eqn:E.
  - apply Z.eqb_eq in E.
    replace (Z.to_nat count) with (List.length (buf b)) by (unfold len in E; lia).
    now rewrite firstn_all, skipn_all.
  - replace (0 <=? count) with true by (symmetry; apply Z.leb_le; lia).
    replace (count <=? len (buf b)) with true by (symmetry; apply Z.leb_le; lia).
    reflexivity.
Qed.

(** X7.  [Receive] never makes [Get] slice outside the buffer: for every
    transport, request and arrivals it returns a result.  The offset it
    passes to [Get] is [-1] or an offset [Search] found inside the
    buffer it returned with. *)
Theorem Receive_returns (g : GXSerial) (args : ReceiveParameters)
    (env : list arrival) :
  exists matched err g' args',
    Receive g args env = Some (matched, err, g', args') /\
    (matched = true -> err = None).
Proof.
  unfold Receive.
  destruct (match EOP args with None => true | Some _ => false end
            && (Count args =? 0) && negb (AllData args)).
  { do 4 eexists. split; [reflexivity|discriminate]. }
  destruct (ToBytes (EOP args)) as [terminator|e].
  2:{ do 4 eexists. split; [reflexivity|discriminate]. }
  fold (waitTime_of args).
  pose proof (Search_returns terminator (Count args) (waitTime_of args)
                (received g) env) as [_ Hr].
  destruct (Search terminator (Count args) (waitTime_of args) (received g) env)
    as [index b]. cbn [fst snd] in Hr.
  destruct (index =? -1) eqn:Ei.
  { do 4 eexists. split; [reflexivity|discriminate]. }
  apply Z.eqb_neq in Ei. destruct Hr as [Hr|[Hs Hz]]; [contradiction|].
  apply satisfied_offset in Hs. pose proof (len_nonneg terminator).
  assert (Hg : exists data b', Get b (if AllData args then -1 else index)
                               = Some (data, b')).
  { destruct (AllData args); [rewrite Get_all; eauto|].
    rewrite Get_in_range by lia. eauto. }
  destruct Hg as (data & b' & ->).
  destruct (BytesToAny2 data (ReplyType args)) as [reply [e|]];
    do 4 eexists; (split; [reflexivity|]); [discriminate|reflexivity].
Qed.

(** X8.  Without the all-data flag, a [Receive] whose search succeeds
    takes from the buffer exactly the bytes before the offset the search
    returned, decodes the reply from them and leaves every later byte in
    place; it reports a match unless the decoding fails.  With a
    non-empty terminator these bytes end with the first occurrence of
    the terminator. *)
Theorem Receive_drains_matched_span (g : GXSerial) (args : ReceiveParameters)
    (env : list arrival) (terminator : list byte) :
  valid_request args ->
  AllData args = false ->
  ToBytes (EOP args) = Ok terminator ->
  let found := Search terminator (Count args) (waitTime_of args) (received g) env in
  let n := Z.to_nat (fst found) in
  fst found <> -1 ->
  Receive g args env =
    (let '(reply, err) :=
       BytesToAny2 (firstn n (buf (snd found))) (ReplyType args) in
     Some (match err with Some _ => false | None => true end, err,
           set_received g {| buf := skipn n (buf (snd found));
                             wait := wait (snd found) |},
           set_Reply args reply)) /\
  firstn n (buf (snd found)) ++ skipn n (buf (snd found)) = buf (snd found) /\
  exists before,
    firstn n (buf (snd found)) = before ++ terminator /\
    Index (buf (snd found)) terminator = len before.
Proof.
  intros Hv Ha Ht found n Hf.
  pose proof (Search_returns terminator (Count args) (waitTime_of args)
                (received g) env) as [_ Hr].
  fold found in Hr. destruct Hr as [Hr|[Hs Hz]]; [contradiction|].
  pose proof (satisfied_offset _ _ _ Hs) as (_ & Hi & Hb).
  pose proof (len_nonneg terminator) as Hl.
  split; [|split; [apply firstn_skipn|]].
  - unfold Receive. rewrite (valid_request_guard args Hv), Ht.
    fold (waitTime_of args). fold found. subst n.
    destruct found as [index b]. cbn [fst snd] in *.
    apply Z.eqb_neq in Hf. rewrite Hf, Ha.
    rewrite Get_in_range by lia.
    destruct (BytesToAny2 (firstn (Z.to_nat index) (buf b)) (ReplyType args))
      as [reply [e|]]; reflexivity.
  - pose proof (Index_found terminator (buf (snd found)) Hi) as Hp.
    apply HasPrefix_iff in Hp as [rest Hrest].
    exists (firstn (Z.to_nat (Index (buf (snd found)) terminator)) (buf (snd found))).
    assert (Hlen : List.length (firstn (Z.to_nat (Index (buf (snd found)) terminator))
                                  (buf (snd found)))
                   = Z.to_nat (Index (buf (snd found)) terminator)).
    { rewrite length_firstn. unfold len in *. lia. }
    split; [|unfold len; rewrite Hlen; lia].
    rewrite <- (firstn_skipn (Z.to_nat (Index (buf (snd found)) terminator))
                  (buf (snd found))) at 1.
    rewrite Hrest. subst n. rewrite Hz.
    rewrite firstn_app, Hlen.
    replace (Z.to_nat (Index (buf (snd found)) terminator + len terminator)
             - Z.to_nat (Index (buf (snd found)) terminator))%nat
      with (List.length terminator) by (unfold len in *; lia).
    rewrite firstn_all2 by (rewrite Hlen; lia).
    f_equal. rewrite firstn_app, firstn_all, Nat.sub_diag. cbn. apply app_nil_r.
Qed.

(** X9.  With the all-data flag, a [Receive] whose search succeeds
    decodes the reply from the whole buffer, which is the buffer at the
    call followed by the arrivals the search waited for, and leaves the
    buffer empty. *)
Theorem Receive_all_data_drains (g : GXSerial) (args : ReceiveParameters)
    (env : list arrival) (terminator : list byte) :
  AllData args = true ->
  ToBytes (EOP args) = Ok terminator ->
  fst (Search terminator (Count args) (waitTime_of args) (received g) env) <> -1 ->
  exists k reply err g' args',
    let whole := buf (received g)
                 ++ appended (firstn k (arrived (waitTime_of args) env)) in
    Receive g args env = Some (match err with Some _ => false | None => true end,
                               err, g', args') /\
    BytesToAny2 whole (ReplyType args) = (reply, err) /\
    Reply args' = reply /\
    buf (received g') = [].
Proof.
  intros Ha Ht Hf.
  pose proof (Search_returns terminator (Count args) (waitTime_of args)
                (received g) env) as [[k Hk] _].
  pose proof (Receive_all_data g args env terminator Ha Ht Hf) as Hr.
  cbv zeta in Hr. rewrite Hr.
  rewrite Hk, Appends_buf.
  destruct (BytesToAny2 (buf (received g)
              ++ appended (firstn k (arrived (waitTime_of args) env)))
              (ReplyType args)) as [reply err] eqn:Hd.
  exists k, reply, err. do 2 eexists. cbv zeta.
  split; [reflexivity|]. split; [exact Hd|]. split; reflexivity.
Qed.
End ReceiveFacts.

(** ** The reader *)

Section ReaderFacts.
Context {X : Gxcommon} {B : GxcommonBytes X}.

Lemma received_data_app (c1 c2 : list reader_callback) :
  received_data (c1 ++ c2) = received_data c1 ++ received_data c2.
Proof. unfold received_data. apply flat_map_app. Qed.

Lemma received_data_tracef (g : GXSerial) (lock : bool) (traceType : Z)
    (text : reader_message) :
  received_data (tracef_reader g lock traceType text) = [].
Proof.
  unfold tracef_reader.
  destruct lock; cbn; destruct (onTrace g && negb (traceLevel g <? traceType));
    reflexivity.
Qed.

Lemma received_data_Called (cbs : list callback) :
  received_data (map Called cbs) = [].
Proof. induction cbs as [|c cbs IH]; [reflexivity|exact IH]. Qed.

Lemma received_data_traces (g : GXSerial) (data : list byte) :
  received_data (handleData_traces g data) = [].
Proof.
  unfold handleData_traces. destruct (ToString (Some (of_bytes data))).
  - apply received_data_tracef.
  - rewrite received_data_app, received_data_tracef, received_data_Called.
    reflexivity.
Qed.

Lemma appendData_received (g : GXSerial) (data : list byte) :
  received (appendData g data) = Append (received g) data.
Proof.
  unfold appendData, Append. destruct (len data =? 0); reflexivity.
Qed.

(** [handleData] touches the buffer and its size, nothing else. *)
Lemma handleData_frame (g : GXSerial) (data : list byte) :
  let g' := fst (handleData g data) in
  stop g' = stop g /\ synchronous g' = synchronous g /\
  onReceive g' = onReceive g /\ onErr g' = onErr g /\ onTrace g' = onTrace g /\
  traceLevel g' = traceLevel g /\ Port g' = Port g /\
  bytesReceived g' = bytesReceived g /\ wg g' = wg g /\
  received g' = (if synchronous g then Append (received g) data else received g).
Proof.
  unfold handleData. destruct (synchronous g) eqn:Es; cbn [fst].
  - rewrite appendData_received. unfold appendData.
    destruct (len data =? 0); cbn; repeat split; assumption.
  - rewrite Es. repeat split.
Qed.

Lemma handleData_calls (g : GXSerial) (data : list byte) :
  received_data (snd (handleData g data))
  = if synchronous g then []
    else if onReceive g then [data] else [].
Proof.
  unfold handleData. fold (handleData_traces g data).
  destruct (synchronous g); cbn [snd].
  - apply received_data_traces.
  - rewrite received_data_app, received_data_traces. unfold receivef.
    destruct (onReceive g); reflexivity.
Qed.

Lemma wrap_uint64_add (a n : Z) :
  wrap_uint64 (wrap_uint64 a + n) = wrap_uint64 (a + n).
Proof. unfold wrap_uint64. apply Zplus_mod_idemp_l. Qed.

Lemma len_concat_cons (c : list byte) (chunks : list (list byte)) :
  len (List.concat (c :: chunks)) = len c + len (List.concat chunks).
Proof. cbn [List.concat]. apply len_app. Qed.

Lemma reader_Ok_cons (g : GXSerial) (ret : list byte)
    (reads : list (result (list byte))) :
  stop g <> chan_closed ->
  reader g (Ok ret :: reads) =
    let step :=
      if negb (len ret =? 0) then
        handleData
          (set_bytesReceived g (wrap_uint64 (bytesReceived g + len ret))) ret
      else (g, []) in
    let run := reader (fst step) reads in
    (fst (fst run), snd step ++ snd (fst run), snd run).
Proof.
  intros Hstop. cbn [reader]. cbv zeta.
  destruct (negb (len ret =? 0)).
  - pose proof (handleData_frame
                  (set_bytesReceived g (wrap_uint64 (bytesReceived g + len ret))) ret)
      as (Hs & _).
    destruct (handleData _ ret) as [g1 cbs1]. cbn [fst snd] in *.
    cbn [stop set_bytesReceived] in Hs.
    destruct (stop g1) eqn:E; try (symmetry in Hs; contradiction);
      destruct (reader g1 reads) as [[g2 cbs2] ex]; reflexivity.
  - cbn [fst snd].
    destruct (stop g) eqn:E; try contradiction;
      destruct (reader g reads) as [[g2 cbs2] ex]; reflexivity.
Qed.

(** X10.  While every read succeeds and the stop channel is not closed,
    the reader keeps running.  It adds the length of what it read to the
    counter of received bytes (in [uint64] arithmetic).  In synchronous
    mode every chunk goes to the end of the buffer, in order, and the
    received-data handler is never called; otherwise the buffer is left
    alone and the handler, when one is registered, is called once for
    every chunk that is not empty, in order, with the chunk. *)
Theorem reader_routes (chunks : list (list byte)) (g : GXSerial) :
  stop g <> chan_closed ->
  0 <= GetBytesReceived g < 2 ^ 64 ->
  let run := reader g (map Ok chunks) in
  let g' := fst (fst run) in
  snd run = false /\
  GetBytesReceived g' = wrap_uint64 (GetBytesReceived g + len (List.concat chunks)) /\
  (synchronous g = true ->
   buf (received g') = buf (received g) ++ List.concat chunks /\
   received_data (snd (fst run)) = []) /\
  (synchronous g = false ->
   received g' = received g /\
   received_data (snd (fst run))
   = if onReceive g then filter (fun c => negb (len c =? 0)) chunks else []).
Proof.
  unfold GetBytesReceived. revert g.
  induction chunks as [|c chunks IH]; intros g Hstop Hrange; cbv zeta.
  - cbn. rewrite Z.add_0_r, app_nil_r. unfold wrap_uint64.
    rewrite Z.mod_small by exact Hrange.
    repeat split. destruct (onReceive g); reflexivity.
  - cbn [map]. rewrite (reader_Ok_cons g c (map Ok chunks) Hstop). cbv zeta.
    rewrite len_concat_cons. cbn [List.concat filter].
    destruct (len c =? 0) eqn:Ec; cbn [negb fst snd].
    + apply Z.eqb_eq in Ec. pose proof Ec as Ec'. apply len_nil_iff in Ec'.
      rewrite Ec, Ec', Z.add_0_l. cbn [app]. apply (IH g Hstop Hrange).
    + set (g0 := set_bytesReceived g (wrap_uint64 (bytesReceived g + len c))).
      pose proof (handleData_frame g0 c)
        as (Hs & Hsy & Hor & _ & _ & _ & _ & Hbr & _ & Hrc).
      pose proof (handleData_calls g0 c) as Hcalls.
      cbn [stop synchronous onReceive bytesReceived received
           set_bytesReceived g0] in Hs, Hsy, Hor, Hbr, Hrc, Hcalls.
      set (g1 := fst (handleData g0 c)) in *.
      assert (Hstop1 : stop g1 <> chan_closed) by (rewrite Hs; exact Hstop).
      assert (Hrange1 : 0 <= bytesReceived g1 < 2 ^ 64).
      { rewrite Hbr. unfold wrap_uint64. apply Z.mod_pos_bound. lia. }
      destruct (IH g1 Hstop1 Hrange1) as (Hex & Hcnt & Hsync & Hasync).
      split; [exact Hex|]. split; [|split].
      * rewrite Hcnt, Hbr, wrap_uint64_add. f_equal. lia.
      * intros Ht. rewrite Hsy in Hsync. destruct (Hsync Ht) as [Hb Hd].
        rewrite received_data_app, Hd, Hcalls, Ht, Hb, Hrc, Ht, Append_buf.
        split; [now rewrite app_assoc|reflexivity].
      * intros Hf. rewrite Hsy in Hasync. destruct (Hasync Hf) as [Hb Hd].
        rewrite received_data_app, Hd, Hcalls, Hf, Hb, Hrc, Hf, Hor.
        split; [reflexivity|]. destruct (onReceive g); reflexivity.
Qed.

(** X11.  The reader stops at the first read that fails.  Up to there it
    does what it does when no error follows; then, unless the stop
    channel is nil, it calls the trace handler with the connection
    failure (when tracing lets errors through) and the error handler
    with the error, takes itself off the wait group and exits.  No later
    read is made. *)
Theorem reader_stops_at_error (chunks : list (list byte)) (err : error)
    (rest : list (result (list byte))) (g : GXSerial) :
  stop g <> chan_closed ->
  let before := reader g (map Ok chunks) in
  let g1 := fst (fst before) in
  let run := reader g (map Ok chunks ++ Err err :: rest) in
  snd run = true /\
  fst (fst run) = reader_exit g1 /\
  wg (fst (fst run)) = Nat.pred (wg g) /\
  snd (fst run)
  = snd (fst before)
    ++ match stop g with
       | chan_nil => []
       | _ => tracef_reader g false TraceTypesError (msg_connection_failed err)
              ++ (if onErr g then [Called (OnError err)] else [])
       end.
Proof.
  revert g. induction chunks as [|c chunks IH]; intros g Hstop; cbv zeta.
  - cbn [map app reader fst snd].
    repeat split. destruct (stop g); try reflexivity;
      unfold errorf; destruct (onErr g); reflexivity.
  - cbn [map app].
    rewrite (reader_Ok_cons g c (map Ok chunks ++ Err err :: rest) Hstop).
    rewrite (reader_Ok_cons g c (map Ok chunks) Hstop). cbv zeta. cbn [fst snd].
    set (step := if negb (len c =? 0)
                 then handleData
                        (set_bytesReceived g (wrap_uint64 (bytesReceived g + len c))) c
                 else (g, [])).
    assert (Hf : stop (fst step) = stop g /\ onErr (fst step) = onErr g /\
                 onTrace (fst step) = onTrace g /\
                 traceLevel (fst step) = traceLevel g /\ wg (fst step) = wg g).
    { unfold step. destruct (negb (len c =? 0)); [|repeat split].
      pose proof (handleData_frame
                    (set_bytesReceived g (wrap_uint64 (bytesReceived g + len c))) c)
        as (Hs & _ & _ & He & Ht & Hl & _ & _ & Hw & _).
      repeat split; assumption. }
    destruct Hf as (Hs & He & Ht & Hl & Hw).
    destruct (IH (fst step)) as (H1 & H2 & H3 & H4); [rewrite Hs; exact Hstop|].
    split; [exact H1|]. split; [exact H2|]. split; [rewrite H3, Hw; reflexivity|].
    rewrite H4, <- app_assoc. f_equal. f_equal.
    rewrite Hs, He. unfold tracef_reader. rewrite Ht, Hl. reflexivity.
Qed.
(** X12.  From the reader to the caller.  In synchronous mode
    [handleData] does not call the received-data handler; the bytes wait
    in the buffer, and a [Receive] with a terminator that occurs in them
    returns the bytes up to the end of its first occurrence and leaves
    the rest for the next call.  Once the function [GetSynchronous]
    returned has been called the mode is off again. *)
Theorem handleData_then_Receive (g : GXSerial) (data : list byte)
    (args : ReceiveParameters) (terminator : list byte) :
  let sync := GetSynchronous g in
  let handled := handleData (fst sync) data in
  let g1 := fst handled in
  let whole := buf (received g) ++ data in
  let n := Z.to_nat (Index whole terminator + len terminator) in
  valid_request args -> AllData args = false -> terminator <> [] ->
  ToBytes (EOP args) = Ok terminator ->
  Count args <= len whole -> 0 <= Index whole terminator ->
  received_data (snd handled) = [] /\
  Receive g1 args [] =
    (let '(reply, err) := BytesToAny2 (firstn n whole) (ReplyType args) in
     Some (match err with Some _ => false | None => true end, err,
           set_received g1 {| buf := skipn n whole; wait := wait (received g1) |},
           set_Reply args reply)) /\
  IsSynchronous g1 = true /\ IsSynchronous (snd sync g1) = false.
Proof.
  intros sync handled g1 whole n Hv Ha Hne Ht Hc Hi.
  pose proof (handleData_frame (fst sync) data) as (_ & Hsy & _ & _ & _ & _ & _ & _ & _ & Hrc).
  pose proof (handleData_calls (fst sync) data) as Hcalls.
  fold handled in Hsy, Hrc, Hcalls. fold g1 in Hsy, Hrc.
  cbn [sync GetSynchronous fst synchronous set_synchronous received] in Hsy, Hrc, Hcalls.
  assert (Hbuf : buf (received g1) = whole) by (rewrite Hrc; apply Append_buf).
  split; [exact Hcalls|]. split; [|split; [exact Hsy|reflexivity]].
  pose proof (Receive_terminator g1 args terminator Hv Ha Hne Ht) as Hr.
  rewrite Hbuf in Hr. exact (Hr Hc Hi).
Qed.
(** A reader that exits while [Close] holds the lock does what the
    free-running reader does on the same reads. *)
Lemma reader_during_Close_reader (reads : list (result (list byte))) :
  forall g : GXSerial,
    snd (reader_during_Close g reads) = true ->
    reader g reads = reader_during_Close g reads.
Proof.
  induction reads as [|[ret|err] reads IH]; intros g H;
    cbn [reader_during_Close reader] in *.
  - discriminate.
  - destruct (negb (len ret =? 0)); [discriminate|].
    destruct (stop g) eqn:Es; [| |reflexivity].
    + rewrite (IH g H).
      destruct (reader_during_Close g reads) as [[g' cbs] ex]; reflexivity.
    + rewrite (IH g H).
      destruct (reader_during_Close g reads) as [[g' cbs] ex]; reflexivity.
  - reflexivity.
Qed.
End ReaderFacts.

(** ** Open and openPort *)

Section OpenFacts.
Context {X : Gxcommon} {K : Kernel}.

Ltac openPort_step :=
  match goal with
  | |- context [unix_Open ?a] => destruct (unix_Open a) as [?fd|?e] eqn:?
  | |- context [IoctlGetTermios ?a] => destruct (IoctlGetTermios a) as [?t|?e] eqn:?
  | |- context [open_dataBits ?a ?b] => destruct (open_dataBits a b) eqn:?
  | |- context [open_stopBits ?a ?b] => destruct (open_stopBits a b) eqn:?
  | |- context [open_parity ?a ?b] => destruct (open_parity a b) eqn:?
  | |- context [IoctlSetTermios ?a ?b] => destruct (IoctlSetTermios a b) eqn:?
  | |- context [IoctlSetInt_TCFLSH ?a] => destruct (IoctlSetInt_TCFLSH a) eqn:?
  | |- context [os_Pipe] => destruct os_Pipe as [[?pr ?pw]|?e] eqn:?
  end.

(** [openPort] assigns to [cfg.s] and to nothing else. *)
Lemma openPort_frame (cfg : GXSerial) :
  exists p, snd (openPort cfg) = set_s cfg p.
Proof.
  unfold openPort, close_and_return; repeat openPort_step; cbn [snd];
    try (eexists; reflexivity).
  exists (s cfg). destruct cfg; reflexivity.
Qed.

Lemma openPort_success (cfg : GXSerial) :
  fst (openPort cfg) = None ->
  exists fd0 pr pw,
    unix_Open (Port cfg) = Ok fd0 /\
    snd (openPort cfg)
    = set_s cfg {| f := Some fd0; fd := fd0; r := Some pr; w := Some pw |}.
Proof.
  unfold openPort, close_and_return; repeat openPort_step; cbn [fst snd];
    try discriminate.
  intros _. do 3 eexists. split; reflexivity.
Qed.

(** How a failed [openPort] leaves the port. *)
Lemma openPort_failure (cfg : GXSerial) (err : error) :
  isOpen (s cfg) = false ->
  fst (openPort cfg) = Some err ->
  isOpen (s (snd (openPort cfg))) = false \/
  exists fd0,
    unix_Open (Port cfg) = Ok fd0 /\
    IoctlSetInt_TCFLSH fd0 = Some err /\
    s (snd (openPort cfg)) = {| f := Some fd0; fd := fd0; r := None; w := None |}.
Proof.
  intros Hc. unfold openPort, close_and_return; repeat openPort_step;
    cbn [fst snd s set_s port_close f r w isOpen]; intros H;
    try discriminate; try (left; first [exact Hc | reflexivity]).
  right. injection H as <-. eexists. repeat split; eassumption.
Qed.

(** X13.  An [Open] that returns the nil error leaves the port open,
    with its descriptor and, when it had to open it, the two ends of the
    pipe that interrupts a blocked read, and with one more reader for
    [Close] to wait for.  Another [Open] then changes nothing, calls no
    handler and starts no second reader. *)
Theorem Open_then_Open (g : GXSerial) :
  fst (fst (Open g)) = None ->
  let g1 := snd (fst (Open g)) in
  isOpen (s g1) = true /\
  wg g1 = (if isOpen (s g) then wg g else S (wg g)) /\
  (isOpen (s g) = false -> r (s g1) <> None /\ w (s g1) <> None) /\
  Open g1 = (None, g1, []).
Proof.
  intros H g1.
  assert (Hcases :
    (isOpen (s g) = true /\ g1 = g) \/
    (isOpen (s g) = false /\
     exists fd0 pr pw,
       g1 = set_wg (set_s g {| f := Some fd0; fd := fd0;
                               r := Some pr; w := Some pw |}) (S (wg g)))).
  { unfold g1. unfold Open in H |- *.
    destruct (isOpen (s g)) eqn:Eo; [left; split; reflexivity|right].
    split; [reflexivity|].
    destruct (openPort_success g) as (fd0 & pr & pw & _ & Hs).
    - destruct (openPort g) as [[err|] g']; [discriminate|reflexivity].
    - destruct (openPort g) as [[err|] g']; [discriminate|].
      cbn [snd] in Hs. subst g'. cbn [fst snd]. eauto. }
  destruct Hcases as [[Eo ->]|[Eo (fd0 & pr & pw & ->)]]; rewrite Eo.
  - split; [reflexivity|]. split; [reflexivity|].
    split; [intros H0; discriminate H0|].
    unfold Open. rewrite Eo. reflexivity.
  - cbn [s wg set_s set_wg isOpen f r w].
    split; [reflexivity|]. split; [reflexivity|].
    split; [intros _; split; discriminate|reflexivity].
Qed.

(** X14.  An [Open] that fails returns the error of [openPort] and
    starts no reader.  The state handler has been called with Opening
    and with nothing else: no call reports that the transport is closed
    again.  The error handler has been called once, with the error
    returned. *)
Theorem Open_failure (g : GXSerial) (err : error) :
  isOpen (s g) = false ->
  fst (openPort g) = Some err ->
  let opened := Open g in
  fst (fst opened) = Some err /\
  wg (snd (fst opened)) = wg g /\
  snd opened
  = statef g false MediaStateOpening
    ++ trace g false TraceTypesInfo (msg_connecting_to (Port g))
    ++ trace g false TraceTypesError (msg_connect_failed (Port g) err)
    ++ (if onErr g then [OnError err] else []) /\
  ~ In (OnMediaStateChange MediaStateOpen) (snd opened) /\
  ~ In (OnMediaStateChange MediaStateClosed) (snd opened).
Proof.
  intros Hc He. cbv zeta. unfold Open. rewrite Hc.
  destruct (openPort_frame g) as [p Hp].
  destruct (openPort g) as [[e|] g'] eqn:E; cbn [fst snd] in *;
    [|discriminate].
  injection He as ->. subst g'.
  assert (Hcbs : forall ty m, trace (set_s g p) false ty m = trace g false ty m)
    by reflexivity.
  rewrite Hcbs. unfold errorf. cbn [onErr set_s wg Port].
  split; [reflexivity|split; [reflexivity|]].
  split; [now rewrite <- app_assoc|].
  unfold statef, trace. cbn [fst snd].
  split; intros Hin; repeat (apply in_app_or in Hin as [Hin|Hin]);
    repeat match type of Hin with
           | In _ (if ?c then _ else _) => destruct c
           | In _ (_ :: _) => destruct Hin as [Hin|Hin]; [discriminate|]
           | In _ [] => exact Hin
           end.
Qed.

(** X15.  When [openPort] fails on a closed port it leaves the port
    closed, with one exception: when it is the flush of the input queue
    that fails, [openPort] returns the error without closing, and the
    descriptor stays, with no pipe. *)
Theorem openPort_failure_leaves_closed (cfg : GXSerial) (err : error) :
  isOpen (s cfg) = false ->
  fst (openPort cfg) = Some err ->
  (isOpen (s (snd (openPort cfg))) = true <->
   exists fd0,
     unix_Open (Port cfg) = Ok fd0 /\
     IoctlSetInt_TCFLSH fd0 = Some err /\
     s (snd (openPort cfg)) = {| f := Some fd0; fd := fd0; r := None; w := None |}).
Proof.
  intros Hc He. destruct (openPort_failure cfg err Hc He) as [H|H]; split.
  - rewrite H. discriminate.
  - intros (fd0 & _ & _ & Hs). rewrite Hs in H. discriminate.
  - intros _. exact H.
  - intros (fd0 & _ & _ & Hs). rewrite Hs. reflexivity.
Qed.

Lemma open_dataBits_some (c v : Z) :
  (exists c', open_dataBits c v = Some c') <-> 5 <= v <= 8.
Proof.
  unfold open_dataBits. split.
  - intros [c' H].
    destruct (v =? 5) eqn:E5; [apply Z.eqb_eq in E5; lia|].
    destruct (v =? 6) eqn:E6; [apply Z.eqb_eq in E6; lia|].
    destruct (v =? 7) eqn:E7; [apply Z.eqb_eq in E7; lia|].
    destruct (v =? 8) eqn:E8; [apply Z.eqb_eq in E8; lia|discriminate].
  - intros Hv.
    destruct (v =? 5) eqn:E5; [eauto|apply Z.eqb_neq in E5].
    destruct (v =? 6) eqn:E6; [eauto|apply Z.eqb_neq in E6].
    destruct (v =? 7) eqn:E7; [eauto|apply Z.eqb_neq in E7].
    destruct (v =? 8) eqn:E8; [eauto|apply Z.eqb_neq in E8; lia].
Qed.

Lemma open_stopBits_some (c v : Z) :
  (exists c', open_stopBits c v = Some c') <-> v = 1 \/ v = 2.
Proof.
  unfold open_stopBits. split.
  - intros [c' H].
    destruct (v =? 1) eqn:E1; [apply Z.eqb_eq in E1; lia|].
    destruct (v =? 2) eqn:E2; [apply Z.eqb_eq in E2; lia|discriminate].
  - intros [->| ->]; cbn; eauto.
Qed.

Lemma open_parity_ok (c v : Z) :
  (exists c', open_parity c v = Ok c') <-> known_parity v.
Proof.
  unfold open_parity, known_parity, hasCMSPAR. cbn [negb]. split.
  - intros [c' H].
    destruct (v =? ParityNone) eqn:E1; [apply Z.eqb_eq in E1; auto|].
    destruct (v =? ParityEven) eqn:E2; [apply Z.eqb_eq in E2; auto|].
    destruct (v =? ParityOdd) eqn:E3; [apply Z.eqb_eq in E3; auto|].
    destruct (v =? ParityMark) eqn:E4; [apply Z.eqb_eq in E4; auto|].
    destruct (v =? ParitySpace) eqn:E5; [apply Z.eqb_eq in E5; auto 6|discriminate].
  - intros Hk.
    destruct (v =? ParityNone) eqn:E1; [eauto|apply Z.eqb_neq in E1].
    destruct (v =? ParityEven) eqn:E2; [eauto|apply Z.eqb_neq in E2].
    destruct (v =? ParityOdd) eqn:E3; [eauto|apply Z.eqb_neq in E3].
    destruct (v =? ParityMark) eqn:E4; [eauto|apply Z.eqb_neq in E4].
    destruct (v =? ParitySpace) eqn:E5; [eauto|apply Z.eqb_neq in E5].
    exfalso. destruct Hk as [H|[H|[H|[H|H]]]]; contradiction.
Qed.

(** X16.  On a device that opens and accepts every setting, [openPort]
    succeeds exactly for 5 to 8 data bits, 1 or 2 stop bits and one of
    the five parities (none, even, odd, mark, space).  The baud rate is
    not checked. *)
Theorem openPort_accepts (cfg : GXSerial) (fd0 : Z) (t : Termios) (pr pw : Z) :
  unix_Open (Port cfg) = Ok fd0 ->
  IoctlGetTermios fd0 = Ok t ->
  (forall t', IoctlSetTermios fd0 t' = None) ->
  IoctlSetInt_TCFLSH fd0 = None ->
  os_Pipe = Ok (pr, pw) ->
  (fst (openPort cfg) = None <->
   5 <= dataBits cfg <= 8 /\ (stopBits cfg = 1 \/ stopBits cfg = 2) /\
   known_parity (parity cfg)).
Proof.
  intros Ho Hg Hset Hfl Hpipe. unfold openPort, close_and_return.
  rewrite Ho, Hg. cbn [dataBits stopBits parity baudRate set_s].
  match goal with |- context [open_dataBits ?a ?b] =>
    pose proof (open_dataBits_some a b) as Hd;
    destruct (open_dataBits a b) as [c1|] end.
  2:{ cbn [fst]. split; [discriminate|]. intros (H & _).
      apply Hd in H as [c' H]. discriminate. }
  match goal with |- context [open_stopBits ?a ?b] =>
    pose proof (open_stopBits_some a b) as Hs;
    destruct (open_stopBits a b) as [c2|] end.
  2:{ cbn [fst]. split; [discriminate|]. intros (_ & H & _).
      apply Hs in H as [c' H]. discriminate. }
  match goal with |- context [open_parity ?a ?b] =>
    pose proof (open_parity_ok a b) as Hp;
    destruct (open_parity a b) as [c3|e] end.
  2:{ cbn [fst]. split; [discriminate|]. intros (_ & _ & H).
      apply Hp in H as [c' H]. discriminate. }
  rewrite Hset, Hfl, Hpipe. cbn [fst]. split; [|reflexivity]. intros _.
  split; [apply Hd; eauto|]. split; [apply Hs; eauto|apply Hp; eauto].
Qed.
End OpenFacts.

(** ** Flag words

    [x |= m] and [x &^= m] seen through a mask. *)

Ltac bitwise :=
  apply Z.bits_inj';
  let n := fresh "n" in
  let Hn := fresh "Hn" in
  intros n Hn;
  repeat match goal with
         | H : _ = _ :> Z |- _ =>
             apply (f_equal (fun z => Z.testbit z n)) in H; cbv beta in H
         end;
  repeat first [ rewrite Z.land_spec in * | rewrite Z.lor_spec in *
               | rewrite Z.ldiff_spec in * | rewrite Z.bits_0 in * ];
  repeat match goal with
         | |- context [Z.testbit ?a n] => destruct (Z.testbit a n)
         | H : context [Z.testbit ?a n] |- _ => destruct (Z.testbit a n)
         end;
  cbn in *; congruence.

Lemma land_lor_disjoint (a x m : Z) :
  Z.land x m = 0 -> Z.land (Z.lor a x) m = Z.land a m.
Proof. intros H. bitwise. Qed.

Lemma land_ldiff_disjoint (a x m : Z) :
  Z.land x m = 0 -> Z.land (Z.ldiff a x) m = Z.land a m.
Proof. intros H. bitwise. Qed.

Lemma land_ldiff_covered (a x m : Z) :
  Z.land m x = m -> Z.land (Z.ldiff a x) m = 0.
Proof. intros H. bitwise. Qed.

Lemma land_lor_covered (a x m : Z) :
  Z.land m x = m -> Z.land (Z.lor a x) m = m.
Proof. intros H. bitwise. Qed.

(** Writing the field [m]: clear it, then set [x] inside it. *)
Lemma land_field_written (c m x : Z) :
  Z.land x m = x -> Z.land (Z.lor (Z.ldiff c m) x) m = x.
Proof. intros H. bitwise. Qed.

Lemma ldiff_field_written (c m x : Z) :
  Z.land x m = x -> Z.ldiff (Z.lor (Z.ldiff c m) x) m = Z.ldiff c m.
Proof. intros H. bitwise. Qed.

Lemma ldiff_field_cleared (c m : Z) :
  Z.land (Z.ldiff c m) m = 0 /\ Z.ldiff (Z.ldiff c m) m = Z.ldiff c m.
Proof. split; bitwise. Qed.

(** ** Live reconfiguration on Linux: what is written *)

(** X17.  For 5 to 8 data bits, [setDataBits] hands to the kernel the
    termios it read with the character-size field of the control flags
    set to the size asked for (CS5 to CS8); every other bit of the
    control flags and every other field is as it was read. *)
Theorem setDataBits_writes (t : Termios) (v : Z) :
  5 <= v <= 8 ->
  exists t' : Termios,
    (forall (K : Kernel) (p : port),
        getTermios p = Ok t -> setDataBits p v = setTermios p t') /\
    Z.land (Cflag t') unix.CSIZE = 16 * (v - 5) /\
    Z.ldiff (Cflag t') unix.CSIZE = Z.ldiff (Cflag t) unix.CSIZE /\
    same_but_Cflag t t'.
Proof.
  intros Hv.
  assert (Hc : v = 5 \/ v = 6 \/ v = 7 \/ v = 8) by lia.
  destruct Hc as [->|[->|[->| ->]]];
    (eexists; split;
     [intros K p Hg; unfold setDataBits; rewrite Hg; cbn; reflexivity|]);
    cbn [Cflag with_Cflag]; unfold set_bits, clear_bits, same_but_Cflag;
    (split; [rewrite land_field_written by reflexivity; reflexivity|]);
    (split; [apply ldiff_field_written; reflexivity|]); repeat split.
Qed.

Lemma setDataBits_writes_witness :
  5 <= 7 <= 8 /\
  exists t' : Termios,
    setDataBits (K := good_kernel)
      {| f := Some 3; fd := 3; r := Some 4; w := Some 5 |} 7
    = setTermios (K := good_kernel)
        {| f := Some 3; fd := 3; r := Some 4; w := Some 5 |} t' /\
    Z.land (Cflag t') unix.CSIZE = unix.CS7.
Proof.
  split; [lia|].
  destruct (setDataBits_writes termios_zero 7) as (t' & Hw & Hb & _); [lia|].
  exists t'. split; [apply (Hw good_kernel); reflexivity|exact Hb].
Defined.

(** X18.  [setParity] refuses mark and space parity.  For every other
    value it hands to the kernel the termios it read with the two parity
    bits of the control flags rewritten and nothing else changed: both
    clear for no parity, PARENB for even, PARENB and PARODD for odd.  A
    value that is none of the five parities is written as no parity,
    without an error. *)
Theorem setParity_writes {X : Gxcommon} (t : Termios) (v : Z) :
  let mask := Z.lor unix.PARENB unix.PARODD in
  let code :=
    if v =? ParityNone then 0
    else if v =? ParityEven then unix.PARENB
    else if v =? ParityOdd then mask
    else 0 in
  let refused :=
    negb (v =? ParityNone) && negb (v =? ParityEven) && negb (v =? ParityOdd)
    && ((v =? ParityMark) || (v =? ParitySpace)) in
  if refused then
    forall (K : Kernel) (p : port),
      getTermios p = Ok t -> setParity p v = Some ErrMarkSpaceParity
  else
    exists t' : Termios,
      (forall (K : Kernel) (p : port),
          getTermios p = Ok t -> setParity p v = setTermios p t') /\
      Z.land (Cflag t') mask = code /\
      Z.ldiff (Cflag t') mask = Z.ldiff (Cflag t) mask /\
      same_but_Cflag t t'.
Proof.
  cbv zeta.
  destruct (v =? ParityNone) eqn:E1; cbn [negb andb].
  { eexists; split;
      [intros K p Hg; unfold setParity; rewrite Hg, E1; reflexivity|].
    cbn [Cflag with_Cflag]; unfold clear_bits, same_but_Cflag.
    destruct (ldiff_field_cleared (Cflag t) (Z.lor unix.PARENB unix.PARODD)).
    repeat split; assumption. }
  destruct (v =? ParityEven) eqn:E2; cbn [negb andb].
  { eexists; split;
      [intros K p Hg; unfold setParity; rewrite Hg, E1, E2; reflexivity|].
    cbn [Cflag with_Cflag]; unfold set_bits, clear_bits, same_but_Cflag.
    split; [apply land_field_written; reflexivity|].
    split; [apply ldiff_field_written; reflexivity|repeat split]. }
  destruct (v =? ParityOdd) eqn:E3; cbn [negb andb].
  { eexists; split;
      [intros K p Hg; unfold setParity; rewrite Hg, E1, E2, E3; reflexivity|].
    cbn [Cflag with_Cflag]; unfold set_bits, clear_bits, same_but_Cflag.
    split; [apply land_field_written; reflexivity|].
    split; [apply ldiff_field_written; reflexivity|repeat split]. }
  destruct ((v =? ParityMark) || (v =? ParitySpace)) eqn:E4.
  { intros K p Hg. unfold setParity. rewrite Hg, E1, E2, E3, E4. reflexivity. }
  eexists; split;
    [intros K p Hg; unfold setParity; rewrite Hg, E1, E2, E3, E4; reflexivity|].
  cbn [Cflag with_Cflag]; unfold clear_bits, same_but_Cflag.
  destruct (ldiff_field_cleared (Cflag t) (Z.lor unix.PARENB unix.PARODD)).
  repeat split; assumption.
Qed.

(** X19.  The stop bits, live and at open time.  [setStopBits] writes
    the termios it read with the CSTOPB flag set when the value is
    [StopBitsOne], and cleared when the value is 0; any other value is
    refused and nothing is written.  [openPort] decides the same flag
    differently: it clears it for 1 stop bit and sets it for 2. *)
Theorem setStopBits_writes {X : Gxcommon} (t : Termios) (v : Z) :
  (if v =? StopBitsOne then
     exists t' : Termios,
       (forall (K : Kernel) (p : port),
           getTermios p = Ok t -> setStopBits p v = setTermios p t') /\
       Z.land (Cflag t') unix.CSTOPB = unix.CSTOPB /\
       Z.ldiff (Cflag t') unix.CSTOPB = Z.ldiff (Cflag t) unix.CSTOPB /\
       same_but_Cflag t t'
   else if v =? 0 then
     exists t' : Termios,
       (forall (K : Kernel) (p : port),
           getTermios p = Ok t -> setStopBits p v = setTermios p t') /\
       Z.land (Cflag t') unix.CSTOPB = 0 /\
       Z.ldiff (Cflag t') unix.CSTOPB = Z.ldiff (Cflag t) unix.CSTOPB /\
       same_but_Cflag t t'
   else
     forall (K : Kernel) (p : port),
       getTermios p = Ok t -> setStopBits p v = Some (ErrInvalidStopBits v)) /\
  (forall c : Z,
      (exists c1, open_stopBits c 1 = Some c1 /\ Z.land c1 unix.CSTOPB = 0) /\
      (exists c2, open_stopBits c 2 = Some c2 /\
                  Z.land c2 unix.CSTOPB = unix.CSTOPB)).
Proof.
  split.
  - destruct (v =? StopBitsOne) eqn:E1.
    { eexists; split;
        [intros K p Hg; unfold setStopBits; rewrite Hg, E1; reflexivity|].
      cbn [Cflag with_Cflag]; unfold set_bits, clear_bits, same_but_Cflag.
      split; [apply land_field_written; reflexivity|].
      split; [apply ldiff_field_written; reflexivity|repeat split]. }
    destruct (v =? 0) eqn:E2.
    { eexists; split;
        [intros K p Hg; unfold setStopBits; rewrite Hg, E1, E2; reflexivity|].
      cbn [Cflag with_Cflag]; unfold clear_bits, same_but_Cflag.
      destruct (ldiff_field_cleared (Cflag t) unix.CSTOPB).
      repeat split; assumption. }
    intros K p Hg. unfold setStopBits. rewrite Hg, E1, E2. reflexivity.
  - intros c. split; eexists; (split; [reflexivity|]);
      unfold clear_bits, set_bits.
    + apply ldiff_field_cleared.
    + apply land_lor_covered. reflexivity.
Qed.

Lemma toUnitBaudrate_supported (v : Z) :
  toUnitBaudrate v <> 0 <-> In v supported_rates.
Proof.
  unfold toUnitBaudrate, toUnitBaudrate_table, supported_rates.
  cbn [map_index].
  repeat match goal with
         | |- context [v =? ?k] =>
             destruct (Z.eqb_spec v k) as [->|?];
             [split; intros Hin;
              [first [ exfalso; apply Hin; reflexivity
                     | cbn [In]; repeat first [left; reflexivity | right] ]
              |first [ vm_compute; discriminate
                     | exfalso; cbn [In] in Hin;
                       repeat (destruct Hin as [Hin|Hin]; [discriminate Hin|]);
                       exact Hin ] ]
             |]
         end.
  split; [intros Hin; exfalso; apply Hin; reflexivity|].
  intros Hin. cbn [In] in Hin.
  repeat (destruct Hin as [Hin|Hin]; [symmetry in Hin; contradiction|]).
  contradiction.
Qed.

(** X20.  [setBaudRate] accepts the seventeen rates from 50 to 115200
    baud of its table and no other: for one of them it writes the
    termios it read with both speeds set to the code of the rate and the
    flags untouched; for any other rate, 0 included, it returns an error
    and writes nothing. *)
Theorem setBaudRate_accepts {K : Kernel} (p : port) (t : Termios) (v : Z) :
  getTermios p = Ok t ->
  (In v supported_rates /\
   toUnitBaudrate v <> 0 /\
   setBaudRate p v = setTermios p (with_speed t (toUnitBaudrate v))) \/
  (~ In v supported_rates /\ setBaudRate p v = Some (ErrUnsupportedBaud v)).
Proof.
  intros Hg. unfold setBaudRate. rewrite Hg. cbv zeta.
  destruct (toUnitBaudrate v =? 0) eqn:E.
  - apply Z.eqb_eq in E. right. split; [|reflexivity].
    intros Hin. apply toUnitBaudrate_supported in Hin. contradiction.
  - apply Z.eqb_neq in E. left. split; [apply toUnitBaudrate_supported, E|].
    split; [exact E|reflexivity].
Qed.

(** ** What openPort programs *)

Section OpenTermiosFacts.
Context {X : Gxcommon}.

(** [openPort] is [open_termios] between the system calls. *)
Lemma openPort_open_termios {K : Kernel} (cfg : GXSerial) (fd0 : Z) (t : Termios) :
  unix_Open (Port cfg) = Ok fd0 ->
  IoctlGetTermios fd0 = Ok t ->
  fst (openPort cfg) =
    match open_termios cfg t with
    | Err err => Some err
    | Ok t' =>
      match IoctlSetTermios fd0 t' with
      | Some err => Some err
      | None =>
        match IoctlSetInt_TCFLSH fd0 with
        | Some err => Some err
        | None => match os_Pipe with Err err => Some err | Ok _ => None end
        end
      end
    end.
Proof.
  intros Ho Hg. unfold openPort, open_termios, close_and_return.
  rewrite Ho, Hg. cbn [dataBits stopBits parity baudRate set_s].
  repeat match goal with
         | |- context [match ?x with _ => _ end] =>
             match x with
             | open_dataBits _ _ => destruct x
             | open_stopBits _ _ => destruct x
             | open_parity _ _ => destruct x
             | IoctlSetTermios _ _ => destruct x
             | IoctlSetInt_TCFLSH _ => destruct x
             | os_Pipe => destruct x as [[? ?]|?]
             end
         end; reflexivity.
Qed.

Lemma open_dataBits_value (c v c' : Z) :
  open_dataBits c v = Some c' -> 5 <= v <= 8 /\ c' = Z.lor c (16 * (v - 5)).
Proof.
  unfold open_dataBits, set_bits.
  destruct (Z.eqb_spec v 5) as [->|?]; [intros [= <-]; split; [lia|reflexivity]|].
  destruct (Z.eqb_spec v 6) as [->|?]; [intros [= <-]; split; [lia|reflexivity]|].
  destruct (Z.eqb_spec v 7) as [->|?]; [intros [= <-]; split; [lia|reflexivity]|].
  destruct (Z.eqb_spec v 8) as [->|?]; [intros [= <-]; split; [lia|reflexivity]|].
  discriminate.
Qed.

Lemma open_stopBits_value (c v c' : Z) :
  open_stopBits c v = Some c' ->
  (v = 1 /\ c' = Z.ldiff c unix.CSTOPB) \/ (v = 2 /\ c' = Z.lor c unix.CSTOPB).
Proof.
  unfold open_stopBits, set_bits, clear_bits.
  destruct (Z.eqb_spec v 1) as [->|?]; [intros [= <-]; left; split; reflexivity|].
  destruct (Z.eqb_spec v 2) as [->|?]; [intros [= <-]; right; split; reflexivity|].
  discriminate.
Qed.

Lemma Ok_inj {A : Type} (a b : A) : Ok a = Ok b -> a = b.
Proof. congruence. Qed.

(** The parity switch touches the three parity flags only, and none of
    them for no parity. *)
Lemma open_parity_frame (c v c' : Z) :
  open_parity c v = Ok c' ->
  (forall m, Z.land parity_flags m = 0 -> Z.land c' m = Z.land c m) /\
  (v = ParityNone -> c' = c).
Proof.
  unfold open_parity, hasCMSPAR, set_bits, clear_bits, parity_flags. cbn [negb].
  destruct (Z.eqb_spec v ParityNone) as [->|Hn].
  { intros [= <-]. split; [reflexivity|reflexivity]. }
  intros H. split; [|intros E; contradiction].
  intros m Hm.
  assert (H1 : Z.land unix.PARENB m = 0 /\ Z.land unix.PARODD m = 0 /\
               Z.land CMSPAR m = 0).
  { repeat split; bitwise. }
  destruct H1 as (Hp & Ho & Hc). clear Hm.
  destruct (v =? ParityEven); [apply Ok_inj in H; subst c'; bitwise|].
  destruct (v =? ParityOdd); [apply Ok_inj in H; subst c'; bitwise|].
  destruct (v =? ParityMark); [apply Ok_inj in H; subst c'; bitwise|].
  destruct (v =? ParitySpace); [apply Ok_inj in H; subst c'; bitwise|discriminate].
Qed.

Lemma parity_flags_cleared (c : Z) :
  Z.land (Z.ldiff (Z.ldiff c (Z.lor unix.PARENB unix.PARODD)) CMSPAR)
    parity_flags = 0.
Proof. unfold parity_flags. bitwise. Qed.

Lemma raw_iflags_cleared (i : Z) :
  Z.land
    (Z.ldiff
       (Z.ldiff
          (Z.ldiff i (Z.lor (Z.lor (Z.lor unix.INLCR unix.IGNCR) unix.ICRNL)
                        unix.IGNBRK))
          (Z.lor unix.INPCK unix.ISTRIP))
       (Z.lor unix.IXON unix.IXOFF))
    raw_iflags = 0.
Proof. unfold raw_iflags. bitwise. Qed.

(** X21.  When the configuration is accepted, the termios [openPort]
    hands to the kernel has: the character size asked for; CSTOPB set
    exactly for two stop bits; CLOCAL and CREAD set; hardware flow
    control (CRTSCTS) off; the parity flags all clear for no parity;
    canonical mode, echo and signals off; output post-processing off;
    input translation, parity checking and software flow control off;
    both speeds at the code of the baud rate.  If the kernel refuses
    this termios, [openPort] fails with the kernel's error. *)
Theorem openPort_programs_raw_mode (cfg : GXSerial) (t t' : Termios) :
  open_termios cfg t = Ok t' ->
  (forall (K : Kernel) (fd0 : Z) (err : error),
      unix_Open (Port cfg) = Ok fd0 -> IoctlGetTermios fd0 = Ok t ->
      IoctlSetTermios fd0 t' = Some err -> fst (openPort cfg) = Some err) /\
  Z.land (Cflag t') unix.CSIZE = 16 * (dataBits cfg - 5) /\
  Z.land (Cflag t') unix.CSTOPB
    = (if stopBits cfg =? 2 then unix.CSTOPB else 0) /\
  Z.land (Cflag t') (Z.lor unix.CLOCAL unix.CREAD)
    = Z.lor unix.CLOCAL unix.CREAD /\
  Z.land (Cflag t') unix.CRTSCTS = 0 /\
  (parity cfg = ParityNone -> Z.land (Cflag t') parity_flags = 0) /\
  Z.land (Lflag t') raw_lflags = 0 /\
  Z.land (Oflag t') raw_oflags = 0 /\
  Z.land (Iflag t') raw_iflags = 0 /\
  Ispeed t' = toUnitBaudrate (baudRate cfg) /\
  Ospeed t' = toUnitBaudrate (baudRate cfg).
Proof.
  intros Ht. split.
  { intros K fd0 err Ho Hg Hs.
    rewrite (openPort_open_termios cfg fd0 t Ho Hg), Ht, Hs. reflexivity. }
  unfold open_termios in Ht. cbv zeta in Ht.
  destruct (open_dataBits _ (dataBits cfg)) as [c1|] eqn:Ed; [|discriminate].
  destruct (open_stopBits c1 (stopBits cfg)) as [c2|] eqn:Es; [|discriminate].
  destruct (open_parity _ (parity cfg)) as [c3|e] eqn:Ep; [|discriminate].
  injection Ht as <-. cbn [Cflag Lflag Oflag Iflag Ispeed Ospeed].
  apply open_dataBits_value in Ed as [Hv ->].
  apply open_parity_frame in Ep as [Hframe Hnone].
  unfold hasCMSPAR, set_bits, clear_bits in *.
  set (c0 := Z.ldiff (Z.lor (Cflag t) (Z.lor unix.CLOCAL unix.CREAD)) unix.CSIZE) in *.
  assert (Hsize : 16 * (dataBits cfg - 5) = unix.CS5 \/
                  16 * (dataBits cfg - 5) = unix.CS6 \/
                  16 * (dataBits cfg - 5) = unix.CS7 \/
                  16 * (dataBits cfg - 5) = unix.CS8).
  { unfold unix.CS5, unix.CS6, unix.CS7, unix.CS8. lia. }
  set (code := 16 * (dataBits cfg - 5)) in *.
  assert (Hcode : Z.land code unix.CSIZE = code /\
                  Z.land code unix.CSTOPB = 0 /\
                  Z.land code (Z.lor unix.CLOCAL unix.CREAD) = 0).
  { destruct Hsize as [->|[->|[->| ->]]]; repeat split. }
  destruct Hcode as (Hc1 & Hc2 & Hc3).
  assert (Hstop : c2 = Z.ldiff (Z.lor c0 code) unix.CSTOPB /\ stopBits cfg = 1 \/
                  c2 = Z.lor (Z.lor c0 code) unix.CSTOPB /\ stopBits cfg = 2).
  { apply open_stopBits_value in Es as [[E ->]|[E ->]]; auto. }
  clear Es.
  split.
  { rewrite land_ldiff_disjoint by reflexivity.
    rewrite Hframe by reflexivity.
    rewrite !land_ldiff_disjoint by reflexivity.
    destruct Hstop as [[-> _]|[-> _]];
      [rewrite land_ldiff_disjoint by reflexivity
      |rewrite land_lor_disjoint by reflexivity];
      unfold c0; apply land_field_written, Hc1. }
  split.
  { rewrite land_ldiff_disjoint by reflexivity.
    rewrite Hframe by reflexivity.
    rewrite !land_ldiff_disjoint by reflexivity.
    destruct Hstop as [[-> ->]|[-> ->]]; cbn [Z.eqb Pos.eqb].
    - apply land_ldiff_covered. reflexivity.
    - apply land_lor_covered. reflexivity. }
  split.
  { rewrite land_ldiff_disjoint by reflexivity.
    rewrite Hframe by reflexivity.
    rewrite !land_ldiff_disjoint by reflexivity.
    destruct Hstop as [[-> _]|[-> _]];
      [rewrite land_ldiff_disjoint by reflexivity
      |rewrite land_lor_disjoint by reflexivity];
      rewrite (land_lor_disjoint c0 code) by exact Hc3;
      unfold c0; rewrite land_ldiff_disjoint by reflexivity;
      apply land_lor_covered; reflexivity. }
  split; [apply land_ldiff_covered; reflexivity|].
  split.
  { intros Hp. rewrite (Hnone Hp).
    rewrite land_ldiff_disjoint by reflexivity.
    apply parity_flags_cleared. }
  split; [apply land_ldiff_covered; reflexivity|].
  split; [apply land_ldiff_covered; reflexivity|].
  split; [|split; reflexivity].
  apply raw_iflags_cleared.
Qed.
End OpenTermiosFacts.

(** ** More about Open, trace and Send *)

Section MoreTransportFacts.
Context {X : Gxcommon} {K : Kernel}.

(** X22.  When the device opens and takes the settings but the flush of
    its input queue fails, [Open] returns the error of the flush and has
    started no reader, yet the port is left open, without its pipe.  The
    transport then counts as open: the next [Open] returns the nil
    error at once, calls no handler and starts no reader either. *)
Theorem Open_flush_failure (g : GXSerial) (fd0 : Z) (t : Termios) (err : error) :
  isOpen (s g) = false ->
  unix_Open (Port g) = Ok fd0 ->
  IoctlGetTermios fd0 = Ok t ->
  (forall t', IoctlSetTermios fd0 t' = None) ->
  IoctlSetInt_TCFLSH fd0 = Some err ->
  5 <= dataBits g <= 8 -> stopBits g = 1 \/ stopBits g = 2 ->
  known_parity (parity g) ->
  let g1 := snd (fst (Open g)) in
  fst (fst (Open g)) = Some err /\
  isOpen (s g1) = true /\ r (s g1) = None /\ w (s g1) = None /\
  wg g1 = wg g /\
  Open g1 = (None, g1, []).
Proof.
  intros Hc Ho Hg Hset Hfl Hd Hs Hp g1.
  assert (Hopen : openPort g
                  = (Some err, set_s g {| f := Some fd0; fd := fd0;
                                          r := None; w := None |})).
  { unfold openPort, close_and_return. rewrite Ho, Hg.
    cbn [dataBits stopBits parity baudRate set_s].
    match goal with |- context [open_dataBits ?a ?b] =>
      destruct (proj2 (open_dataBits_some a b) Hd) as [c1 ->] end.
    match goal with |- context [open_stopBits ?a ?b] =>
      destruct (proj2 (open_stopBits_some a b) Hs) as [c2 ->] end.
    match goal with |- context [open_parity ?a ?b] =>
      destruct (proj2 (open_parity_ok a b) Hp) as [c3 ->] end.
    rewrite Hset, Hfl. reflexivity. }
  assert (Hg1 : Open g = (Some err,
                          set_s g {| f := Some fd0; fd := fd0; r := None; w := None |},
                          snd (Open g))).
  { unfold Open. rewrite Hc, Hopen. reflexivity. }
  unfold g1. rewrite Hg1. cbn [fst snd s set_s isOpen f r w wg].
  repeat split.
Qed.

(** X23.  Raising the trace level never loses a trace: what [trace] and
    [tracef] dispatch at a level they dispatch, unchanged, at every
    higher level.  At a level below the type of the event, and without a
    registered handler, they dispatch nothing. *)
Theorem trace_level_monotone (g : GXSerial) (lock : bool) (traceType : Z)
    (text : message) (level level' : Z) :
  level <= level' ->
  let low := snd (SetTrace g level) in
  let high := snd (SetTrace g level') in
  (trace low lock traceType text <> [] ->
   trace high lock traceType text = trace low lock traceType text) /\
  (tracef low lock traceType text <> [] ->
   tracef high lock traceType text = tracef low lock traceType text) /\
  (level' < traceType -> trace high lock traceType text = []) /\
  (onTrace g = false -> trace high lock traceType text = []).
Proof.
  intros Hl low high.
  assert (Hlow : trace low lock traceType text
                 = if onTrace g && (traceType <=? level)
                   then [OnTrace traceType text] else [])
    by (rewrite trace_cases; reflexivity).
  assert (Hhigh : trace high lock traceType text
                  = if onTrace g && (traceType <=? level')
                    then [OnTrace traceType text] else [])
    by (rewrite trace_cases; reflexivity).
  change (tracef low lock traceType text) with (trace low lock traceType text).
  change (tracef high lock traceType text) with (trace high lock traceType text).
  rewrite Hlow, Hhigh.
  destruct (onTrace g); cbn [andb].
  - destruct (traceType <=? level) eqn:E1;
      destruct (traceType <=? level') eqn:E2;
      try apply Z.leb_le in E1; try apply Z.leb_gt in E1;
      try apply Z.leb_le in E2; try apply Z.leb_gt in E2;
      repeat split; intros; try reflexivity; try contradiction;
      try discriminate; lia.
  - repeat split; intros; try reflexivity; contradiction.
Qed.

Lemma Send_frame (g : GXSerial) (data : option value) (receiver : string) :
  let g' := snd (fst (Send g data receiver)) in
  g' = set_bytesSent g (wrap_uint64 (bytesSent g + encoded_len data)) \/
  (g' = g /\ exists err, ToBytes data = Err err).
Proof.
  unfold Send, encoded_len. destruct (ToBytes data) as [tmp|err].
  - left. destruct (ToString data); [|reflexivity].
    cbn [s set_bytesSent]. destruct (port_write (s g) tmp); reflexivity.
  - right. split; [reflexivity|eauto].
Qed.

Lemma wrap_uint64_range (z : Z) : 0 <= wrap_uint64 z < 2 ^ 64.
Proof. unfold wrap_uint64. apply Z.mod_pos_bound. lia. Qed.

Lemma wrap_uint64_small (z : Z) : 0 <= z < 2 ^ 64 -> wrap_uint64 z = z.
Proof. unfold wrap_uint64. apply Z.mod_small. Qed.

(** X24.  Over any run of [Send] calls the counter of sent bytes grows by
    the encoded lengths of the values that [ToBytes] could encode, in
    [uint64] arithmetic, whether or not the writes succeeded; nothing
    else of the transport changes.  After [ResetByteCounters] both
    counters are zero, so the counter then holds that sum. *)
Theorem Sends_count (datas : list (option value)) (g : GXSerial) :
  0 <= GetBytesSent g < 2 ^ 64 ->
  Sends g datas
  = set_bytesSent g
      (wrap_uint64 (GetBytesSent g + list_sum_Z (map encoded_len datas))) /\
  GetBytesSent (Sends (ResetByteCounters g) datas)
  = wrap_uint64 (list_sum_Z (map encoded_len datas)) /\
  GetBytesReceived (Sends (ResetByteCounters g) datas) = 0.
Proof.
  unfold GetBytesSent, GetBytesReceived.
  assert (Hgen : forall (l : list (option value)) (h : GXSerial),
             0 <= bytesSent h < 2 ^ 64 ->
             Sends h l
             = set_bytesSent h
                 (wrap_uint64 (bytesSent h + list_sum_Z (map encoded_len l)))).
  { induction l as [|d l IH]; intros h Hr; cbn [Sends map list_sum_Z].
    - rewrite Z.add_0_r, wrap_uint64_small by exact Hr. destruct h; reflexivity.
    - destruct (Send_frame h d EmptyString) as [E|[E [err He]]]; cbv zeta in E;
        rewrite E.
      + rewrite IH by (cbn [bytesSent set_bytesSent]; apply wrap_uint64_range).
        cbn [bytesSent set_bytesSent]. rewrite wrap_uint64_add.
        unfold set_bytesSent; cbn. do 2 f_equal. lia.
      + rewrite IH by exact Hr. unfold encoded_len at 2. rewrite He.
        reflexivity. }
  intros Hr. split; [apply Hgen, Hr|].
  rewrite Hgen by (cbn; lia). split; reflexivity.
Qed.
End MoreTransportFacts.

Section ReopenFacts.
Context {X : Gxcommon} {K : Kernel}.

(** Whether [openPort] succeeds depends on the port name and the four
    line settings only. *)
Lemma openPort_depends_on_config (cfg cfg' : GXSerial) :
  Port cfg' = Port cfg -> baudRate cfg' = baudRate cfg ->
  dataBits cfg' = dataBits cfg -> stopBits cfg' = stopBits cfg ->
  parity cfg' = parity cfg ->
  fst (openPort cfg') = fst (openPort cfg).
Proof.
  intros Hp Hb Hd Hs Hy. unfold openPort, close_and_return.
  rewrite Hp. destruct (unix_Open (Port cfg)) as [fd0|e]; [|reflexivity].
  destruct (IoctlGetTermios fd0) as [t|e]; [|reflexivity].
  cbn [dataBits stopBits parity baudRate set_s]. rewrite Hb, Hd, Hs, Hy.
  repeat match goal with
         | |- context [match ?x with _ => _ end] =>
             match x with
             | open_dataBits _ _ => destruct x
             | open_stopBits _ _ => destruct x
             | open_parity _ _ => destruct x
             | IoctlSetTermios _ _ => destruct x
             | IoctlSetInt_TCFLSH _ => destruct x
             | os_Pipe => destruct x as [[? ?]|?]
             end
         end; reflexivity.
Qed.

(** The reader that gets nothing and then a failed read exits. *)
Lemma reader_during_Close_idle (g : GXSerial) (idle : nat) (err : error)
    (rest : list (result (list byte))) :
  stop g <> chan_closed ->
  reader_during_Close g (repeat (Ok []) idle ++ Err err :: rest)
  = (reader_exit g,
     match stop g with
     | chan_nil => []
     | _ => tracef_reader g false TraceTypesError (msg_connection_failed err)
            ++ map Called (errorf g false err)
     end,
     true).
Proof.
  intros Hs. induction idle as [|n IH]; cbn [repeat app reader_during_Close].
  - reflexivity.
  - cbn [len List.length Z.of_nat Z.eqb negb].
    destruct (stop g); try contradiction; exact IH.
Qed.

(** The reader that gets bytes while [Close] holds the lock counts them
    and never exits. *)
Lemma reader_during_Close_data (g : GXSerial) (idle : nat) (data : list byte)
    (rest : list (result (list byte))) :
  stop g <> chan_closed -> data <> [] ->
  reader_during_Close g (repeat (Ok []) idle ++ Ok data :: rest)
  = (set_bytesReceived g (wrap_uint64 (bytesReceived g + len data)), [], false).
Proof.
  intros Hs Hd. induction idle as [|n IH]; cbn [repeat app reader_during_Close].
  - replace (len data =? 0) with false; [reflexivity|].
    symmetry. apply Z.eqb_neq. intros H. apply len_nil_iff in H. contradiction.
  - cbn [len List.length Z.of_nat Z.eqb negb].
    destruct (stop g); try contradiction; exact IH.
Qed.

(** X25.  [Close] undoes [Open], as long as the reader is idle.  After
    an [Open] that succeeded on a closed transport with no reader, let
    the reader get no bytes while [Close] runs and let one of its reads
    fail, as a read does once the port is closed.  Then the reader
    exits, and [Close] returns the nil error, whatever the close of the
    descriptor returns; it leaves the port closed, no reader to wait
    for and the configuration as it was.  As long as the device answers
    as before, the next [Open] succeeds again and starts one reader. *)
Theorem Open_Close_Open (g : GXSerial) (idle : nat) (err : error)
    (rest : list (result (list byte))) :
  isOpen (s g) = false ->
  wg g = 0%nat ->
  stop g <> chan_closed ->
  fst (fst (Open g)) = None ->
  let reads := repeat (Ok []) idle ++ Err err :: rest in
  let g1 := snd (fst (Open g)) in
  let g2 := snd (fst (Close g1 reads)) in
  let g3 := snd (fst (Open g2)) in
  fst (fst (Close g1 reads)) = Returns None /\
  isOpen (s g2) = false /\ wg g2 = 0%nat /\
  (Port g2, baudRate g2, dataBits g2, stopBits g2, parity g2)
  = (Port g, baudRate g, dataBits g, stopBits g, parity g) /\
  fst (fst (Open g2)) = None /\
  isOpen (s g3) = true /\ wg g3 = 1%nat.
Proof.
  intros Hc Hwg Hstop Hok reads g1 g2 g3.
  assert (Hopen : fst (openPort g) = None).
  { unfold Open in Hok. rewrite Hc in Hok.
    destruct (openPort g) as [[e|] g']; [discriminate|reflexivity]. }
  destruct (openPort_frame g) as [p Hp].
  assert (Hg1 : g1 = set_wg (set_s g p) 1).
  { unfold g1, Open. rewrite Hc.
    destruct (openPort g) as [[e|] g']; [discriminate|].
    cbn [snd] in Hp. subst g'. cbn [fst snd wg set_s]. rewrite Hwg. reflexivity. }
  set (gc := set_s g1 (snd (port_close (s g1)))).
  assert (Hsc : stop gc <> chan_closed) by (unfold gc; rewrite Hg1; exact Hstop).
  assert (Hwait : wg_Wait gc reads = (set_wg gc 0, true)).
  { unfold wg_Wait. replace (wg gc) with 1%nat by (unfold gc; rewrite Hg1; reflexivity).
    unfold reads. rewrite (reader_during_Close_idle gc idle err rest Hsc).
    unfold reader_exit.
    replace (wg gc) with 1%nat by (unfold gc; rewrite Hg1; reflexivity).
    reflexivity. }
  assert (Hclose : fst (Close g1 reads) = (Returns None, set_wg gc 0)).
  { unfold Close. fold gc.
    assert (Hs1 : stop g1 <> chan_closed) by (rewrite Hg1; exact Hstop).
    destruct (stop g1); try contradiction; rewrite Hwait; reflexivity. }
  assert (Hg2 : g2 = set_wg (set_s g (snd (port_close p))) 0).
  { unfold g2. rewrite Hclose. unfold gc. rewrite Hg1. reflexivity. }
  assert (Hc2 : isOpen (s g2) = false).
  { rewrite Hg2. cbn [s set_wg set_s]. apply port_close_closed. }
  assert (Hopen2 : fst (openPort g2) = None).
  { rewrite <- Hopen. apply openPort_depends_on_config; rewrite Hg2; reflexivity. }
  split; [rewrite Hclose; reflexivity|]. split; [exact Hc2|].
  split; [rewrite Hg2; reflexivity|]. split; [rewrite Hg2; reflexivity|].
  assert (Hg3 : fst (fst (Open g2)) = None /\
                g3 = set_wg (snd (openPort g2)) (S (wg (snd (openPort g2))))).
  { unfold g3, Open. rewrite Hc2.
    destruct (openPort g2) as [[e|] g']; [discriminate|split; reflexivity]. }
  destruct Hg3 as [Hr Hg3]. split; [exact Hr|].
  destruct (openPort_success g2 Hopen2) as (fd0 & pr & pw & _ & Hs).
  rewrite Hg3, Hs, Hg2. split; reflexivity.
Qed.

(** X29.  [Close] does not return while the reader has bytes in hand.
    On a transport with a running reader, let the reader get bytes
    while [Close] holds [g.mu], before any of its reads fails.  [Close]
    has then closed the port and made its handler calls, the last one
    the state handler with Closed.  The reader has counted the bytes,
    but it waits for the lock and never leaves the wait group: the call
    stays in [g.wg.Wait()], and the counter of the wait group is as it
    was. *)
Theorem Close_blocks_on_received_bytes (g : GXSerial) (idle : nat)
    (data : list byte) (rest : list (result (list byte))) :
  wg g <> 0%nat ->
  stop g <> chan_closed ->
  data <> [] ->
  let reads := repeat (Ok []) idle ++ Ok data :: rest in
  let closed := Close g reads in
  fst (fst closed) = Blocks /\
  isOpen (s (snd (fst closed))) = false /\
  wg (snd (fst closed)) = wg g /\
  GetBytesReceived (snd (fst closed))
  = wrap_uint64 (GetBytesReceived g + len data) /\
  snd closed
  = (if isOpen (s g) then
       trace g false TraceTypesInfo (msg_closing_connection (Port g))
       ++ statef g false MediaStateClosing
     else [])
    ++ trace g false TraceTypesInfo (msg_connection_closed (Port g))
    ++ statef g false MediaStateClosed.
Proof.
  intros Hwg Hstop Hd reads closed.
  set (gc := set_s g (snd (port_close (s g)))).
  assert (Hsc : stop gc <> chan_closed) by exact Hstop.
  assert (Hwait : wg_Wait gc reads
                  = (set_bytesReceived gc
                       (wrap_uint64 (bytesReceived gc + len data)), false)).
  { unfold wg_Wait. change (wg gc) with (wg g).
    destruct (wg g) as [|n]; [contradiction|].
    unfold reads. rewrite (reader_during_Close_data gc idle data rest Hsc Hd).
    reflexivity. }
  assert (Hclose : fst closed
                   = (Blocks, set_bytesReceived gc
                                (wrap_uint64 (bytesReceived gc + len data)))).
  { unfold closed, Close. fold gc.
    destruct (stop g); try contradiction; rewrite Hwait; reflexivity. }
  split; [rewrite Hclose; reflexivity|].
  split; [rewrite Hclose; cbn [snd]; apply port_close_closed|].
  split; [rewrite Hclose; reflexivity|].
  split; [rewrite Hclose; reflexivity|].
  unfold closed. rewrite Close_calls.
  destruct (stop g); try contradiction; reflexivity.
Qed.
End ReopenFacts.

(** ** Stop bits written and read back *)

Lemma land_set_clear (c m : Z) :
  Z.land (Z.lor (Z.ldiff c m) m) m = m.
Proof. bitwise. Qed.

Lemma land_clear (c m : Z) : Z.land (Z.ldiff c m) m = 0.
Proof. bitwise. Qed.

(** X26.  On Linux the stop bits read back as 1 exactly when
    [StopBitsOne] was set: after [setStopBits] with [StopBitsOne] or 0
    wrote its termios, [getStopBits] on a port whose termios is the one
    written returns 1 for [StopBitsOne] and 0 for 0, with the nil
    error. *)
Theorem setStopBits_then_getStopBits {X : Gxcommon} (t : Termios) (v : Z) :
  v = StopBitsOne \/ v = 0 ->
  exists t' : Termios,
    (forall (K : Kernel) (p : port),
        getTermios p = Ok t -> setStopBits p v = setTermios p t') /\
    (forall (K : Kernel) (p : port),
        getTermios p = Ok t' ->
        getStopBits p = ((if v =? StopBitsOne then 1 else 0), None)).
Proof.
  intros Hv. destruct (v =? StopBitsOne) eqn:E1.
  - eexists. split.
    + intros K p Hg. unfold setStopBits. rewrite Hg, E1. reflexivity.
    + intros K p Hg. unfold getStopBits. rewrite Hg.
      cbn [Cflag with_Cflag]. unfold set_bits, clear_bits.
      rewrite land_set_clear. reflexivity.
  - assert (v = 0) as -> by (destruct Hv as [->| ->];
      [rewrite Z.eqb_refl in E1; discriminate|reflexivity]).
    eexists. split.
    + intros K p Hg. unfold setStopBits. rewrite Hg, E1. reflexivity.
    + intros K p Hg. unfold getStopBits. rewrite Hg.
      cbn [Cflag with_Cflag]. unfold clear_bits.
      rewrite land_clear. reflexivity.
Qed.

(** X27.  On Darwin the stop bits make a round trip.  [setStopBits]
    with [StopBitsOne] or [StopBitsTwo] writes the termios it read with
    CSTOPB set exactly for [StopBitsTwo] and nothing else changed, and
    [getStopBits] on a port whose termios is the one written returns 2
    for [StopBitsTwo] and 1 for [StopBitsOne]; any other value is
    refused and nothing is written. *)
Theorem darwin_stopBits_round_trip {X : Gxcommon} (t : Termios) (v : Z) :
  (v = StopBitsOne \/ v = StopBitsTwo ->
   exists t' : Termios,
     (forall (K : Kernel) (p : port),
         getTermios p = Ok t ->
         darwin.setStopBits p v = darwin.returned (setTermios p t')) /\
     (forall (K : Kernel) (p : port),
         getTermios p = Ok t' ->
         darwin.getStopBits p = ((if v =? StopBitsTwo then 2 else 1), None)) /\
     Z.ldiff (Cflag t') darwin.CSTOPB = Z.ldiff (Cflag t) darwin.CSTOPB /\
     same_but_Cflag t t') /\
  (v <> StopBitsOne -> v <> StopBitsTwo ->
   forall (K : Kernel) (p : port),
     getTermios p = Ok t ->
     darwin.setStopBits p v = Some (darwin.ErrSetStopBitsInvalid v)).
Proof.
  split.
  - intros Hv. destruct (v =? StopBitsTwo) eqn:E2.
    + eexists. split; [|split; [|split]].
      * intros K p Hg. unfold darwin.setStopBits. rewrite Hg, E2. reflexivity.
      * intros K p Hg. unfold darwin.getStopBits. rewrite Hg.
        cbn [Cflag with_Cflag]. unfold set_bits, clear_bits.
        rewrite land_set_clear. reflexivity.
      * cbn [Cflag with_Cflag]. unfold set_bits, clear_bits.
        apply ldiff_field_written. reflexivity.
      * repeat split.
    + assert (E1 : (v =? StopBitsOne) = true).
      { destruct Hv as [->| ->]; [apply Z.eqb_refl|].
        rewrite Z.eqb_refl in E2. discriminate. }
      eexists. split; [|split; [|split]].
      * intros K p Hg. unfold darwin.setStopBits. rewrite Hg, E2, E1.
        reflexivity.
      * intros K p Hg. unfold darwin.getStopBits. rewrite Hg.
        cbn [Cflag with_Cflag]. unfold clear_bits.
        rewrite land_clear. reflexivity.
      * cbn [Cflag with_Cflag]. unfold clear_bits.
        apply ldiff_field_cleared.
      * repeat split.
  - intros H1 H2 K p Hg. unfold darwin.setStopBits. rewrite Hg.
    apply Z.eqb_neq in H1, H2. rewrite H1, H2. reflexivity.
Qed.

Lemma darwin_stopBits_round_trip_witness :
  (2 = @StopBitsOne bytes_gxcommon \/ 2 = @StopBitsTwo bytes_gxcommon) /\
  (3 <> @StopBitsOne bytes_gxcommon /\ 3 <> @StopBitsTwo bytes_gxcommon) /\
  (exists t' : Termios,
     @darwin.getStopBits
       {| unix_Open := fun _ => Ok 3;
          IoctlGetTermios := fun _ => Ok t';
          IoctlSetTermios := fun _ _ => None;
          IoctlSetInt_TCFLSH := fun _ => None;
          os_Pipe := Ok (4, 5);
          file_Close := fun _ => None;
          file_Write := fun _ data => (len data, None) |}
       {| f := Some 3; fd := 3; r := Some 4; w := Some 5 |} = (2, None)) /\
  @darwin.setStopBits bytes_gxcommon good_kernel
    {| f := Some 3; fd := 3; r := Some 4; w := Some 5 |} 3
  = Some (darwin.ErrSetStopBitsInvalid 3).
Proof.
  split; [right; reflexivity|]. split; [split; discriminate|].
  destruct (@darwin_stopBits_round_trip bytes_gxcommon termios_zero 2)
    as [Hset _].
  destruct (@darwin_stopBits_round_trip bytes_gxcommon termios_zero 3)
    as [_ Hrefuse].
  split.
  - destruct Hset as (t' & _ & Hr & _); [right; reflexivity|].
    exists t'. apply Hr. reflexivity.
  - apply Hrefuse; [discriminate|discriminate|reflexivity].
Defined.

(** ** The settings of the Windows port *)

Lemma flags_written (fl B P N E A R D : Z) (on : bool) :
  Z.land B N = 0 -> Z.land B E = 0 -> Z.land B A = 0 ->
  Z.land B R = 0 -> Z.land B D = 0 ->
  Z.land P N = 0 -> Z.land P E = 0 -> Z.land P A = 0 ->
  Z.land P R = 0 -> Z.land P D = 0 ->
  Z.land
    (Z.lor
       (Z.ldiff
          (Z.lor
             (Z.ldiff
                (Z.ldiff
                   (Z.ldiff
                      (Z.ldiff
                         (Z.lor
                            (if on then Z.lor fl P else Z.ldiff fl P) B)
                         N) E) A) R) 0) D) 0)
    (Z.lor (Z.lor (Z.lor (Z.lor (Z.lor (Z.lor B P) N) E) A) R) D)
  = (if on then Z.lor B P else B).
Proof. intros H1 H2 H3 H4 H5 H6 H7 H8 H9 H10. destruct on; bitwise. Qed.

Lemma flags_kept (fl B P N E A R D : Z) (on : bool) :
  Z.ldiff
    (Z.lor
       (Z.ldiff
          (Z.lor
             (Z.ldiff
                (Z.ldiff
                   (Z.ldiff
                      (Z.ldiff
                         (Z.lor
                            (if on then Z.lor fl P else Z.ldiff fl P) B)
                         N) E) A) R) 0) D) 0)
    (Z.lor (Z.lor (Z.lor (Z.lor (Z.lor (Z.lor B P) N) E) A) R) D)
  = Z.ldiff fl
      (Z.lor (Z.lor (Z.lor (Z.lor (Z.lor (Z.lor B P) N) E) A) R) D).
Proof. destruct on; bitwise. Qed.

(** X28.  What [updateSettings] programs on Windows.  With stop bits
    [StopBitsOne] or [StopBitsTwo], the DCB handed to [SetCommState]
    has the baud rate truncated to 32 bits, the data bits and the
    parity truncated to a byte (no value is refused), the stop-bit code
    0 for one and 2 for two stop bits, the XON and XOFF characters 0x11
    and 0x13, and in its flags: binary mode on, parity checking on
    exactly when the parity byte is not zero, null stripping, error
    character replacement and abort-on-error off, RTS and DTR control
    disabled, every other flag bit as it was read. *)
Theorem updateSettings_writes {X : Gxcommon} (cfg : GXSerial)
    (d : windows.DCB) :
  stopBits cfg = StopBitsOne \/ stopBits cfg = StopBitsTwo ->
  exists d' : windows.DCB,
    (forall (K : windows.Kernel32) (p : windows.port),
        windows.getCommState p = inl d ->
        windows.updateSettings p cfg = windows.setCommState p d') /\
    windows.BaudRate d' = baudRate cfg mod 2 ^ 32 /\
    windows.ByteSize d' = dataBits cfg mod 256 /\
    windows.Parity d' = parity cfg mod 256 /\
    windows.StopBits d' = (if stopBits cfg =? StopBitsOne then 0 else 2) /\
    windows.XonChar d' = 0x11 /\ windows.XoffChar d' = 0x13 /\
    Z.land (windows.Flags d') windows.settings_flags
    = (if parity cfg mod 256 =? 0 then windows.dcbFBinary
       else Z.lor windows.dcbFBinary windows.dcbFParity) /\
    Z.ldiff (windows.Flags d') windows.settings_flags
    = Z.ldiff (windows.Flags d) windows.settings_flags.
Proof.
  intros Hv.
  assert (Hflags : forall (fl : Z) (on : bool),
    let fl' :=
      Z.lor
        (Z.ldiff
           (Z.lor
              (Z.ldiff
                 (Z.ldiff
                    (Z.ldiff
                       (Z.ldiff
                          (Z.lor
                             (if on then Z.lor fl windows.dcbFParity
                              else Z.ldiff fl windows.dcbFParity)
                             windows.dcbFBinary)
                          windows.dcbFNull) windows.dcbFErrorChar)
                    windows.dcbFAbortOnError) windows.dcbFRtsControlMask) 0)
           windows.dcbFDtrControlMask) 0 in
    Z.land fl' windows.settings_flags
    = (if on then Z.lor windows.dcbFBinary windows.dcbFParity
       else windows.dcbFBinary) /\
    Z.ldiff fl' windows.settings_flags = Z.ldiff fl windows.settings_flags).
  { intros fl on. split.
    - apply flags_written; reflexivity.
    - apply flags_kept. }
  assert (Hd : forall d0 : windows.DCB,
    let d1 := windows.with_Parity
                (windows.with_ByteSize
                   (windows.with_BaudRate d (windows.to_uint32 (baudRate cfg)))
                   (windows.to_byte (dataBits cfg)))
                (windows.to_byte (parity cfg)) in
    forall code : Z,
    let d' :=
      windows.setDtrControl
        (windows.setRtsControl
           (windows.with_XonXoff
              (windows.setAbortOnError
                 (windows.setErrorChar
                    (windows.setNull
                       (windows.setBinary
                          (windows.setParityCheck
                             (windows.with_StopBits d1 code)
                             (negb (windows.Parity
                                      (windows.with_StopBits d1 code) =? 0)))
                          true) false) false) false)
              windows.xon windows.xoff) windows.rtsControlDisable)
        windows.dtrControlDisable in
    windows.BaudRate d' = baudRate cfg mod 2 ^ 32 /\
    windows.ByteSize d' = dataBits cfg mod 256 /\
    windows.Parity d' = parity cfg mod 256 /\
    windows.StopBits d' = code /\
    windows.XonChar d' = 0x11 /\ windows.XoffChar d' = 0x13 /\
    Z.land (windows.Flags d') windows.settings_flags
    = (if parity cfg mod 256 =? 0 then windows.dcbFBinary
       else Z.lor windows.dcbFBinary windows.dcbFParity) /\
    Z.ldiff (windows.Flags d') windows.settings_flags
    = Z.ldiff (windows.Flags d) windows.settings_flags).
  { intros _ d1 code d'.
    repeat (split; [reflexivity|]).
    specialize (Hflags (windows.Flags d) (negb (parity cfg mod 256 =? 0))).
    destruct Hflags as [Hw Hk]. split.
    - transitivity (if negb (parity cfg mod 256 =? 0)
                    then Z.lor windows.dcbFBinary windows.dcbFParity
                    else windows.dcbFBinary); [exact Hw|].
      destruct (parity cfg mod 256 =? 0); reflexivity.
    - exact Hk. }
  destruct (stopBits cfg =? StopBitsOne) eqn:E1.
  - eexists. split.
    + intros K p Hg. unfold windows.updateSettings. rewrite Hg, E1.
      cbv zeta. reflexivity.
    + apply (Hd d 0).
  - assert (E2 : (stopBits cfg =? StopBitsTwo) = true).
    { destruct Hv as [Hv|Hv]; [rewrite Hv, Z.eqb_refl in E1; discriminate|].
      rewrite Hv. apply Z.eqb_refl. }
    eexists. split.
    + intros K p Hg. unfold windows.updateSettings. rewrite Hg, E1, E2.
      cbv zeta. reflexivity.
    + apply (Hd d 2).
Qed.

(** ** The properties above on the sample transport and devices *)

Lemma Receive_drains_matched_span_witness :
  let args := receive_args (Some (bytes_of "C")) 0 false 1000 in
  fst (Search (bytes_of "C") 0 1000 (received serial_ABCDE) []) <> -1 /\
  exists before,
    firstn 3 (bytes_of "ABCDE") = before ++ bytes_of "C" /\
    Index (bytes_of "ABCDE") (bytes_of "C") = len before.
Proof.
  intros args.
  assert (Hf : fst (Search (bytes_of "C") 0 1000 (received serial_ABCDE) [])
               <> -1) by (vm_compute; discriminate).
  split; [exact Hf|].
  destruct (Receive_drains_matched_span serial_ABCDE args [] (bytes_of "C"))
    as (_ & _ & H).
  - left; discriminate.
  - reflexivity.
  - reflexivity.
  - exact Hf.
  - exact H.
Defined.

Lemma Receive_all_data_drains_witness :
  let args := receive_args (Some (bytes_of "C")) 0 true 1000 in
  exists g' args',
    Receive serial_ABCDE args [] = Some (true, None, g', args') /\
    Reply args' = Some (bytes_of "ABCDE") /\
    buf (received g') = [].
Proof.
  intros args.
  destruct (Receive_all_data_drains serial_ABCDE args [] (bytes_of "C"))
    as (k & reply & err & g' & args' & Hr & Hd & Hreply & Hb).
  - reflexivity.
  - reflexivity.
  - vm_compute; discriminate.
  - exists g', args'. cbn in Hd. rewrite firstn_nil in Hd.
    injection Hd as <- <-.
    split; [exact Hr|]. split; [exact Hreply|exact Hb].
Defined.

Lemma reader_routes_witness :
  let g := fst (GetSynchronous serial0) in
  let run := reader (B := bytes_values) g
               [Ok (bytes_of "AB"); Ok []; Ok (bytes_of "C")] in
  stop g <> chan_closed /\
  snd run = false /\
  GetBytesReceived (fst (fst run)) = 3 /\
  buf (received (fst (fst run))) = bytes_of "ABC".
Proof.
  intros g run.
  assert (Hs : stop g <> chan_closed) by discriminate.
  split; [exact Hs|].
  destruct (reader_routes (B := bytes_values)
              [bytes_of "AB"; []; bytes_of "C"] g Hs)
    as (Hrun & Hcount & Hsync & _).
  - cbn. lia.
  - split; [exact Hrun|]. split; [exact Hcount|].
    destruct (Hsync eq_refl) as [Hb _]. exact Hb.
Defined.

Lemma reader_stops_at_error_witness :
  let run := reader (B := bytes_values) serial0
               [Ok (bytes_of "AB"); Err (ErrErrno 5); Ok (bytes_of "C")] in
  stop serial0 <> chan_closed /\
  snd run = true /\
  wg (fst (fst run)) = 0%nat.
Proof.
  intros run.
  assert (Hs : stop serial0 <> chan_closed) by discriminate.
  split; [exact Hs|].
  destruct (reader_stops_at_error (B := bytes_values) [bytes_of "AB"]
              (ErrErrno 5) [Ok (bytes_of "C")] serial0 Hs)
    as (Hrun & _ & Hwg & _).
  split; [exact Hrun|exact Hwg].
Defined.

Lemma handleData_then_Receive_witness :
  let args := receive_args (Some (bytes_of "C")) 0 false 1000 in
  let g1 := fst (handleData (B := bytes_values)
                   (fst (GetSynchronous serial0)) (bytes_of "ABCDE")) in
  exists g2 args',
    Receive g1 args [] = Some (true, None, g2, args') /\
    Reply args' = Some (bytes_of "ABC") /\
    buf (received g2) = bytes_of "DE".
Proof.
  intros args g1.
  destruct (handleData_then_Receive (B := bytes_values) serial0
              (bytes_of "ABCDE") args (bytes_of "C"))
    as (_ & Hr & _).
  - left; discriminate.
  - reflexivity.
  - discriminate.
  - reflexivity.
  - cbn. lia.
  - vm_compute. discriminate.
  - do 2 eexists. split; [exact Hr|]. split; reflexivity.
Defined.

Lemma Open_then_Open_witness :
  let g1 := snd (fst (Open (K := good_kernel) serial0)) in
  fst (fst (Open (K := good_kernel) serial0)) = None /\
  s g1 = {| f := Some 3; fd := 3; r := Some 4; w := Some 5 |} /\
  wg g1 = 1%nat /\
  Open (K := good_kernel) g1 = (None, g1, []).
Proof.
  intros g1. split; [reflexivity|]. split; [reflexivity|].
  destruct (Open_then_Open (K := good_kernel) serial0 eq_refl)
    as (_ & Hwg & _ & Hagain).
  split; [exact Hwg|exact Hagain].
Defined.

Lemma Open_failure_witness :
  let opened := Open (K := broken_kernel) serial0 in
  isOpen (s serial0) = false /\
  fst (openPort (K := broken_kernel) serial0) = Some (ErrErrno 5) /\
  fst (fst opened) = Some (ErrErrno 5) /\
  wg (snd (fst opened)) = 0%nat /\
  snd opened = [OnMediaStateChange MediaStateOpening].
Proof.
  intros opened. split; [reflexivity|]. split; [reflexivity|].
  destruct (Open_failure (K := broken_kernel) serial0 (ErrErrno 5)
              eq_refl eq_refl) as (Herr & Hwg & Hcalls & _).
  split; [exact Herr|]. split; [exact Hwg|exact Hcalls].
Defined.

Lemma openPort_failure_leaves_closed_witness :
  isOpen (s serial0) = false /\
  fst (openPort (K := flush_fails_kernel) serial0) = Some (ErrErrno 25) /\
  isOpen (s (snd (openPort (K := flush_fails_kernel) serial0))) = true /\
  isOpen (s (snd (openPort (K := broken_kernel) serial0))) = false.
Proof.
  split; [reflexivity|]. split; [reflexivity|]. split.
  - apply (openPort_failure_leaves_closed (K := flush_fails_kernel) serial0
             (ErrErrno 25) eq_refl eq_refl).
    exists 3. repeat split.
  - destruct (isOpen (s (snd (openPort (K := broken_kernel) serial0)))) eqn:E;
      [|reflexivity].
    apply (openPort_failure_leaves_closed (K := broken_kernel) serial0
             (ErrErrno 5) eq_refl eq_refl) in E.
    destruct E as (fd0 & Ho & _). discriminate Ho.
Defined.

Lemma openPort_accepts_witness :
  fst (openPort (K := good_kernel) serial0) = None /\
  fst (openPort (K := good_kernel)
         (@NewGXSerial bytes_gxcommon "/dev/ttyS0" 9600 9 0 1)) <> None.
Proof.
  split.
  - apply (openPort_accepts (K := good_kernel) serial0 3 termios_zero 4 5);
      try reflexivity.
    split; [cbn; lia|]. split; [left; reflexivity|left; reflexivity].
  - intros H.
    apply (openPort_accepts (K := good_kernel)
             (@NewGXSerial bytes_gxcommon "/dev/ttyS0" 9600 9 0 1)
             3 termios_zero 4 5) in H; try reflexivity.
    cbn in H. lia.
Defined.

Lemma setBaudRate_accepts_witness :
  let p := {| f := Some 3; fd := 3; r := Some 4; w := Some 5 |} in
  getTermios (K := good_kernel) p = Ok termios_zero /\
  setBaudRate (K := good_kernel) p 9600 = None /\
  setBaudRate (K := good_kernel) p 9601 = Some (ErrUnsupportedBaud 9601).
Proof.
  intros p. split; [reflexivity|]. split.
  - destruct (setBaudRate_accepts (K := good_kernel) p termios_zero 9600 eq_refl)
      as [(_ & _ & H)|(Hn & _)].
    + rewrite H. reflexivity.
    + exfalso. apply Hn. cbn. tauto.
  - destruct (setBaudRate_accepts (K := good_kernel) p termios_zero 9601 eq_refl)
      as [(Hin & _)|(_ & H)].
    + exfalso. cbn in Hin. lia.
    + exact H.
Defined.

Lemma openPort_programs_raw_mode_witness :
  exists t' : Termios,
    open_termios serial0 termios_zero = Ok t' /\
    Z.land (Cflag t') unix.CSIZE = unix.CS8 /\
    Ispeed t' = unix.B9600.
Proof.
  eexists. split; [reflexivity|].
  destruct (openPort_programs_raw_mode serial0 termios_zero _ eq_refl)
    as (_ & Hsize & _ & _ & _ & _ & _ & _ & _ & Hspeed & _).
  split; [exact Hsize|exact Hspeed].
Defined.

Lemma Open_flush_failure_witness :
  let g1 := snd (fst (Open (K := flush_fails_kernel) serial0)) in
  fst (fst (Open (K := flush_fails_kernel) serial0)) = Some (ErrErrno 25) /\
  isOpen (s g1) = true /\ wg g1 = 0%nat /\
  Open (K := flush_fails_kernel) g1 = (None, g1, []).
Proof.
  intros g1.
  destruct (Open_flush_failure (K := flush_fails_kernel) serial0 3 termios_zero
              (ErrErrno 25)) as (Herr & Ho & _ & _ & Hwg & Hagain);
    try reflexivity.
  - cbn. lia.
  - left. reflexivity.
  - left. reflexivity.
  - split; [exact Herr|]. split; [exact Ho|]. split; [exact Hwg|exact Hagain].
Defined.

Lemma trace_level_monotone_witness :
  let g := @SetOnTrace bytes_gxcommon serial0 true in
  4 <= 16 /\
  trace (snd (SetTrace g 4)) false 4 (msg_connecting_to "x") <> [] /\
  trace (snd (SetTrace g 16)) false 4 (msg_connecting_to "x")
  = trace (snd (SetTrace g 4)) false 4 (msg_connecting_to "x").
Proof.
  intros g. split; [lia|].
  assert (Hne : trace (snd (SetTrace g 4)) false 4
                  (msg_connecting_to "x") <> []) by (cbn; discriminate).
  split; [exact Hne|].
  destruct (trace_level_monotone g false 4
              (msg_connecting_to "x") 4 16) as (H & _); [lia|].
  exact (H Hne).
Defined.

Lemma Sends_count_witness :
  let g := snd (fst (Open (K := good_kernel) serial0)) in
  let datas : list (option (@value bytes_gxcommon)) :=
    [Some (bytes_of "PING"); None; Some (bytes_of "AB")] in
  0 <= GetBytesSent g < 2 ^ 64 /\
  GetBytesSent (@Sends bytes_gxcommon broken_kernel g datas) = 6.
Proof.
  intros g datas.
  assert (Hr : 0 <= GetBytesSent g < 2 ^ 64) by (cbn; lia).
  split; [exact Hr|].
  destruct (@Sends_count bytes_gxcommon broken_kernel datas g Hr) as (H & _).
  rewrite H. reflexivity.
Defined.

Lemma Open_Close_Open_witness :
  let reads : list (result (list byte)) := [Ok []; Err ErrNotOpen] in
  let g1 := snd (fst (Open (K := good_kernel) serial0)) in
  let g2 := snd (fst (Close (K := good_kernel) g1 reads)) in
  isOpen (s serial0) = false /\ wg serial0 = 0%nat /\
  stop serial0 <> chan_closed /\
  fst (fst (Open (K := good_kernel) serial0)) = None /\
  wg g1 = 1%nat /\
  fst (fst (Close (K := good_kernel) g1 reads)) = Returns None /\
  isOpen (s g2) = false /\ wg g2 = 0%nat /\
  fst (fst (Open (K := good_kernel) g2)) = None.
Proof.
  intros reads g1 g2.
  assert (Hs : stop serial0 <> chan_closed) by discriminate.
  split; [reflexivity|]. split; [reflexivity|]. split; [exact Hs|].
  split; [reflexivity|]. split; [reflexivity|].
  destruct (Open_Close_Open (K := good_kernel) serial0 1 ErrNotOpen []
              eq_refl eq_refl Hs eq_refl)
    as (Hr & Hc & Hw & _ & Ho & _).
  split; [exact Hr|]. split; [exact Hc|]. split; [exact Hw|exact Ho].
Defined.

Lemma Close_blocks_on_received_bytes_witness :
  let g1 := snd (fst (Open (K := good_kernel) serial0)) in
  let closed := Close (K := good_kernel) g1 [Ok (bytes_of "A"); Err ErrNotOpen] in
  wg g1 <> 0%nat /\ stop g1 <> chan_closed /\ bytes_of "A" <> [] /\
  fst (fst closed) = Blocks /\
  isOpen (s (snd (fst closed))) = false /\
  wg (snd (fst closed)) = 1%nat /\
  GetBytesReceived (snd (fst closed)) = 1 /\
  snd closed = [OnMediaStateChange MediaStateClosing;
                OnMediaStateChange MediaStateClosed].
Proof.
  intros g1 closed.
  assert (Hw : wg g1 <> 0%nat) by discriminate.
  assert (Hs : stop g1 <> chan_closed) by discriminate.
  assert (Hd : bytes_of "A" <> []) by discriminate.
  split; [exact Hw|]. split; [exact Hs|]. split; [exact Hd|].
  destruct (Close_blocks_on_received_bytes (K := good_kernel) g1 0
              (bytes_of "A") [Err ErrNotOpen] Hw Hs Hd)
    as (Hb & Hc & Hwg & Hrx & Hcalls).
  split; [exact Hb|]. split; [exact Hc|]. split; [exact Hwg|].
  split; [exact Hrx|exact Hcalls].
Defined.

Lemma setStopBits_then_getStopBits_witness :
  let p := {| f := Some 3; fd := 3; r := Some 4; w := Some 5 |} in
  (1 = (@StopBitsOne bytes_gxcommon) \/ 1 = 0) /\
  exists t' : Termios,
    @setStopBits bytes_gxcommon good_kernel p 1
    = setTermios (K := good_kernel) p t' /\
    getStopBits
      (K := {| unix_Open := fun _ => Ok 3;
               IoctlGetTermios := fun _ => Ok t';
               IoctlSetTermios := fun _ _ => None;
               IoctlSetInt_TCFLSH := fun _ => None;
               os_Pipe := Ok (4, 5);
               file_Close := fun _ => None;
               file_Write := fun _ data => (len data, None) |}) p
    = (1, None).
Proof.
  intros p. split; [left; reflexivity|].
  destruct (@setStopBits_then_getStopBits bytes_gxcommon termios_zero 1)
    as (t' & Hw & Hr); [left; reflexivity|].
  exists t'. split.
  - apply (Hw good_kernel). reflexivity.
  - apply Hr. reflexivity.
Defined.

Lemma updateSettings_writes_witness :
  let p := {| windows.h := 7; windows.ovRead_HEvent := 8;
              windows.ovWrite_HEvent := 9; windows.closing := 10 |} in
  let cfg := @NewGXSerial bytes_gxcommon "COM1" 9600 264 1 2 in
  (stopBits cfg = (@StopBitsOne bytes_gxcommon)
   \/ stopBits cfg = (@StopBitsTwo bytes_gxcommon)) /\
  exists d' : windows.DCB,
    windows.updateSettings (K := windows.good_kernel32) p cfg
    = windows.setCommState (K := windows.good_kernel32) p d' /\
    windows.ByteSize d' = 8 /\ windows.StopBits d' = 2 /\
    Z.land (windows.Flags d') windows.settings_flags = 3.
Proof.
  intros p cfg.
  assert (Hv : stopBits cfg = (@StopBitsOne bytes_gxcommon)
               \/ stopBits cfg = (@StopBitsTwo bytes_gxcommon))
    by (right; reflexivity).
  split; [exact Hv|].
  destruct (@updateSettings_writes bytes_gxcommon cfg windows.dcb_zero Hv)
    as (d' & Hw & _ & Hsize & _ & Hstop & _ & _ & Hfl & _).
  exists d'. split; [apply Hw; reflexivity|].
  split; [exact Hsize|]. split; [exact Hstop|exact Hfl].
Defined.
